(** * Mori tea storefront: cart container, catalog grid and checkout sequencer

    A shallow embedding of the client-side logic of
    [src/context/CartContext.tsx], [src/components/ProductGrid.tsx] and
    [src/pages/Checkout.tsx].

    Conventions of the embedding.
    - A JavaScript [number] holding a price or an amount is a rational [Q];
      a [number] holding a count (quantity, stock) is an integer [Z].
      [NaN] and infinities are not represented.  Statements on these
      definitions use comparisons and the shape of a result, not the laws of
      exact addition.  Where the value of a sum is at stake (module
      [CartDouble]), the numbers are IEEE 754 binary64 values with the
      operations of [SpecFloat].
    - An optional field [f?: T] is an [option T]; [None] is [undefined].
    - React state updaters ([setCart (prev => ...)]) are functions from the
      previous state to the next one; what they print with [console.warn]
      is returned next to the new state.
    - Calls to the record store and the payment API take their outcome from
      a script of outcomes carried by the world, so that every pattern of
      failures can be run.
    - Of the console output of the checkout handlers, the lines printed on
      a failure path are kept ([console.error], and the [console.log] of a
      [catch] block); progress lines are left out.
    - The callbacks of a [Promise.all] batch are run in list order; each
      runs to its end whether or not another one rejects. *)

From Stdlib Require Import List String ZArith QArith Bool Lia.
From Stdlib Require SpecFloat.
Import ListNotations.

Local Open Scope string_scope.
Local Open Scope list_scope.
Local Open Scope Z_scope.

(** ** JavaScript numbers and truthiness *)

(** [a < b] on prices, as a boolean. *)
Definition Qltb (a b : Q) : bool := (Qnum a * QDen b <? Qnum b * QDen a)%Z.

(** Truthiness of an optional number: [undefined] and [0] are falsy. *)
Definition truthy_num (x : option Q) : bool :=
  match x with
  | Some q => negb (Qeq_bool q 0)
  | None => false
  end.

(** Truthiness of a string: only the empty string is falsy. *)
Definition truthy_str (s : string) : bool :=
  match s with
  | EmptyString => false
  | String _ _ => true
  end.

(** ** Products and cart entries *)

(** The keys of [Product] other than [quantity]. *)
Record ProductData := mkProductData {
  id : string;
  name : string;
  description : string;
  short_description : option string;
  price : Q;
  sale_price : option Q;
  originalPrice : option Q;
  weight : string;
  images : option (list string);
  image : option (list string);
  hover_image : option string;
  stock : option Z
}.

(** [interface Product]: the keys above and an optional [quantity]. *)
Record Product := mkProduct {
  data : ProductData;
  own_quantity : option Z
}.

(** [interface CartItem extends Product { quantity: number }]. *)
Record CartItem := mkCartItem {
  details : ProductData;
  quantity : Z
}.

Definition Cart := list CartItem.

(** What the cart container prints with [console.warn]. *)
Inductive Warning :=
| StockLimitReached (product_name : string) (limit : Z)
| OutOfStock (product_name : string)
| QuantityCapped (requested : Z) (product_name : string) (limit : Z).

Module CartContext.

(** [{ ...item, quantity: q }] *)
Definition with_quantity (item : CartItem) (q : Z) : CartItem :=
  mkCartItem (details item) q.

(** [prevCart.find(item => item.id === productId)] *)
Definition find_item (productId : string) (cart : Cart) : option CartItem :=
  find (fun item => id (details item) =? productId)%string cart.

(** [updateProductInCart]: the updater passed to [setCart]. *)
Definition updateProductInCart (updatedProduct : Product) (prevCart : Cart) : Cart :=
  map (fun item =>
         if (id (details item) =? id (data updatedProduct))%string
         then mkCartItem (data updatedProduct) (quantity item)
         else item)
      prevCart.

(** [addToCart]: the updater passed to [setCart], with its warning. *)
Definition addToCart (product : Product) (prevCart : Cart) : Cart * list Warning :=
  let p := data product in
  match find_item (id p) prevCart with
  | Some existingItem =>
      match stock p with
      | Some s =>
          if quantity existingItem >=? s
          then (prevCart, [StockLimitReached (name p) s])
          else (map (fun item =>
                       if (id (details item) =? id p)%string
                       then with_quantity item (quantity item + 1)
                       else item) prevCart, [])
      | None =>
          (map (fun item =>
                  if (id (details item) =? id p)%string
                  then with_quantity item (quantity item + 1)
                  else item) prevCart, [])
      end
  | None =>
      match stock p with
      | Some s =>
          if s <=? 0
          then (prevCart, [OutOfStock (name p)])
          else (prevCart ++ [mkCartItem p 1], [])
      | None => (prevCart ++ [mkCartItem p 1], [])
      end
  end.

(** [removeFromCart] *)
Definition removeFromCart (productId : string) (prevCart : Cart) : Cart :=
  filter (fun item => negb (id (details item) =? productId)%string) prevCart.

(** The body of the [map] callback of [updateQuantity]. *)
Definition set_quantity (productId : string) (q : Z) (item : CartItem)
  : CartItem * list Warning :=
  if (id (details item) =? productId)%string then
    match stock (details item) with
    | Some s =>
        if q >? s
        then (with_quantity item s, [QuantityCapped q (name (details item)) s])
        else (with_quantity item q, [])
    | None => (with_quantity item q, [])
    end
  else (item, []).

(** [updateQuantity] *)
Definition updateQuantity (productId : string) (q : Z) (prevCart : Cart)
  : Cart * list Warning :=
  if q <=? 0 then (removeFromCart productId prevCart, [])
  else
    let rs := map (set_quantity productId q) prevCart in
    (map fst rs, List.concat (map snd rs)).

(** [clearCart] *)
Definition clearCart (prevCart : Cart) : Cart := [].

(** [getTotalItems] *)
Definition getTotalItems (cart : Cart) : Z :=
  fold_left (fun total item => total + quantity item) cart 0.

(** The effective unit price of a cart line, as [getTotalPrice] computes it:
    [(item.sale_price && item.sale_price > 0 && item.sale_price < item.price)
       ? item.sale_price : item.price]. *)
Definition effectivePrice (item : CartItem) : Q :=
  let d := details item in
  match sale_price d with
  | Some s =>
      if truthy_num (Some s) && Qltb 0 s && Qltb s (price d) then s else price d
  | None => price d
  end.

(** [getTotalPrice] *)
Definition getTotalPrice (cart : Cart) : Q :=
  fold_left
    (fun total item => (total + effectivePrice item * inject_Z (quantity item))%Q)
    cart 0%Q.

(** [getItemQuantity] *)
Definition getItemQuantity (productId : string) (cart : Cart) : Z :=
  match find_item productId cart with
  | Some item => quantity item
  | None => 0
  end.

End CartContext.

(** ** Catalog grid: realtime reconciliation of the rendered list *)

Module ProductGrid.

(** A value received for [record.stock]: a number, or something [Number()]
    turns into [NaN]. *)
Inductive RawNumber :=
| Numeric (n : Z)
| NotNumeric.

(** [interface PocketBaseProduct], with the [sale_price] key the handler
    reads.  An absent or [null] stock is [None]. *)
Record PocketBaseProduct := mkRecord {
  rec_id : string;
  rec_name : string;
  rec_description : string;
  rec_short_description : option string;
  rec_price : Q;
  rec_sale_price : option Q;
  rec_category : string;
  rec_in_stock : bool;
  rec_stock : option RawNumber;
  rec_image : list string;
  rec_hover_image : option string;
  rec_created : string;
  rec_updated : string;
  rec_display_order : option Z;
  rec_hidden : option bool
}.

Inductive Action := create | update | delete.

(** The event [e] handed to the subscription callback. *)
Record Event := mkEvent {
  action : Action;
  record : PocketBaseProduct
}.

(** [!!record.hidden] *)
Definition hidden (r : PocketBaseProduct) : bool :=
  match rec_hidden r with
  | Some b => b
  | None => false
  end.

(** [transformRecord] *)
Definition transformRecord (r : PocketBaseProduct) : Product :=
  let stock' :=
    match rec_stock r with
    | Some (Numeric n) => Some n
    | Some NotNumeric => Some 0
    | None => None
    end in
  mkProduct
    (mkProductData
       (rec_id r) (rec_name r) (rec_description r) (rec_short_description r)
       (rec_price r)
       (match rec_sale_price r with
        | Some s => if Qeq_bool s 0 then None else Some s
        | None => None
        end)
       None
       (if truthy_str (rec_category r) then rec_category r else "100g")
       (Some [])
       (Some (rec_image r))
       (rec_hover_image r)
       stock')
    None.

(** [e.record.in_stock && !e.record.hidden] *)
Definition visible (r : PocketBaseProduct) : bool :=
  rec_in_stock r && negb (hidden r).

(** The updater run by the subscription callback for one event. *)
Definition on_event (e : Event) (prev : list Product) : list Product :=
  let r := record e in
  match action e with
  | create =>
      if visible r then transformRecord r :: prev else prev
  | update =>
      let transformedProduct := transformRecord r in
      if visible r then
        match find (fun p => id (data p) =? rec_id r)%string prev with
        | Some _ =>
            map (fun product =>
                   if (id (data product) =? rec_id r)%string
                   then transformedProduct else product) prev
        | None => transformedProduct :: prev
        end
      else
        filter (fun product => negb (id (data product) =? rec_id r)%string) prev
  | delete =>
      filter (fun product => negb (id (data product) =? rec_id r)%string) prev
  end.

(** The product ids shown by the grid. *)
Definition rendered_ids (products : list Product) : list string :=
  map (fun p => id (data p)) products.

End ProductGrid.

(** ** Checkout sequencer *)

Module Checkout.

Import CartContext.

(** [interface ShippingInfo] *)
Record ShippingInfo := mkShippingInfo {
  firstName : string;
  lastName : string;
  email : string;
  phone : string;
  address : string;
  city : string;
  postalCode : string;
  country : string
}.

(** [keyof ShippingInfo] *)
Inductive Field :=
| FirstName | LastName | Email | Phone | Address | City | PostalCode | Country.

Definition key (f : Field) : string :=
  match f with
  | FirstName => "firstName" | LastName => "lastName" | Email => "email"
  | Phone => "phone" | Address => "address" | City => "city"
  | PostalCode => "postalCode" | Country => "country"
  end.

(** [shippingInfo[field]] *)
Definition get (info : ShippingInfo) (f : Field) : string :=
  match f with
  | FirstName => firstName info | LastName => lastName info
  | Email => email info | Phone => phone info | Address => address info
  | City => city info | PostalCode => postalCode info
  | Country => country info
  end.

(** The inputs of the shipping form that carry the [required] attribute
    (and a starred label) in the markup. *)
Definition marked_required : list Field :=
  [FirstName; LastName; Email; Phone; Address; City; PostalCode; Country].

(** The [required] array of [validateForm]. *)
Definition required : list Field :=
  [FirstName; LastName; Email; Phone; Address; City; PostalCode].

(** [field.charAt(0).toUpperCase() + field.slice(1)] on ASCII keys. *)
Definition capitalize (s : string) : string :=
  match s with
  | EmptyString => EmptyString
  | String c rest =>
      let n := Ascii.nat_of_ascii c in
      String (if (97 <=? n)%nat && (n <=? 122)%nat
              then Ascii.ascii_of_nat (n - 32) else c) rest
  end.

(** The signed-in user returned by [useAuth()]. *)
Record User := mkUser {
  user_id : string;
  user_email : string;
  user_name : string;
  username : string
}.

Inductive Status := pending | paid | processing | shipped | delivered | cancelled.

(** [orderData] *)
Record OrderData := mkOrderData {
  order_user : option string;
  total_price : Q;
  status : Status;
  shipping_address : ShippingInfo;
  guest_email : option string;
  guest_name : option string;
  guest_phone : option string
}.

(** An order as stored: the record store assigns the id. *)
Record OrderRecord := mkOrderRecord {
  order_id : nat;
  order_data : OrderData
}.

(** [orderItemData] *)
Record OrderItemData := mkOrderItemData {
  item_order : nat;
  item_product : string;
  item_quantity : Z;
  item_price : Q
}.

(** The columns of a [products] row that checkout reads and writes. *)
Record ProductRow := mkProductRow {
  row_id : string;
  row_stock : option Z;
  row_in_stock : bool
}.

(** The three collections of the record store. *)
Record Backend := mkBackend {
  orders : list OrderRecord;
  order_items : list OrderItemData;
  products : list ProductRow
}.

(** How a request ends: served, answered with an error status, or not
    answered at all. *)
Inductive Outcome := Ok | HttpError | NetError.

(** Through the SDK client ([pb.collection(...)]) or a bare [fetch]. *)
Inductive Via := SDK | RawFetch.

Inductive Call :=
| GetUser
| CreateOrder (v : Via)
| CreateOrderItem (v : Via)
| GetProduct (v : Via)
| UpdateProduct (v : Via)
| SendEmail
| CreateIntent.

Inductive Level := LogLevel | ErrorLevel.

Inductive Toast :=
| ToastSuccess (msg : string)
| ToastError (msg : string).

Inductive Step := shipping_step | payment.

(** Everything a handler can read or change.  [script] holds the outcomes
    of the requests still to come (an exhausted script serves every
    request); [trace] is the history of the requests made, oldest first;
    [intents] are the amounts for which the payment API was asked to open
    a payment intent. *)
Record World := mkWorld {
  backend : Backend;
  script : list Outcome;
  trace : list (Call * Outcome);
  intents : list Q;
  console : list (Level * string);
  toasts : list Toast;
  cart : Cart;
  currentStep : Step;
  clientSecret : string;
  loading : bool;
  route : option string
}.

(** *** A state and exception monad for the handlers *)

Inductive Res (A : Type) :=
| Val (a : A)
| Throw (msg : string).
Arguments Val {A} a.
Arguments Throw {A} msg.

Definition M (A : Type) : Type := World -> Res A * World.

Definition ret {A} (a : A) : M A := fun w => (Val a, w).

Definition bind {A B} (m : M A) (k : A -> M B) : M B :=
  fun w =>
    match m w with
    | (Val a, w') => k a w'
    | (Throw e, w') => (Throw e, w')
    end.

Definition throw {A} (msg : string) : M A := fun w => (Throw msg, w).

(** [try { m } catch (error) { h error.message }] *)
Definition try_catch {A} (m : M A) (h : string -> M A) : M A :=
  fun w =>
    match m w with
    | (Val a, w') => (Val a, w')
    | (Throw e, w') => h e w'
    end.

(** [try { m } finally { f }] *)
Definition finally {A} (m : M A) (f : M unit) : M A :=
  fun w =>
    match m w with
    | (r, w') =>
        match f w' with
        | (Val _, w'') => (r, w'')
        | (Throw e, w'') => (Throw e, w'')
        end
    end.

Declare Scope handler_scope.
Delimit Scope handler_scope with handler.
Notation "x <- m ;; k" := (bind m (fun x => k))
  (at level 100, m at next level, right associativity) : handler_scope.
Notation "m ;; k" := (bind m (fun _ => k))
  (at level 100, right associativity) : handler_scope.
Local Open Scope handler_scope.

(** The world after a handler ran. *)
Definition exec {A} (m : M A) (w : World) : World := snd (m w).

(** [for (const item of l) { await f item }] *)
Fixpoint for_each {A} (f : A -> M unit) (l : list A) : M unit :=
  match l with
  | [] => ret tt
  | x :: rest => f x ;; for_each f rest
  end.

(** Every promise of [l.map(async f)] settled, in list order: a rejection
    does not stop the others. *)
Fixpoint settle_all {A B} (f : A -> M B) (l : list A) : M (list (Res B)) :=
  match l with
  | [] => ret []
  | x :: rest =>
      fun w =>
        match f x w with
        | (r, w') =>
            match settle_all f rest w' with
            | (Val rs, w'') => (Val (r :: rs), w'')
            | (Throw e, w'') => (Throw e, w'')
            end
        end
  end.

(** What [await Promise.all(...)] yields once the promises are settled:
    all the values, or the first rejection. *)
Fixpoint all_values {B} (rs : list (Res B)) : Res (list B) :=
  match rs with
  | [] => Val []
  | Throw e :: _ => Throw e
  | Val b :: rest =>
      match all_values rest with
      | Val bs => Val (b :: bs)
      | Throw e => Throw e
      end
  end.

(** [await Promise.all(l.map(async f))].  The requests are issued for every
    element; they are modelled as served in list order. *)
Definition promise_all {A B} (f : A -> M B) (l : list A) : M (list B) :=
  rs <- settle_all f l ;;
  match all_values rs with
  | Val bs => ret bs
  | Throw e => throw e
  end.

(** *** State setters *)

Definition set_backend (b : Backend) : M unit := fun w =>
  (Val tt, mkWorld b (script w) (trace w) (intents w) (console w) (toasts w)
                   (cart w) (currentStep w) (clientSecret w) (loading w) (route w)).

Definition set_script (s : list Outcome) : M unit := fun w =>
  (Val tt, mkWorld (backend w) s (trace w) (intents w) (console w) (toasts w)
                   (cart w) (currentStep w) (clientSecret w) (loading w) (route w)).

Definition log_call (c : Call) (o : Outcome) : M unit := fun w =>
  (Val tt, mkWorld (backend w) (script w) (trace w ++ [(c, o)]) (intents w)
                   (console w) (toasts w)
                   (cart w) (currentStep w) (clientSecret w) (loading w) (route w)).

Definition open_intent (amount : Q) : M unit := fun w =>
  (Val tt, mkWorld (backend w) (script w) (trace w) (intents w ++ [amount])
                   (console w) (toasts w)
                   (cart w) (currentStep w) (clientSecret w) (loading w) (route w)).

Definition console_print (l : Level) (msg : string) : M unit := fun w =>
  (Val tt, mkWorld (backend w) (script w) (trace w) (intents w)
                   (console w ++ [(l, msg)]) (toasts w)
                   (cart w) (currentStep w) (clientSecret w) (loading w) (route w)).

Definition console_log := console_print LogLevel.
Definition console_error := console_print ErrorLevel.

Definition toast (t : Toast) : M unit := fun w =>
  (Val tt, mkWorld (backend w) (script w) (trace w) (intents w) (console w)
                   (toasts w ++ [t])
                   (cart w) (currentStep w) (clientSecret w) (loading w) (route w)).

Definition toast_success (msg : string) := toast (ToastSuccess msg).
Definition toast_error (msg : string) := toast (ToastError msg).

Definition setCart (c : Cart) : M unit := fun w =>
  (Val tt, mkWorld (backend w) (script w) (trace w) (intents w) (console w)
                   (toasts w) c (currentStep w) (clientSecret w) (loading w) (route w)).

Definition setCurrentStep (s : Step) : M unit := fun w =>
  (Val tt, mkWorld (backend w) (script w) (trace w) (intents w) (console w)
                   (toasts w) (cart w) s (clientSecret w) (loading w) (route w)).

Definition setClientSecret (s : string) : M unit := fun w =>
  (Val tt, mkWorld (backend w) (script w) (trace w) (intents w) (console w)
                   (toasts w) (cart w) (currentStep w) s (loading w) (route w)).

Definition setLoading (b : bool) : M unit := fun w =>
  (Val tt, mkWorld (backend w) (script w) (trace w) (intents w) (console w)
                   (toasts w) (cart w) (currentStep w) (clientSecret w) b (route w)).

Definition navigate (to : string) : M unit := fun w =>
  (Val tt, mkWorld (backend w) (script w) (trace w) (intents w) (console w)
                   (toasts w) (cart w) (currentStep w) (clientSecret w) (loading w)
                   (Some to)).

Definition get_backend : M Backend := fun w => (Val (backend w), w).
Definition get_cart : M Cart := fun w => (Val (cart w), w).

(** *** Requests *)

(** The outcome of the next request: the head of the script. *)
Definition next_outcome : M Outcome := fun w =>
  match script w with
  | [] => (Val Ok, w)
  | o :: rest => (set_script rest ;; ret o) w
  end.

(** Issue request [c].  [available] tells whether what the request
    addresses exists: a served request for a missing row is answered with
    an error status.  The outcome is appended to the trace. *)
Definition request (c : Call) (available : bool) : M Outcome :=
  o <- next_outcome ;;
  let o' := match o with
            | Ok => if available then Ok else HttpError
            | _ => o
            end in
  log_call c o' ;;
  ret o'.

Definition insert_order (d : OrderData) : M OrderRecord :=
  b <- get_backend ;;
  let r := mkOrderRecord (List.length (orders b)) d in
  set_backend (mkBackend (orders b ++ [r]) (order_items b) (products b)) ;;
  ret r.

Definition insert_item (d : OrderItemData) : M OrderItemData :=
  b <- get_backend ;;
  set_backend (mkBackend (orders b) (order_items b ++ [d]) (products b)) ;;
  ret d.

Definition find_row (pid : string) (b : Backend) : option ProductRow :=
  find (fun r => row_id r =? pid)%string (products b).

Definition has_row (pid : string) (b : Backend) : bool :=
  match find_row pid b with
  | Some _ => true
  | None => false
  end.

Definition patch_row (pid : string) (patch : ProductRow -> ProductRow) : M unit :=
  b <- get_backend ;;
  set_backend
    (mkBackend (orders b) (order_items b)
       (map (fun r => if (row_id r =? pid)%string then patch r else r)
            (products b))).

(** The message of the error an SDK call rejects with. *)
Definition sdk_error : string := "ClientResponseError".
(** The message of the error [fetch] rejects with. *)
Definition fetch_error : string := "Failed to fetch".

(** [pb.collection('_pb_users_auth_').getOne(id)] *)
Definition pb_users_getOne (uid : string) : M unit :=
  o <- request GetUser true ;;
  match o with
  | Ok => ret tt
  | _ => throw sdk_error
  end.

(** [pb.collection('orders').create(orderData)] *)
Definition pb_orders_create (d : OrderData) : M OrderRecord :=
  o <- request (CreateOrder SDK) true ;;
  match o with
  | Ok => insert_order d
  | _ => throw sdk_error
  end.

(** [fetch(.../orders/records, POST)]: [None] is a response that is not
    [ok]. *)
Definition fetch_orders_post (d : OrderData) : M (option OrderRecord) :=
  o <- request (CreateOrder RawFetch) true ;;
  match o with
  | Ok => r <- insert_order d ;; ret (Some r)
  | HttpError => ret None
  | NetError => throw fetch_error
  end.

(** [pb.collection('order_items').create(orderItemData)] *)
Definition pb_order_items_create (d : OrderItemData) : M OrderItemData :=
  o <- request (CreateOrderItem SDK) true ;;
  match o with
  | Ok => insert_item d
  | _ => throw sdk_error
  end.

(** [fetch(.../order_items/records, POST)] *)
Definition fetch_order_items_post (d : OrderItemData) : M (option OrderItemData) :=
  o <- request (CreateOrderItem RawFetch) true ;;
  match o with
  | Ok => r <- insert_item d ;; ret (Some r)
  | HttpError => ret None
  | NetError => throw fetch_error
  end.

(** [pb.collection('products').getOne(id)] *)
Definition pb_products_getOne (pid : string) : M ProductRow :=
  b <- get_backend ;;
  o <- request (GetProduct SDK) (has_row pid b) ;;
  match o, find_row pid b with
  | Ok, Some r => ret r
  | _, _ => throw sdk_error
  end.

(** [fetch(.../products/records/id)] *)
Definition fetch_products_get (pid : string) : M (option ProductRow) :=
  b <- get_backend ;;
  o <- request (GetProduct RawFetch) (has_row pid b) ;;
  match o with
  | Ok => ret (find_row pid b)
  | HttpError => ret None
  | NetError => throw fetch_error
  end.

(** [pb.collection('products').update(id, patch)] *)
Definition pb_products_update (pid : string) (patch : ProductRow -> ProductRow)
  : M unit :=
  b <- get_backend ;;
  o <- request (UpdateProduct SDK) (has_row pid b) ;;
  match o with
  | Ok => patch_row pid patch
  | _ => throw sdk_error
  end.

(** [fetch(.../products/records/id, PATCH)]: [true] is a response that is
    [ok]. *)
Definition fetch_products_patch (pid : string) (patch : ProductRow -> ProductRow)
  : M bool :=
  b <- get_backend ;;
  o <- request (UpdateProduct RawFetch) (has_row pid b) ;;
  match o with
  | Ok => patch_row pid patch ;; ret true
  | HttpError => ret false
  | NetError => throw fetch_error
  end.

(** [sendOrderConfirmationEmailJS]: resolves to whether the mail went out. *)
Definition sendOrderConfirmationEmailJS : M bool :=
  o <- request SendEmail true ;;
  match o with
  | Ok => ret true
  | HttpError => ret false
  | NetError => throw fetch_error
  end.

(** [error.message || 'Unknown error'] *)
Definition message_or_unknown (msg : string) : string :=
  if truthy_str msg then msg else "Unknown error".

(** [Math.max(0, (currentProduct.stock || 0) - item.quantity)] *)
Definition newStock (currentProduct : ProductRow) (item : CartItem) : Z :=
  Z.max 0
    (match row_stock currentProduct with
     | Some s => s
     | None => 0
     end - quantity item).

(** [subtotal > 50 ? 0 : 5] *)
Definition shipping (subtotal : Q) : Q :=
  if Qltb 50 subtotal then 0%Q else 5%Q.

(** [subtotal + shipping] *)
Definition total (subtotal : Q) : Q := (subtotal + shipping subtotal)%Q.

(** The [subtotal], [shipping] and [total] constants of the component
    body, shown in the order summary. *)
Definition order_summary (cart : Cart) : Q * Q * Q :=
  let subtotal := getTotalPrice cart in
  let shipping := shipping subtotal in
  (subtotal, shipping, (subtotal + shipping)%Q).

(** The unit price written by [handleOrderCreation]:
    [item.sale_price && item.sale_price > 0 ? item.sale_price : item.price]. *)
Definition direct_unit_price (item : CartItem) : Q :=
  let d := details item in
  match sale_price d with
  | Some s => if truthy_num (Some s) && Qltb 0 s then s else price d
  | None => price d
  end.

(** The unit price written by [handlePaymentSuccess]:
    [(item.sale_price && item.sale_price > 0 && item.sale_price < item.price)
       ? item.sale_price : item.price]. *)
Definition paid_unit_price (item : CartItem) : Q :=
  let d := details item in
  match sale_price d with
  | Some s =>
      if truthy_num (Some s) && Qltb 0 s && Qltb s (price d) then s else price d
  | None => price d
  end.

Section Handlers.

(** [isOAuthUser] of [utils/oauth-helpers], left uninterpreted. *)
Variable isOAuthUser : option User -> bool.
(** The client secret the payment API answers with. *)
Variable issued_secret : string.
(** [const { user } = useAuth()] *)
Variable user : option User.
(** The [shippingInfo] state of the form. *)
Variable shippingInfo : ShippingInfo.

(** The prologue of both finalize handlers: [(actualUserId, isOAuthUserFlag)]. *)
Definition identify : M (option string * bool) :=
  match user with
  | Some u =>
      if truthy_str (user_id u) then
        if isOAuthUser user then
          try_catch
            (pb_users_getOne (user_id u) ;;
             ret (Some (user_id u), true))
            (fun _ =>
               console_log "OAuth user not found in PocketBase, treating as guest" ;;
               ret (None, true))
        else ret (Some (user_id u), false)
      else ret (None, false)
  | None => ret (None, false)
  end.

(** [orderData] *)
Definition make_orderData (actualUserId : option string) (isOAuthUserFlag : bool)
    (total : Q) (st : Status) : OrderData :=
  let guest_name :=
    (firstName shippingInfo ++ " " ++ lastName shippingInfo)%string in
  match user with
  | None =>
      mkOrderData actualUserId total st shippingInfo
        (Some (email shippingInfo)) (Some guest_name) (Some (phone shippingInfo))
  | Some u =>
      if isOAuthUserFlag then
        mkOrderData actualUserId total st shippingInfo
          (Some (user_email u)) (Some guest_name) (Some (phone shippingInfo))
      else
        mkOrderData actualUserId total st shippingInfo None None None
  end.

(** *** [handleOrderCreation]: the direct order-creation path *)

Definition direct_create_order (orderData : OrderData) : M OrderRecord :=
  try_catch
    (pb_orders_create orderData)
    (fun _ =>
       console_log "Auth error creating order, trying without auth" ;;
       try_catch
         (response <- fetch_orders_post orderData ;;
          match response with
          | Some order => ret order
          | None => throw "Failed to create order"
          end)
         (fun _ =>
            console_error "Direct API call also failed" ;;
            throw "Unable to create order. Please try logging in first.")).

Definition direct_create_item (order : OrderRecord) (item : CartItem) : M unit :=
  let orderItemData :=
    mkOrderItemData (order_id order) (id (details item)) (quantity item)
                    (direct_unit_price item) in
  try_catch
    (pb_order_items_create orderItemData ;; ret tt)
    (fun _ =>
       console_log "Auth error creating order item, trying without auth" ;;
       try_catch
         (response <- fetch_order_items_post orderItemData ;;
          match response with
          | Some _ => ret tt
          | None => console_error "Failed to create order item"
          end)
         (fun _ => console_error "Direct API call for order item failed")).

Definition direct_stock_patch (n : Z) (r : ProductRow) : ProductRow :=
  mkProductRow (row_id r) (Some n) (n >? 0).

Definition direct_update_stock (item : CartItem) : M unit :=
  let pid := id (details item) in
  try_catch
    (currentProduct <- pb_products_getOne pid ;;
     pb_products_update pid (direct_stock_patch (newStock currentProduct item)))
    (fun _ =>
       console_error "Failed to update stock for product" ;;
       try_catch
         (currentProduct <- fetch_products_get pid ;;
          match currentProduct with
          | Some productData =>
              updated <- fetch_products_patch pid
                           (direct_stock_patch (newStock productData item)) ;;
              if updated : bool
              then console_log "Stock updated via API"
              else console_error "Failed to update stock via API"
          | None => ret tt
          end)
         (fun _ => console_error "API stock update failed")).

Definition direct_send_email : M unit :=
  try_catch
    (emailSent <- sendOrderConfirmationEmailJS ;;
     if emailSent : bool
     then toast_success "Order placed successfully! Confirmation email sent."
     else toast_success "Order placed successfully! (Email notification failed)")
    (fun _ =>
       console_error "Email sending error" ;;
       toast_success "Order placed successfully! (Email notification failed)").

(** The writes that follow the creation of the order: the items, the
    stock, the mail; then the cart is cleared and the confirmation shown. *)
Definition direct_after_order (cart : Cart) (order : OrderRecord) : M unit :=
  for_each (direct_create_item order) cart ;;
  for_each direct_update_stock cart ;;
  direct_send_email ;;
  setCart (clearCart cart) ;;
  navigate "/order-confirmation".

(** The [try] block of [handleOrderCreation] once [cart] is read. *)
Definition direct_sequence (cart : Cart) : M unit :=
  let subtotal := getTotalPrice cart in
  let shipping := shipping subtotal in
  let total := (subtotal + shipping)%Q in
  ident <- identify ;;
  let orderData := make_orderData (fst ident) (snd ident) total pending in
  order <- direct_create_order orderData ;;
  direct_after_order cart order.

Definition handleOrderCreation : M unit :=
  finally
    (try_catch
       (setLoading true ;;
        cart <- get_cart ;;
        direct_sequence cart)
       (fun msg =>
          console_error "Error creating order" ;;
          toast_error ("Failed to create order: " ++ message_or_unknown msg)%string ;;
          throw msg))
    (setLoading false).

(** *** [proceedToPayment], [validateForm], [handleShippingSubmit] *)

(** [createStripePaymentIntent] of [utils/stripe-api] *)
Definition createStripePaymentIntent (amount : Q) : M string :=
  try_catch
    (o <- request CreateIntent true ;;
     match o with
     | Ok => open_intent amount ;; ret issued_secret
     | HttpError => throw "API error"
     | NetError => throw fetch_error
     end)
    (fun _ =>
       console_error "Error creating payment intent" ;;
       throw "Failed to create payment intent. Please try again.").

Definition proceedToPayment : M unit :=
  finally
    (try_catch
       (setLoading true ;;
        setClientSecret EmptyString ;;
        cart <- get_cart ;;
        let total :=
          (getTotalPrice cart + (if Qltb 50 (getTotalPrice cart) then 0 else 5))%Q in
        paymentIntent <- createStripePaymentIntent total ;;
        setClientSecret paymentIntent ;;
        setCurrentStep payment ;;
        toast_success "Payment form ready")
       (fun msg =>
          console_error "Error creating payment intent" ;;
          toast_error
            ("Failed to initialize payment: " ++ message_or_unknown msg)%string))
    (setLoading false).

(** The first field of [fields] whose value is falsy. *)
Fixpoint first_missing (fields : list Field) : option Field :=
  match fields with
  | [] => None
  | field :: rest =>
      if truthy_str (get shippingInfo field) then first_missing rest
      else Some field
  end.

Definition validateForm : M bool :=
  match first_missing required with
  | Some field =>
      toast_error (capitalize (key field) ++ " is required")%string ;;
      ret false
  | None => ret true
  end.

Definition handleShippingSubmit : M unit :=
  valid <- validateForm ;;
  if valid : bool then proceedToPayment else ret tt.

(** *** [handlePaymentSuccess]: the payment-success path *)

Definition paid_create_order (orderData : OrderData) : M OrderRecord :=
  match user with
  | None =>
      try_catch
        (response <- fetch_orders_post orderData ;;
         match response with
         | Some order => ret order
         | None => throw "Guest order creation failed"
         end)
        (fun _ =>
           console_error "Guest order creation failed" ;;
           throw "Unable to create guest order. Please try logging in or contact support.")
  | Some _ => pb_orders_create orderData
  end.

Definition paid_create_item (order : OrderRecord) (item : CartItem)
  : M OrderItemData :=
  let effectivePrice := paid_unit_price item in
  let orderItemData :=
    mkOrderItemData (order_id order) (id (details item)) (quantity item)
                    effectivePrice in
  match user with
  | None =>
      response <- fetch_order_items_post orderItemData ;;
      match response with
      | Some created => ret created
      | None => throw "Failed to create order item"
      end
  | Some _ => pb_order_items_create orderItemData
  end.

Definition paid_stock_patch (n : Z) (r : ProductRow) : ProductRow :=
  mkProductRow (row_id r) (Some n) (row_in_stock r).

Definition paid_update_stock (item : CartItem) : M unit :=
  let pid := id (details item) in
  try_catch
    (match user with
     | None =>
         productResponse <- fetch_products_get pid ;;
         match productResponse with
         | None => throw "Failed to fetch product"
         | Some currentProduct =>
             updated <- fetch_products_patch pid
                          (paid_stock_patch (newStock currentProduct item)) ;;
             if updated : bool then ret tt
             else throw "Failed to update stock"
         end
     | Some _ =>
         currentProduct <- pb_products_getOne pid ;;
         pb_products_update pid (paid_stock_patch (newStock currentProduct item))
     end)
    (fun _ => console_error "Failed to update stock").

(** The writes that follow the creation of the order: the items and the
    stock, each batch awaited as a whole; then the cart is cleared and the
    confirmation shown. *)
Definition paid_after_order (cart : Cart) (order : OrderRecord) : M unit :=
  promise_all (paid_create_item order) cart ;;
  promise_all paid_update_stock cart ;;
  setCart (clearCart cart) ;;
  toast_success "Order placed and payment processed successfully!" ;;
  navigate "/order-confirmation".

(** The [try] block of [handlePaymentSuccess] once [cart] is read. *)
Definition paid_sequence (cart : Cart) : M unit :=
  let subtotal := getTotalPrice cart in
  let shipping := shipping subtotal in
  let total := (subtotal + shipping)%Q in
  ident <- identify ;;
  let orderData := make_orderData (fst ident) (snd ident) total paid in
  order <- paid_create_order orderData ;;
  paid_after_order cart order.

Definition handlePaymentSuccess : M unit :=
  finally
    (try_catch
       (setLoading true ;;
        cart <- get_cart ;;
        paid_sequence cart)
       (fun msg =>
          console_error "Order error" ;;
          toast_error ("Failed to create order: " ++ message_or_unknown msg)%string))
    (setLoading false).

End Handlers.

End Checkout.

(** ** Statements about the cart, in the words of the specification *)

Module CartSpec.

Import CartContext.

(** The effective price as the specification words it: the sale price if
    [0 < sale price < price], else the price. *)
Definition spec_unit_price (item : CartItem) : Q :=
  match sale_price (details item) with
  | Some s =>
      if Qlt_le_dec 0 s then
        if Qlt_le_dec s (price (details item)) then s
        else price (details item)
      else price (details item)
  | None => price (details item)
  end.

(** The product id of a cart entry. *)
Definition entry_id (item : CartItem) : string := id (details item).

(** [addToCart product] called [n] times in a row. *)
Fixpoint add_times (n : nat) (product : Product) (cart : Cart) : Cart :=
  match n with
  | O => cart
  | S k => fst (addToCart product (add_times k product cart))
  end.

(** An entry whose stock is known holds no more than that stock. *)
Definition within_stock (item : CartItem) : Prop :=
  match stock (details item) with
  | Some s => quantity item <= s
  | None => True
  end.

Definition cart_within_stock (cart : Cart) : Prop := Forall within_stock cart.

(** The invariant carried along a run: the stock bound, and one entry per
    product id. *)
Definition sound (cart : Cart) : Prop :=
  cart_within_stock cart /\ NoDup (map entry_id cart).

(** The three cart operations of the invariant. *)
Inductive CartOp :=
| AddItem (product : Product)
| UpdateQuantity (productId : string) (q : Z)
| Reconcile (updatedProduct : Product).

Definition apply_op (op : CartOp) (cart : Cart) : Cart :=
  match op with
  | AddItem product => fst (addToCart product cart)
  | UpdateQuantity productId q => fst (updateQuantity productId q cart)
  | Reconcile updatedProduct => updateProductInCart updatedProduct cart
  end.

(** The carts reachable from the empty cart by the three operations. *)
Inductive reachable : Cart -> Prop :=
| reachable_empty : reachable []
| reachable_step (op : CartOp) (cart : Cart) :
    reachable cart -> reachable (apply_op op cart).

(** The stock carried by an operation's product agrees with the cart:
    an add passes a stock that is known and not above the stock recorded
    in the entry for that product (when that one is known), and a
    reconcile passes a stock that is unknown or not below the quantity of
    the entry for that product. *)
Definition agrees_with_cart (op : CartOp) (cart : Cart) : bool :=
  match op with
  | AddItem product =>
      forallb
        (fun item =>
           if (id (details item) =? id (data product))%string then
             match stock (details item), stock (data product) with
             | Some s, Some s' => s' <=? s
             | Some _, None => false
             | None, _ => true
             end
           else true)
        cart
  | UpdateQuantity _ _ => true
  | Reconcile updatedProduct =>
      forallb
        (fun item =>
           if (id (details item) =? id (data updatedProduct))%string then
             match stock (data updatedProduct) with
             | Some s' => quantity item <=? s'
             | None => true
             end
           else true)
        cart
  end.

(** The carts reachable by operations whose stock agrees with the cart. *)
Inductive reachable_agreeing : Cart -> Prop :=
| agreeing_empty : reachable_agreeing []
| agreeing_step (op : CartOp) (cart : Cart) :
    reachable_agreeing cart ->
    agrees_with_cart op cart = true ->
    reachable_agreeing (apply_op op cart).

(** Sample data. *)
Definition sencha : ProductData :=
  mkProductData "sencha" "Sencha" "Green tea" None 10%Q (Some 8%Q) None "100g"
                None None None (Some 3).

Definition matcha : ProductData :=
  mkProductData "matcha" "Matcha" "Powdered tea" None 5%Q None None "50g"
                None None None None.

(** The same product after the stock dropped to one. *)
Definition sencha_low : ProductData :=
  mkProductData "sencha" "Sencha" "Green tea" None 12%Q None None "100g"
                None None None (Some 1).

(** Two units of sencha are in the cart when the store pushes the record
    with stock one. *)
Definition overstocked_cart : Cart :=
  apply_op (Reconcile (mkProduct sencha_low None))
    (apply_op (AddItem (mkProduct sencha None))
       (apply_op (AddItem (mkProduct sencha None)) [])).

(** Two adds, a quantity set above the stock, a reconcile with a larger
    stock. *)
Definition capped_cart : Cart :=
  apply_op (Reconcile (mkProduct sencha None))
    (apply_op (UpdateQuantity "sencha" 9)
       (apply_op (AddItem (mkProduct sencha_low None))
          (apply_op (AddItem (mkProduct matcha None)) []))).

End CartSpec.

(** ** Statements about the catalog grid *)

Module GridSpec.

Import ProductGrid.

(** The rule for update events as the specification states it: a hidden
    product is not rendered, an un-hidden product is rendered (replaced in
    place if it was in the list, else prepended). *)
Definition stated_update_rule (r : PocketBaseProduct) (prev : list Product) : Prop :=
  let next := on_event (mkEvent update r) prev in
  (hidden r = true -> ~ In (rec_id r) (rendered_ids next)) /\
  (hidden r = false -> In (rec_id r) (rendered_ids next)).

(** A record with the flags [in_stock] and [hidden] as given. *)
Definition genmaicha (in_stock : bool) (hidden : option bool) : PocketBaseProduct :=
  mkRecord "genmaicha" "Genmaicha" "Rice tea" None 9%Q (Some 0%Q) "100g"
           in_stock (Some (Numeric 4)) ["genmaicha.jpg"] None
           "2024-01-01" "2024-02-01" (Some 2) hidden.

Definition hojicha : Product :=
  mkProduct
    (mkProductData "hojicha" "Hojicha" "Roasted tea" None 7%Q None None "100g"
                   (Some []) (Some []) None (Some 2))
    None.

End GridSpec.

(** ** Statements about the checkout sequencer *)

Module CheckoutSpec.

Import CartContext Checkout.

(** What a handler added to the histories of the world. *)
Definition requests_since (w w' : World) : list (Call * Outcome) :=
  skipn (List.length (trace w)) (trace w').
Definition console_since (w w' : World) : list (Level * string) :=
  skipn (List.length (console w)) (console w').
Definition toasts_since (w w' : World) : list Toast :=
  skipn (List.length (toasts w)) (toasts w').
Definition items_since (w w' : World) : list OrderItemData :=
  skipn (List.length (order_items (backend w))) (order_items (backend w')).

Definition failed (o : Outcome) : bool :=
  match o with
  | Ok => false
  | _ => true
  end.

(** A request that created the order record. *)
Definition order_created (x : Call * Outcome) : bool :=
  match x with
  | (CreateOrder _, Ok) => true
  | _ => false
  end.

(** A failed write of the later phases on the direct path: an order item
    that the fallback request could not create either, or a failed stock
    request. *)
Definition direct_write_failed (x : Call * Outcome) : bool :=
  match x with
  | (CreateOrderItem RawFetch, o) => failed o
  | (GetProduct _, o) => failed o
  | (UpdateProduct _, o) => failed o
  | _ => false
  end.

(** A failed write of the later phases on the payment-success path: a
    failed order-item or stock request. *)
Definition paid_write_failed (x : Call * Outcome) : bool :=
  match x with
  | (CreateOrderItem _, o) => failed o
  | (GetProduct _, o) => failed o
  | (UpdateProduct _, o) => failed o
  | _ => false
  end.

Definition is_error_line (l : Level * string) : bool :=
  match fst l with
  | ErrorLevel => true
  | LogLevel => false
  end.

Definition is_error_toast (t : Toast) : bool :=
  match t with
  | ToastError _ => true
  | ToastSuccess _ => false
  end.

(** An error message was put out: a [console.error] line or an error
    toast. *)
Definition error_shown (c : list (Level * string)) (ts : list Toast) : bool :=
  existsb is_error_line c || existsb is_error_toast ts.

Definition is_throw {A} (r : Res A) : bool :=
  match r with
  | Throw _ => true
  | Val _ => false
  end.

(** What a piece of a handler appended: requests [t], console lines [c],
    toasts [ts] and order items [its]. *)
Definition history (w w' : World) (t : list (Call * Outcome))
    (c : list (Level * string)) (ts : list Toast) (its : list OrderItemData)
  : Prop :=
  trace w' = trace w ++ t /\
  console w' = console w ++ c /\
  toasts w' = toasts w ++ ts /\
  order_items (backend w') = order_items (backend w) ++ its.

(** The same, for a piece that leaves the orders as they are. *)
Definition summary (w w' : World) (t : list (Call * Outcome))
    (c : list (Level * string)) (ts : list Toast) (its : list OrderItemData)
  : Prop :=
  history w w' t c ts its /\
  orders (backend w') = orders (backend w).

(** A piece that keeps the orders, creates only order items satisfying
    [good], and whose failed writes ([bad]) are answered by an error message
    or by a rejection. *)
Definition accounted {A} (bad : Call * Outcome -> bool)
    (good : OrderItemData -> Prop) (m : M A) : Prop :=
  forall w, exists t c ts its,
    summary w (snd (m w)) t c ts its /\
    existsb order_created t = false /\
    Forall good its /\
    (existsb bad t = true ->
     error_shown c ts = true \/ is_throw (fst (m w)) = true).

(** The order item the handlers write for cart line [item] of order [oid],
    at unit price [unit item]. *)
Definition line_of (unit_price : CartItem -> Q) (oid : nat) (cart : Cart)
    (d : OrderItemData) : Prop :=
  exists item, In item cart /\
    d = mkOrderItemData oid (id (details item)) (quantity item) (unit_price item).

(** Creating the order either stores exactly one new order and returns
    it, or rejects and stores nothing. *)
Definition creates_order (bad : Call * Outcome -> bool) (d : OrderData)
    (m : M OrderRecord) : Prop :=
  forall w, exists t c,
    history w (snd (m w)) t c [] [] /\
    existsb bad t = false /\
    ((exists o, fst (m w) = Val o /\ order_data o = d /\
                orders (backend (snd (m w))) = orders (backend w) ++ [o]) \/
     (is_throw (fst (m w)) = true /\
      existsb order_created t = false /\
      orders (backend (snd (m w))) = orders (backend w))).

(** A finalize sequence: either no order was created, no order item was
    written and the orders are as before, or exactly one order was added, it carries the grand total
    of the cart, the order items written are lines of that order at unit
    price [unit_price], and every failed write ([bad]) is answered by an error
    message or a rejection. *)
Definition finalized (bad : Call * Outcome -> bool) (unit_price : CartItem -> Q)
    (cart : Cart) (m : M unit) : Prop :=
  forall w, exists t c ts its,
    history w (snd (m w)) t c ts its /\
    ((existsb order_created t = false /\ its = [] /\
      orders (backend (snd (m w))) = orders (backend w)) \/
     (exists o,
        orders (backend (snd (m w))) = orders (backend w) ++ [o] /\
        total_price (order_data o) = total (getTotalPrice cart) /\
        Forall (line_of unit_price (order_id o) cart) its /\
        (existsb bad t = true ->
         error_shown c ts = true \/ is_throw (fst (m w)) = true))).

(** A whole handler, from the world it starts in: as [finalized], with
    every failed write answered by an error message. *)
Definition handled (bad : Call * Outcome -> bool) (unit_price : CartItem -> Q)
    (m : M unit) : Prop :=
  forall w, exists t c ts its,
    history w (exec m w) t c ts its /\
    ((existsb order_created t = false /\ its = [] /\
      orders (backend (exec m w)) = orders (backend w)) \/
     (exists o,
        orders (backend (exec m w)) = orders (backend w) ++ [o] /\
        total_price (order_data o) = total (getTotalPrice (cart w)) /\
        Forall (line_of unit_price (order_id o) (cart w)) its /\
        (existsb bad t = true -> error_shown c ts = true))).

(** Sample data. *)
Definition oolong : CartItem :=
  mkCartItem
    (mkProductData "oolong" "Oolong" "Rock tea" None 10%Q (Some 12%Q) None
                   "100g" None None None (Some 4))
    1.

Definition shop : Backend :=
  mkBackend [] []
    [mkProductRow "sencha" (Some 3) true; mkProductRow "oolong" (Some 4) true].

Definition start (script : list Outcome) (cart : Cart) : World :=
  mkWorld shop script [] [] [] [] cart shipping_step EmptyString false None.

Definition alice : ShippingInfo :=
  mkShippingInfo "Alice" "Liddell" "alice@example.org" "555-0100"
                 "1 Rabbit Hole" "Oxford" "OX1" "England".

(** Every field of the form filled in except the country. *)
Definition alice_no_country : ShippingInfo :=
  mkShippingInfo "Alice" "Liddell" "alice@example.org" "555-0100"
                 "1 Rabbit Hole" "Oxford" "OX1" EmptyString.

Definition never_oauth (u : option User) : bool := false.

(** A guest checks out one unit of oolong; the order is stored, then
    every later request fails. *)
Definition order_then_outage : World :=
  start [Ok; NetError; NetError; NetError; NetError; NetError; NetError]
        [oolong].

(** A guest checks out one unit of oolong and every request is served. *)
Definition all_served : World := start [] [oolong].

End CheckoutSpec.

(** ** The realtime subscription of the cart container *)

Module CartRealtime.

Import CartContext.

(** [e.record] of the [products] subscription, with the keys the cart
    reads; numeric columns hold numbers. *)
Record ProductRecord := mkProductRecord {
  r_id : string;
  r_name : string;
  r_description : string;
  r_short_description : option string;
  r_price : Q;
  r_sale_price : option Q;
  r_stock : option Z;
  r_category : string;
  r_image : option (list string);
  r_hover_image : option string
}.

Inductive Action := create | update | delete.

(** The event [e]; [record] is [None] when [e.record] is falsy. *)
Record Event := mkEvent {
  action : Action;
  record : option ProductRecord
}.

Section Subscription.

(** [pb.files.getURL(record, filename)]; [None] when it throws. *)
Variable getURL : ProductRecord -> string -> option string.

(** The [updatedProduct] built by the subscription callback. *)
Definition updatedProduct (r : ProductRecord) : Product :=
  mkProduct
    (mkProductData
       (r_id r) (r_name r) (r_description r) (r_short_description r)
       (if Qeq_bool (r_price r) 0 then 0%Q else r_price r)
       (if truthy_num (r_sale_price r) then r_sale_price r else None)
       None
       (if truthy_str (r_category r) then r_category r else "100g")
       (Some
          match r_image r with
          | Some (img :: imgs) =>
              map (fun img =>
                     match getURL r img with
                     | Some url => url
                     | None => "https://via.placeholder.com/400x400?text=Error"
                     end) (img :: imgs)
          | _ => ["https://via.placeholder.com/400x400?text=No+Image"]
          end)
       (r_image r)
       (r_hover_image r)
       (r_stock r))
    None.

(** The subscription callback, as an update of the cart. *)
Definition on_event (e : Event) (cart : Cart) : Cart :=
  match action e, record e with
  | update, Some r => updateProductInCart (updatedProduct r) cart
  | _, _ => cart
  end.

End Subscription.

End CartRealtime.

(** ** The callers of the cart container *)

Module CartCallers.

Import CartContext.

(** *** [CartSidebar]: the quantity buttons of a cart line *)

(** [onClick={() => updateQuantity(item.id, item.quantity - 1)}] *)
Definition sidebar_minus (item : CartItem) (cart : Cart) : Cart * list Warning :=
  updateQuantity (id (details item)) (quantity item - 1) cart.

(** [onClick={() => updateQuantity(item.id, item.quantity + 1)}] *)
Definition sidebar_plus (item : CartItem) (cart : Cart) : Cart * list Warning :=
  updateQuantity (id (details item)) (quantity item + 1) cart.

(** *** [ProductDetail]: the cart handlers of the product page *)

Record Preparation := mkPreparation {
  amount : string;
  temperature : string;
  steepTime : string;
  taste : string
}.

(** The [stock] of a product record as the page receives it: the key is
    absent, or holds null, or holds a number. *)
Inductive StockField :=
| StockUndefined
| StockNull
| StockNumber (n : Z).

(** The stock of a [cartProduct] as [addToCart] reads it.  Its tests are
    [stock !== undefined], [quantity >= stock] and [stock <= 0]: null passes
    the first and counts as 0 in the other two, and a product that they stop
    is not stored in the cart.  (The warning then prints null where the
    warning of this model carries 0.) *)
Definition stock_for_cart (s : StockField) : option Z :=
  match s with
  | StockUndefined => None
  | StockNull => Some 0
  | StockNumber n => Some n
  end.

(** [interface DetailProduct] *)
Record DetailProduct := mkDetailProduct {
  d_id : string;
  d_name : string;
  d_description : string;
  d_short_description : option string;
  d_price : Q;
  d_sale_price : option Q;
  d_image : option (list string);
  d_hover_image : option string;
  d_weight : option string;
  d_category : option string;
  d_stock : StockField;
  d_created : string;
  d_updated : string;
  d_hidden : option bool;
  d_preparation : option Preparation
}.

(** The toasts of the page. *)
Inductive PageToast :=
| OutOfStockToast
| StockLimitToast (limit : Z)
| AddedToast (product_name : string)
| IncreasedToast (product_name : string)
| DecreasedToast (product_name : string).

Definition is_error (t : PageToast) : bool :=
  match t with
  | OutOfStockToast | StockLimitToast _ => true
  | _ => false
  end.

(** [product.weight || ''] *)
Definition weight_or_empty (product : DetailProduct) : string :=
  match d_weight product with
  | Some w => w
  | None => EmptyString
  end.

(** The [cartProduct] of [handleAddToCart]. *)
Definition cartProduct_add (product : DetailProduct) (productImages : list string)
  : Product :=
  mkProduct
    (mkProductData (d_id product) (d_name product) (d_description product) None
       (d_price product) (d_sale_price product) None (weight_or_empty product)
       (Some productImages) (d_image product) (d_hover_image product)
       (stock_for_cart (d_stock product)))
    None.

(** The [cartProduct] of [handleIncrement]: no [sale_price] key. *)
Definition cartProduct_increment (product : DetailProduct)
    (productImages : list string) : Product :=
  mkProduct
    (mkProductData (d_id product) (d_name product) (d_description product) None
       (d_price product) None None (weight_or_empty product)
       (Some productImages) (d_image product) (d_hover_image product)
       (stock_for_cart (d_stock product)))
    None.

(** [handleAddToCart]: the new cart, what the container warned, and the
    toast shown.  The check of the page is made for a stock that is neither
    undefined nor null. *)
Definition handleAddToCart (product : DetailProduct) (productImages : list string)
    (cart : Cart) : Cart * list Warning * PageToast :=
  let add :=
    let r := addToCart (cartProduct_add product productImages) cart in
    (fst r, snd r, AddedToast (d_name product)) in
  match d_stock product with
  | StockNumber s =>
      let currentInCart := getItemQuantity (d_id product) cart in
      if s <=? 0 then (cart, [], OutOfStockToast)
      else if currentInCart >=? s then (cart, [], StockLimitToast s)
      else add
  | StockUndefined | StockNull => add
  end.

(** [handleIncrement] *)
Definition handleIncrement (product : DetailProduct) (productImages : list string)
    (cart : Cart) : Cart * list Warning * PageToast :=
  let add :=
    let r := addToCart (cartProduct_increment product productImages) cart in
    (fst r, snd r, IncreasedToast (d_name product)) in
  match d_stock product with
  | StockNumber s =>
      let currentInCart := getItemQuantity (d_id product) cart in
      if currentInCart >=? s then (cart, [], StockLimitToast s)
      else add
  | StockUndefined | StockNull => add
  end.

(** [handleDecrement] *)
Definition handleDecrement (product : DetailProduct) (cart : Cart)
  : Cart * list Warning * PageToast :=
  let currentQuantity := getItemQuantity (d_id product) cart in
  let r :=
    if currentQuantity >? 1
    then updateQuantity (d_id product) (currentQuantity - 1) cart
    else (removeFromCart (d_id product) cart, []) in
  (fst r, snd r, DecreasedToast (d_name product)).

End CartCallers.

(** ** More statements about the cart *)

Module CartMore.

Import CartContext CartSpec.

(** Everything a shopper can do to the cart, and what the store pushes. *)
Inductive CartAction :=
| DoAdd (product : Product)
| DoRemove (productId : string)
| DoUpdate (productId : string) (q : Z)
| DoReconcile (updatedProduct : Product)
| DoClear.

Definition act (cart : Cart) (a : CartAction) : Cart :=
  match a with
  | DoAdd product => fst (addToCart product cart)
  | DoRemove productId => removeFromCart productId cart
  | DoUpdate productId q => fst (updateQuantity productId q cart)
  | DoReconcile updatedProduct => updateProductInCart updatedProduct cart
  | DoClear => clearCart cart
  end.

(** The cart after a sequence of actions. *)
Definition run (actions : list CartAction) (cart : Cart) : Cart :=
  fold_left act actions cart.


(** The sum of the quantities. *)
Fixpoint units (cart : Cart) : Z :=
  match cart with
  | [] => 0
  | item :: rest => quantity item + units rest
  end.

(** The [map] callback of [addToCart] for product id [X]. *)
Definition increment (X : string) (item : CartItem) : CartItem :=
  if (id (details item) =? X)%string
  then with_quantity item (quantity item + 1) else item.

(** The [map] callback of [updateProductInCart] for the pushed record [U]. *)
Definition reconciled (U : Product) (item : CartItem) : CartItem :=
  if (id (details item) =? id (data U))%string
  then mkCartItem (data U) (quantity item) else item.

(** A pushed record for sencha: new price, no sale, stock one. *)
Definition sencha_pushed : CartRealtime.ProductRecord :=
  CartRealtime.mkProductRecord "sencha" "Sencha" "Green tea" None 12%Q
    (Some 0%Q) (Some 1) "100g" None None.

Definition no_url (r : CartRealtime.ProductRecord) (filename : string)
  : option string := None.

Definition gyokuro : CartCallers.DetailProduct :=
  CartCallers.mkDetailProduct "gyokuro" "Gyokuro" "Shaded tea" None 20%Q
    (Some 15%Q) None None (Some "50g") None (CartCallers.StockNumber 2)
    "2024-01-01" "2024-01-02" None None.

(** The same record with a null stock. *)
Definition gyokuro_null_stock : CartCallers.DetailProduct :=
  CartCallers.mkDetailProduct "gyokuro" "Gyokuro" "Shaded tea" None 20%Q
    (Some 15%Q) None None (Some "50g") None CartCallers.StockNull
    "2024-01-01" "2024-01-02" None None.

End CartMore.

(** ** [getTotalPrice] in the arithmetic of the code

    A JavaScript [number] is an IEEE 754 binary64 value.  [SpecFloat] gives
    these values ([spec_float]: signed zeros, infinities, NaN and finite
    values) with addition and multiplication rounded to nearest, ties to
    even, and the comparisons. *)

Module CartDouble.

Import SpecFloat.

Definition double : Type := spec_float.

Definition prec : Z := 53.
Definition emax : Z := 1024.

(** [x + y], [x * y], [x / y], [x < y] and [x <= y] on numbers. *)
Definition add (x y : double) : double := SFadd prec emax x y.
Definition mul (x y : double) : double := SFmul prec emax x y.
Definition div (x y : double) : double := SFdiv prec emax x y.
Definition lt (x y : double) : bool := SFltb x y.
Definition le (x y : double) : bool := SFleb x y.

Definition zero : double := S754_zero false.

(** An integer literal. *)
Definition of_Z (z : Z) : double := binary_normalize prec emax z 0 false.

(** [ToBoolean] on a number: 0, -0 and NaN are falsy. *)
Definition truthy (x : double) : bool :=
  match x with
  | S754_zero _ | S754_nan => false
  | S754_infinity _ | S754_finite _ _ _ => true
  end.

Definition is_nan (x : double) : bool :=
  match x with
  | S754_nan => true
  | _ => false
  end.

(** A cart entry as [getTotalPrice] reads it. *)
Record Entry := mkEntry {
  entry_id : string;
  price : double;
  sale_price : option double;
  quantity : double
}.

(** [(item.sale_price && item.sale_price > 0 && item.sale_price < item.price)
      ? item.sale_price : item.price] *)
Definition effectivePrice (item : Entry) : double :=
  match sale_price item with
  | Some s =>
      if truthy s && lt zero s && lt s (price item) then s else price item
  | None => price item
  end.

(** [cart.reduce((total, item) => total + effectivePrice * item.quantity, 0)] *)
Definition getTotalPrice (cart : list Entry) : double :=
  fold_left
    (fun total item => add total (mul (effectivePrice item) (quantity item)))
    cart zero.

(** The unit price as the specification words it: the sale price if
    0 < sale price < price, else the price. *)
Definition stated_unit_price (item : Entry) : double :=
  match sale_price item with
  | Some s => if lt zero s && lt s (price item) then s else price item
  | None => price item
  end.

(** The sum of a list of amounts, taken from 0 in the order of the list. *)
Fixpoint sum_from (total : double) (amounts : list double) : double :=
  match amounts with
  | [] => total
  | a :: rest => sum_from (add total a) rest
  end.

Definition sum (amounts : list double) : double := sum_from zero amounts.

(** Sample data: three lines of one unit at 0.1, 0.2 and 0.3, and one line
    of three units at 10 with a sale price of 8. *)
Definition tenths (n : Z) : double := div (of_Z n) (of_Z 10).

Definition one_unit_at (name : string) (p : double) : Entry :=
  mkEntry name p None (of_Z 1).

Definition small_cart : list Entry :=
  [one_unit_at "a" (tenths 1); one_unit_at "b" (tenths 2);
   one_unit_at "c" (tenths 3)].

Definition discounted : Entry :=
  mkEntry "sencha" (of_Z 10) (Some (of_Z 8)) (of_Z 3).

Definition two_on_sale_and_one : list Entry :=
  [mkEntry "sencha" (of_Z 10) (Some (of_Z 8)) (of_Z 2);
   mkEntry "matcha" (of_Z 5) None (of_Z 1)].

End CartDouble.

(** * The shipping form of the checkout page *)

Module CheckoutForm.

Import Checkout.

Definition Field_eq_dec (a b : Field) : {a = b} + {a <> b}.
Proof. decide equality. Defined.

(** The initial state of [shippingInfo]: the email is taken from the
    signed-in user, the country is preselected. *)
Definition initialShippingInfo (user : option User) : ShippingInfo :=
  mkShippingInfo EmptyString EmptyString
    (match user with
     | Some u => if truthy_str (user_email u) then user_email u else EmptyString
     | None => EmptyString
     end)
    EmptyString EmptyString EmptyString EmptyString "Azerbaijan".

(** [handleInputChange]: [setShippingInfo(prev => ({ ...prev, [field]: value }))] *)
Definition handleInputChange (field : Field) (value : string)
    (prev : ShippingInfo) : ShippingInfo :=
  match field with
  | FirstName =>
      mkShippingInfo value (lastName prev) (email prev) (phone prev)
                     (address prev) (city prev) (postalCode prev) (country prev)
  | LastName =>
      mkShippingInfo (firstName prev) value (email prev) (phone prev)
                     (address prev) (city prev) (postalCode prev) (country prev)
  | Email =>
      mkShippingInfo (firstName prev) (lastName prev) value (phone prev)
                     (address prev) (city prev) (postalCode prev) (country prev)
  | Phone =>
      mkShippingInfo (firstName prev) (lastName prev) (email prev) value
                     (address prev) (city prev) (postalCode prev) (country prev)
  | Address =>
      mkShippingInfo (firstName prev) (lastName prev) (email prev) (phone prev)
                     value (city prev) (postalCode prev) (country prev)
  | City =>
      mkShippingInfo (firstName prev) (lastName prev) (email prev) (phone prev)
                     (address prev) value (postalCode prev) (country prev)
  | PostalCode =>
      mkShippingInfo (firstName prev) (lastName prev) (email prev) (phone prev)
                     (address prev) (city prev) value (country prev)
  | Country =>
      mkShippingInfo (firstName prev) (lastName prev) (email prev) (phone prev)
                     (address prev) (city prev) (postalCode prev) value
  end.

(** The form after the inputs fired [edits], oldest first. *)
Definition typed (edits : list (Field * string)) (info : ShippingInfo)
  : ShippingInfo :=
  fold_left (fun prev e => handleInputChange (fst e) (snd e) prev) edits info.

(** The value last given to [f] by [edits], when there is one. *)
Fixpoint last_edit (f : Field) (edits : list (Field * string)) : option string :=
  match edits with
  | [] => None
  | (g, v) :: rest =>
      match last_edit f rest with
      | Some v' => Some v'
      | None => if Field_eq_dec g f then Some v else None
      end
  end.

(** What the input of [f] shows after [edits]. *)
Definition shown (edits : list (Field * string)) (info : ShippingInfo)
    (f : Field) : string :=
  match last_edit f edits with
  | Some v => v
  | None => get info f
  end.

(** [w] with one more toast. *)
Definition with_toast (w : World) (t : Toast) : World :=
  mkWorld (backend w) (script w) (trace w) (intents w) (console w)
          (toasts w ++ [t]) (cart w) (currentStep w) (clientSecret w)
          (loading w) (route w).

Definition bob : User := mkUser "u1" "bob@example.org" "Bob" "bob".

Definition bobs_edits : list (Field * string) :=
  [(FirstName, "Bob"); (LastName, "Ross"); (Phone, "555"); (City, "Baku");
   (Address, "1 Main St"); (PostalCode, "AZ1000"); (City, "Ganja")].

End CheckoutForm.

(** ** More of the catalog grid: the initial fetch and event sequences *)

Module GridMore.

Import ProductGrid.

(** The transformation of the fallback branch of [fetchProducts]: as
    [transformRecord], but [sale_price] is taken as it is. *)
Definition transformFallback (r : PocketBaseProduct) : Product :=
  let p := data (transformRecord r) in
  mkProduct
    (mkProductData (id p) (name p) (description p) (short_description p)
       (price p) (rec_sale_price r) (originalPrice p) (weight p) (images p)
       (image p) (hover_image p) (stock p))
    None.

(** [fetchProducts]: the products it sets.  [filtered] is the answer of the
    record store to the query with the filter [hidden != true], [unfiltered]
    its answer to the query without a filter; [None] is a rejected
    request.  The second query is made only when the first is rejected. *)
Definition fetchProducts (filtered unfiltered : option (list PocketBaseProduct))
  : list Product :=
  match filtered with
  | Some records => map transformRecord records
  | None =>
      match unfiltered with
      | Some recordsWithoutFilter =>
          let visibleProducts :=
            filter (fun r => negb (hidden r)) recordsWithoutFilter in
          map transformFallback visibleProducts
      | None => []
      end
  end.

(** The list after a sequence of events, oldest first. *)
Definition replay (events : list Event) (prev : list Product) : list Product :=
  fold_left (fun products e => on_event e products) events prev.

(** The entries of the list for product id [X]. *)
Definition entries_of (X : string) (products : list Product) : list Product :=
  filter (fun p => id (data p) =? X)%string products.

(** A visible record for a listed product. *)
Definition transformed_back (p : Product) : PocketBaseProduct :=
  mkRecord (id (data p)) (name (data p)) (description (data p))
           (short_description (data p)) (price (data p)) (sale_price (data p))
           (weight (data p)) true None [] (hover_image (data p))
           "2024-01-01" "2024-01-01" None None.

End GridMore.

(** ** A program logic for the checkout handlers *)

Module CheckoutLogic.

Import Checkout.

(** [hoare P m Q E]: run from a world that satisfies [P], [m] ends in a
    world that satisfies [Q a] when it returns [a] and [E e] when it
    rejects with [e]. *)
Definition hoare {A} (P : World -> Prop) (m : M A)
    (Q : A -> World -> Prop) (E : string -> World -> Prop) : Prop :=
  forall w, P w ->
    match m w with
    | (Val a, w') => Q a w'
    | (Throw e, w') => E e w'
    end.

(** A handler piece that keeps [I] whether it returns or rejects. *)
Definition keeps {A} (I : World -> Prop) (m : M A) : Prop :=
  hoare I m (fun _ => I) (fun _ => I).

(** A handler piece that keeps [I] and never rejects. *)
Definition keeps_safely {A} (I : World -> Prop) (m : M A) : Prop :=
  hoare I m (fun _ => I) (fun _ _ => False).

(** The stock of a row is not negative. *)
Definition nonneg_row (r : ProductRow) : Prop :=
  match row_stock r with
  | Some s => 0 <= s
  | None => True
  end.

(** The product rows carry the ids [ids], in that order, and no negative
    stock. *)
Definition rows_sound (ids : list string) (w : World) : Prop :=
  map row_id (products (backend w)) = ids /\
  Forall nonneg_row (products (backend w)).

(** The [in_stock] flags of the rows are [flags]. *)
Definition flags_are (flags : list bool) (w : World) : Prop :=
  map row_in_stock (products (backend w)) = flags.

(** Every row is one of [rows], or carries a flag in step with its stock. *)
Definition flag_in_step (r : ProductRow) : Prop :=
  exists n, row_stock r = Some n /\ row_in_stock r = (n >? 0).

Definition flags_in_step (rows : list ProductRow) (w : World) : Prop :=
  Forall (fun r => In r rows \/ flag_in_step r) (products (backend w)).

(** The cart, the route and the toasts are those of [w0]. *)
Definition ui_as (w0 w : World) : Prop :=
  cart w = cart w0 /\ route w = route w0 /\ toasts w = toasts w0.

(** Nothing was written and nothing shown since [w0]. *)
Definition untouched (w0 w : World) : Prop :=
  backend w = backend w0 /\ ui_as w0 w.

(** Since [w0] exactly one order was stored, with data [d]. *)
Definition order_added (w0 : World) (d : OrderData) (w : World) : Prop :=
  orders (backend w)
  = orders (backend w0) ++ [mkOrderRecord (List.length (orders (backend w0))) d].

Definition ordered (w0 : World) (d : OrderData) (w : World) : Prop :=
  order_added w0 d w /\ ui_as w0 w.

Definition ordered_stock_kept (w0 : World) (d : OrderData) (w : World) : Prop :=
  ordered w0 d w /\ products (backend w) = products (backend w0).

(** The handler ended well: the order is stored, the cart is empty, the
    confirmation is shown, one success toast was added. *)
Definition ended_well (w0 : World) (d : OrderData) (w : World) : Prop :=
  order_added w0 d w /\
  cart w = [] /\ route w = Some "/order-confirmation" /\
  exists msg, toasts w = toasts w0 ++ [ToastSuccess msg].

(** The success toast of the direct path is out; the cart is not cleared
    yet. *)
Definition mailed (w0 : World) (d : OrderData) (w : World) : Prop :=
  order_added w0 d w /\
  cart w = cart w0 /\ route w = route w0 /\
  exists msg, toasts w = toasts w0 ++ [ToastSuccess msg].

(** The handler gave up: one error toast was added, the cart and the route
    are those of [w0]. *)
Definition gave_up (w0 w : World) : Prop :=
  cart w = cart w0 /\ route w = route w0 /\
  exists msg, toasts w = toasts w0 ++ [ToastError msg].

(** No stock was written and nothing shown since [w0]. *)
Definition stock_and_ui_kept (w0 w : World) : Prop :=
  products (backend w) = products (backend w0) /\ ui_as w0 w.






(** What the prologue of the finalize handlers can find, whether its
    request is served or not. *)
Definition possible_identity (isOAuthUser : option User -> bool)
    (user : option User) (ident : option string * bool) : Prop :=
  match user with
  | Some u =>
      if truthy_str (user_id u) then
        if isOAuthUser user
        then ident = (Some (user_id u), true) \/ ident = (None, true)
        else ident = (Some (user_id u), false)
      else ident = (None, false)
  | None => ident = (None, false)
  end.

Definition orders_kept (w0 w : World) : Prop :=
  orders (backend w) = orders (backend w0).

(** The orders are those of [w0], or those and one order whose data
    satisfies [P]. *)
Definition at_most_one_order (w0 : World) (P : OrderData -> Prop) (w : World)
  : Prop :=
  orders (backend w) = orders (backend w0) \/
  exists d, P d /\ order_added w0 d w.

(** The contact data of an order for [user]: a guest order has no user and
    carries the contact fields of the form; the order of a signed-in user
    that is not an OAuth user references the user and carries no guest
    field; the order of an OAuth user carries the account's email and the
    name and phone of the form. *)
Definition contact_data_of (isOAuthUser : option User -> bool)
    (user : option User) (shippingInfo : ShippingInfo) (d : OrderData) : Prop :=
  let full_name :=
    (firstName shippingInfo ++ " " ++ lastName shippingInfo)%string in
  shipping_address d = shippingInfo /\
  match user with
  | None =>
      order_user d = None /\
      guest_email d = Some (email shippingInfo) /\
      guest_name d = Some full_name /\
      guest_phone d = Some (phone shippingInfo)
  | Some u =>
      if truthy_str (user_id u) && isOAuthUser user then
        (order_user d = Some (user_id u) \/ order_user d = None) /\
        guest_email d = Some (user_email u) /\
        guest_name d = Some full_name /\
        guest_phone d = Some (phone shippingInfo)
      else
        order_user d = (if truthy_str (user_id u) then Some (user_id u) else None) /\
        guest_email d = None /\ guest_name d = None /\ guest_phone d = None
  end.

(** A property of the world that only looks at the record store. *)
Definition about_backend (I : World -> Prop) : Prop :=
  forall w w', backend w' = backend w -> I w -> I w'.

(** A handler piece that leaves the record store as it is. *)
Definition backend_kept {A} (m : M A) : Prop :=
  forall w, backend (snd (m w)) = backend w.

End CheckoutLogic.

(** ** The checkout page: what its controls invoke

    The handlers of [Checkout.tsx] are reached through the controls the
    page renders.  The shipping form is the only caller of
    [handleShippingSubmit] (its [onSubmit]) and the payment form the only
    caller of [handlePaymentSuccess] (its [onSuccess]);
    [handleOrderCreation] is defined by the component and invoked by no
    control.  The form has no [noValidate] attribute, so the browser checks
    the constraints of its inputs before it dispatches the submit event. *)

Module CheckoutPage.

Import CartContext Checkout CheckoutForm.

(** The state of the page: the shipping form, the input on which the
    browser last reported a constraint violation, and the world of the
    handlers. *)
Record Page := mkPage {
  shippingInfo : ShippingInfo;
  reported : option Field;
  world : World
}.

(** What the shopper and the payment form can do on the page. *)
Inductive PageEvent :=
| InputChanged (field : Field) (value : string)
| SubmitPressed
| BackToShippingPressed
| PaymentSucceeded
| PaymentFailed (error : string)
| BackToCartPressed
| ContinueShoppingPressed.

Definition at_shipping (w : World) : bool :=
  match currentStep w with
  | shipping_step => true
  | payment => false
  end.

(** The component is mounted until a handler navigates away. *)
Definition mounted (p : Page) : bool :=
  match route (world p) with
  | None => true
  | Some _ => false
  end.

(** [if (cart.length === 0) return ...]: with an empty cart the page shows
    the button to continue shopping and nothing else. *)
Definition cart_is_empty (p : Page) : bool :=
  match cart (world p) with
  | [] => true
  | _ :: _ => false
  end.

(** [{currentStep === 'shipping' && ...}] *)
Definition shipping_form_shown (p : Page) : bool :=
  mounted p && negb (cart_is_empty p) && at_shipping (world p).

(** [{currentStep === 'payment' && clientSecret && ...}] *)
Definition payment_form_shown (p : Page) : bool :=
  mounted p && negb (cart_is_empty p) && negb (at_shipping (world p)) &&
  truthy_str (clientSecret (world p)).

Section Page.

Variable isOAuthUser : option User -> bool.
Variable user : option User.
Variable issued_secret : string.

(** The browser's check of a non-empty value of an input of type email. *)
Variable valid_email : string -> bool.

(** Constraint validation of one input: every input of the form carries
    [required]; the email input is of type email. *)
Definition violates (info : ShippingInfo) (f : Field) : bool :=
  negb (truthy_str (get info f)) ||
  match f with
  | Email => negb (valid_email (get info f))
  | _ => false
  end.

(** The first input, in document order, that violates a constraint. *)
Definition first_invalid (info : ShippingInfo) : option Field :=
  find (violates info) marked_required.

Definition with_world (p : Page) (w : World) : Page :=
  mkPage (shippingInfo p) None w.

(** One event.  An event of a control that is not rendered, or of the
    submit button while it is disabled, does not occur: the page stays as it
    is. *)
Definition page_step (e : PageEvent) (p : Page) : Page :=
  match e with
  | InputChanged field value =>
      if shipping_form_shown p
      then mkPage (handleInputChange field value (shippingInfo p)) None (world p)
      else p
  | SubmitPressed =>
      if shipping_form_shown p && negb (loading (world p)) then
        match first_invalid (shippingInfo p) with
        | Some f => mkPage (shippingInfo p) (Some f) (world p)
        | None =>
            with_world p
              (exec (handleShippingSubmit issued_secret (shippingInfo p))
                    (world p))
        end
      else p
  | BackToShippingPressed =>
      if payment_form_shown p
      then with_world p (exec (setCurrentStep shipping_step) (world p))
      else p
  | PaymentSucceeded =>
      if payment_form_shown p
      then with_world p
             (exec (handlePaymentSuccess isOAuthUser user (shippingInfo p))
                   (world p))
      else p
  | PaymentFailed error =>
      if payment_form_shown p
      then with_world p (exec (toast_error error) (world p))
      else p
  | BackToCartPressed =>
      if mounted p && negb (cart_is_empty p)
      then with_world p (exec (navigate "-1") (world p))
      else p
  | ContinueShoppingPressed =>
      if mounted p && cart_is_empty p
      then with_world p (exec (navigate "/") (world p))
      else p
  end.

End Page.

(** Sample pages: a guest with one unit of oolong in the cart, on the
    shipping form with every field filled in except the country, and on the
    payment form. *)
Definition any_email (value : string) : bool := true.

Definition at_the_form : Page :=
  mkPage CheckoutSpec.alice_no_country None CheckoutSpec.all_served.


End CheckoutPage.

(** ** What the finalize handlers tell the shopper *)

Module CheckoutReports.

Import Checkout CheckoutSpec.

(** A failed request of the order-item phase, and of the stock phase. *)
Definition item_write_failed (x : Call * Outcome) : bool :=
  match x with
  | (CreateOrderItem _, o) => failed o
  | _ => false
  end.

Definition stock_write_failed (x : Call * Outcome) : bool :=
  match x with
  | (GetProduct _, o) => failed o
  | (UpdateProduct _, o) => failed o
  | _ => false
  end.

Definition is_success_toast (t : Toast) : bool :=
  match t with
  | ToastSuccess _ => true
  | ToastError _ => false
  end.

(** What a run appended: requests [t], console lines [c], toasts [ts]. *)
Definition logged (w w' : World) (t : list (Call * Outcome))
    (c : list (Level * string)) (ts : list Toast) : Prop :=
  trace w' = trace w ++ t /\
  console w' = console w ++ c /\
  toasts w' = toasts w ++ ts.

(** A report relates what a run appended to the way it ended. *)
Definition Report (A : Type) : Type :=
  list (Call * Outcome) -> list (Level * string) -> list Toast -> Res A -> Prop.

(** [logs R m]: from every world, what [m] appends and the way it ends
    satisfy [R]. *)
Definition logs {A} (R : Report A) (m : M A) : Prop :=
  forall w, exists t c ts,
    logged w (snd (m w)) t c ts /\ R t c ts (fst (m w)).

(** Nothing asked, nothing shown, no rejection. *)
Definition silent {A} : Report A := fun t c ts r =>
  t = [] /\ c = [] /\ ts = [] /\ is_throw r = false.

(** No toast, no rejection, and no request of the three write phases. *)
Definition calm {A} : Report A := fun t c ts r =>
  ts = [] /\ is_throw r = false /\
  existsb order_created t = false /\
  existsb item_write_failed t = false /\
  existsb stock_write_failed t = false /\
  existsb direct_write_failed t = false.

(** The creation of the order: no toast, and a rejection means that no
    order was created. *)
Definition order_attempt {A} : Report A := fun t c ts r =>
  ts = [] /\
  existsb item_write_failed t = false /\
  existsb stock_write_failed t = false /\
  existsb direct_write_failed t = false /\
  (is_throw r = true -> existsb order_created t = false).

(** A write that is given up quietly: no toast, no rejection, no request
    counted by [quiet], and a [console.error] line when a request counted by
    [bad] failed. *)
Definition careful {A} (bad quiet : Call * Outcome -> bool) : Report A :=
  fun t c ts r =>
    ts = [] /\ is_throw r = false /\
    existsb quiet t = false /\
    (existsb bad t = true -> existsb is_error_line c = true).

(** A write that rejects exactly when its request failed: no toast. *)
Definition strict {A} : Report A := fun t c ts r =>
  ts = [] /\
  existsb stock_write_failed t = false /\
  existsb item_write_failed t = is_throw r.

(** The end of a sequence: one success toast, no failed write. *)
Definition success_shown {A} : Report A := fun t c ts r =>
  is_throw r = false /\
  (exists msg, ts = [ToastSuccess msg]) /\
  existsb item_write_failed t = false /\
  existsb stock_write_failed t = false /\
  existsb direct_write_failed t = false.

(** The [catch] block of a handler: one error toast, no request. *)
Definition error_shown_by_toast {A} (rejects : bool) : Report A :=
  fun t c ts r =>
    t = [] /\ is_throw r = rejects /\ exists msg, ts = [ToastError msg].

(** The payment-success path once the order is created. *)
Definition paid_after_report {A} : Report A := fun t c ts r =>
  (is_throw r = true /\ ts = [] /\
   existsb item_write_failed t = true /\
   existsb stock_write_failed t = false) \/
  (is_throw r = false /\
   (exists msg, ts = [ToastSuccess msg]) /\
   existsb item_write_failed t = false /\
   (existsb stock_write_failed t = true -> existsb is_error_line c = true)).

Definition paid_sequence_report {A} : Report A := fun t c ts r =>
  (is_throw r = true /\ ts = [] /\
   (existsb order_created t = false \/
    (existsb item_write_failed t = true /\
     existsb stock_write_failed t = false))) \/
  (is_throw r = false /\
   (exists msg, ts = [ToastSuccess msg]) /\
   existsb item_write_failed t = false /\
   (existsb stock_write_failed t = true -> existsb is_error_line c = true)).

(** [handlePaymentSuccess] as a whole: no order was created; or an order
    item could not be created, no stock request was made and one error toast
    is shown; or every order item was created, one success toast is shown and
    a failed stock request left a [console.error] line. *)
Definition paid_report {A} : Report A := fun t c ts r =>
  existsb order_created t = false \/
  (existsb item_write_failed t = true /\
   existsb stock_write_failed t = false /\
   exists msg, ts = [ToastError msg]) \/
  (existsb item_write_failed t = false /\
   (exists msg, ts = [ToastSuccess msg]) /\
   (existsb stock_write_failed t = true -> existsb is_error_line c = true)).

(** The direct path once the order is created. *)
Definition direct_after_report {A} : Report A := fun t c ts r =>
  is_throw r = false /\
  (exists msg, ts = [ToastSuccess msg]) /\
  (existsb direct_write_failed t = true -> existsb is_error_line c = true).

Definition direct_sequence_report {A} : Report A := fun t c ts r =>
  (is_throw r = true /\ existsb order_created t = false) \/
  (is_throw r = false /\
   (exists msg, ts = [ToastSuccess msg]) /\
   (existsb direct_write_failed t = true -> existsb is_error_line c = true)).

(** [handleOrderCreation] as a whole: no order was created; or one success
    toast is shown, and a failed write of the later phases left a
    [console.error] line. *)
Definition direct_report {A} : Report A := fun t c ts r =>
  existsb order_created t = false \/
  ((exists msg, ts = [ToastSuccess msg]) /\
   (existsb direct_write_failed t = true -> existsb is_error_line c = true)).

(** A guest pays for one unit of oolong; the order and its item are
    stored, then the stock request fails. *)
Definition stock_outage : World := start [Ok; Ok; NetError] [oolong].

(** The same, the order-item request failing. *)
Definition item_outage : World := start [Ok; NetError] [oolong].

End CheckoutReports.

(** * [utils/oauth-helpers] and [utils/image-converter]

    Strings are read as sequences of code units below 256; the character
    classes of the regular expressions are those of ASCII, as in
    JavaScript. *)

Module StringOps.

Import Ascii.

Definition is_digit (c : ascii) : bool :=
  let n := nat_of_ascii c in ((48 <=? n) && (n <=? 57))%nat.

Definition is_upper (c : ascii) : bool :=
  let n := nat_of_ascii c in ((65 <=? n) && (n <=? 90))%nat.

Definition is_lower (c : ascii) : bool :=
  let n := nat_of_ascii c in ((97 <=? n) && (n <=? 122))%nat.

(** [[a-zA-Z0-9]] *)
Definition is_alnum (c : ascii) : bool := is_lower c || is_upper c || is_digit c.

(** The white space [trim] removes, among the code units below 256. *)
Definition is_space (c : ascii) : bool :=
  let n := nat_of_ascii c in
  (((9 <=? n) && (n <=? 13)) || (n =? 32) || (n =? 160))%nat.

(** [s.replace(/[...]/g, r)] for a class of single characters. *)
Fixpoint replace_class (cls : ascii -> bool) (r : ascii) (s : string) : string :=
  match s with
  | EmptyString => EmptyString
  | String c rest =>
      String (if cls c then r else c) (replace_class cls r rest)
  end.

(** [s.startsWith(p)] *)
Definition startsWith (s p : string) : bool := String.prefix p s.

Fixpoint drop (n : nat) (s : string) : string :=
  match n, s with
  | O, _ => s
  | S n', String _ rest => drop n' rest
  | S _, EmptyString => EmptyString
  end.

(** [s.replace(pat, rep)] with a string pattern: the first occurrence. *)
Fixpoint replace_first (pat rep s : string) : string :=
  if String.prefix pat s then (rep ++ drop (String.length pat) s)%string
  else match s with
       | EmptyString => EmptyString
       | String c rest => String c (replace_first pat rep rest)
       end.

(** [s.includes(p)] *)
Fixpoint includes (s p : string) : bool :=
  String.prefix p s ||
  match s with
  | EmptyString => false
  | String _ rest => includes rest p
  end.

(** [s.split('@')[0]] *)
Fixpoint before_at (s : string) : string :=
  match s with
  | EmptyString => EmptyString
  | String c rest =>
      if Ascii.eqb c "@" then EmptyString else String c (before_at rest)
  end.

(** [/\d{10,}/.test(s)], having just read [run] digits in a row. *)
Fixpoint digit_run (run : nat) (s : string) : bool :=
  (10 <=? run)%nat ||
  match s with
  | EmptyString => false
  | String c rest =>
      if is_digit c then digit_run (S run) rest else digit_run 0 rest
  end.

Definition hasTimestamp (s : string) : bool := digit_run 0 s.

(** [/\d+$/.test(s)] *)
Fixpoint ends_with_digit (s : string) : bool :=
  match s with
  | EmptyString => false
  | String c EmptyString => is_digit c
  | String _ rest => ends_with_digit rest
  end.

(** [s.trim().length > 0] *)
Fixpoint has_visible (s : string) : bool :=
  match s with
  | EmptyString => false
  | String c rest => negb (is_space c) || has_visible rest
  end.

Fixpoint has_digit (s : string) : bool :=
  match s with
  | EmptyString => false
  | String c rest => is_digit c || has_digit rest
  end.

Fixpoint all_chars (p : ascii -> bool) (s : string) : bool :=
  match s with
  | EmptyString => true
  | String c rest => p c && all_chars p rest
  end.

End StringOps.

Module OAuthHelpers.

Import Ascii StringOps Checkout.

Definition generateOAuthUserId (email : string) : string :=
  ("oauth-" ++ replace_class (fun c => negb (is_alnum c)) "_" email)%string.

Definition extractEmailFromOAuthId (oauthId : string) : string :=
  if negb (startsWith oauthId "oauth-") then EmptyString
  else
    let emailPart := replace_first "oauth-" EmptyString oauthId in
    replace_class (fun c => Ascii.eqb c "_") "." emailPart.

Definition isOAuthUserId (userId : string) : bool :=
  startsWith userId "oauth-" || startsWith userId "temp-" ||
  startsWith userId "google-".

(** [isOAuthUser]: the result as the callers test it, by truthiness. *)
Definition isOAuthUser (user : option User) : bool :=
  match user with
  | None => false
  | Some u =>
      if truthy_str (user_id u) &&
         (startsWith (user_id u) "oauth-" || startsWith (user_id u) "temp-" ||
          startsWith (user_id u) "google-")
      then true
      else
        let by_username_pattern :=
          truthy_str (username u) && truthy_str (user_email u) &&
          (let emailPart :=
             replace_class (fun c => negb (is_alnum c)) "-"
                           (before_at (user_email u)) in
           let usernameStartsWithEmail := startsWith (username u) emailPart in
           let hasTimestamp := hasTimestamp (username u) in
           usernameStartsWithEmail && hasTimestamp) in
        if by_username_pattern then true
        else
          let hasAutoGenUsername :=
            truthy_str (username u) && includes (username u) "-" &&
            ends_with_digit (username u) in
          let hasName := truthy_str (user_name u) && has_visible (user_name u) in
          let hasEmail :=
            truthy_str (user_email u) && includes (user_email u) "@" in
          hasAutoGenUsername && hasName && hasEmail
  end.

(** The address with each character that is neither a letter nor a digit
    replaced by a dot. *)
Definition dotted (email : string) : string :=
  replace_class (fun c => negb (is_alnum c)) "." email.

(** A user created through the OAuth sign-in, and one who registered with
    a password. *)
Definition nariman : User :=
  mkUser "abc123" "nariman.works@example.org" "Nariman"
         "nariman-works-175629260159".

Definition carol : User := mkUser "u7" "carol@example.org" "Carol" "carol".

End OAuthHelpers.

Module ImageConverter.

Import StringOps.

Definition isBase64Image (str : string) : bool := startsWith str "data:image/".

Definition default_image : string :=
  "https://images.unsplash.com/photo-1558618666-fcd25c85cd64?w=400&h=400&fit=crop".

Definition getImageUrl (imageData : string) (fallbackUrl : option string)
  : string :=
  if isBase64Image imageData then imageData
  else if startsWith imageData "http://" || startsWith imageData "https://"
  then imageData
  else match fallbackUrl with
       | Some url => if truthy_str url then url else default_image
       | None => default_image
       end.

(** What [getImageUrl] takes for an image by itself. *)
Definition usable (s : string) : bool :=
  isBase64Image s || startsWith s "http://" || startsWith s "https://".

End ImageConverter.

(** * Properties of the cart container *)

Module CartFacts.

Import CartContext CartSpec.

Lemma Qltb_lt (a b : Q) : Qltb a b = true <-> (a < b)%Q.
Proof. unfold Qltb, Qlt. apply Z.ltb_lt. Qed.

Lemma Qltb_ge (a b : Q) : Qltb a b = false <-> (b <= a)%Q.
Proof. unfold Qltb, Qle. apply Z.ltb_ge. Qed.

Lemma positive_is_truthy (s : Q) : (0 < s)%Q -> truthy_num (Some s) = true.
Proof.
  intros Hs. simpl. destruct (Qeq_bool s 0) eqn:E; [|reflexivity].
  apply Qeq_bool_eq in E. rewrite E in Hs. elim (Qlt_irrefl 0 Hs).
Qed.



(** *** Adding one product repeatedly *)

Lemma add_times_below (P : Product) (S : nat) :
  stock (data P) = Some (Z.of_nat S) ->
  forall k, (k <= S)%nat ->
    add_times k P [] =
    match k with
    | O => []
    | _ => [mkCartItem (data P) (Z.of_nat k)]
    end.
Proof.
  intros Hstock k. induction k as [|k IH]; intros Hk; [reflexivity|].
  cbn [add_times]. rewrite IH by lia.
  unfold addToCart, find_item. destruct k as [|k'].
  - cbn [find]. rewrite Hstock.
    destruct (Z.leb_spec (Z.of_nat S) 0) as [Hle|_]; [lia|reflexivity].
  - cbn [find details]. rewrite String.eqb_refl, Hstock. cbn [quantity].
    rewrite Z.geb_leb.
    destruct (Z.leb_spec (Z.of_nat S) (Z.of_nat (Datatypes.S k'))) as [Hle|_];
      [lia|].
    cbn [map fst details]. rewrite String.eqb_refl.
    unfold with_quantity. cbn [details quantity].
    do 2 f_equal. lia.
Qed.

Lemma add_at_limit (P : Product) (S : nat) :
  stock (data P) = Some (Z.of_nat S) ->
  exists warning,
    addToCart P (add_times S P []) = (add_times S P [], [warning]).
Proof.
  intros Hstock. rewrite (add_times_below P S Hstock S) by lia.
  unfold addToCart, find_item. destruct S as [|S'].
  - cbn [find]. rewrite Hstock. cbn. eauto.
  - cbn [find details]. rewrite String.eqb_refl, Hstock. cbn [quantity].
    rewrite Z.geb_leb, Z.leb_refl. eauto.
Qed.

(** C6. For a product [P] with known stock [S], starting from the empty
    cart: each of the first [S] calls of [addToCart P] adds one unit without
    a warning, the call after them changes nothing and emits one warning,
    and after [S+1] calls the cart holds exactly [S] units of [P]. *)
Theorem addToCart_stops_at_stock (P : Product) (S : nat) :
  stock (data P) = Some (Z.of_nat S) ->
  (forall k, (k < S)%nat ->
     getItemQuantity (id (data P)) (add_times k P []) = Z.of_nat k /\
     addToCart P (add_times k P []) =
       ([mkCartItem (data P) (Z.of_nat k + 1)], [])) /\
  (exists warning,
     addToCart P (add_times S P []) = (add_times S P [], [warning])) /\
  getItemQuantity (id (data P)) (add_times (S + 1) P []) = Z.of_nat S /\
  getTotalItems (add_times (S + 1) P []) = Z.of_nat S.
Proof.
  intros Hstock.
  assert (Hqty : forall k, (k <= S)%nat ->
            getItemQuantity (id (data P)) (add_times k P []) = Z.of_nat k /\
            getTotalItems (add_times k P []) = Z.of_nat k).
  { intros k Hk. rewrite (add_times_below P S Hstock k Hk).
    destruct k as [|k']; [split; reflexivity|].
    unfold getItemQuantity, getTotalItems, find_item.
    cbn [find details fold_left]. rewrite String.eqb_refl.
    split; reflexivity. }
  assert (Hlast : add_times (S + 1) P [] = add_times S P []).
  { rewrite Nat.add_1_r. cbn [add_times].
    destruct (add_at_limit P S Hstock) as [warning ->]. reflexivity. }
  split; [|split; [|split]].
  - intros k Hk. split; [apply Hqty; lia|].
    pose proof (add_times_below P S Hstock (Datatypes.S k) Hk) as Hnext.
    cbn [add_times] in Hnext.
    destruct (addToCart P (add_times k P [])) as [c ws] eqn:E.
    cbn [fst] in Hnext. subst c.
    replace (Z.of_nat k + 1) with (Z.of_nat (Datatypes.S k)) by lia.
    f_equal.
    revert E. rewrite (add_times_below P S Hstock k) by lia.
    unfold addToCart, find_item. destruct k as [|k'].
    + cbn [find]. rewrite Hstock.
      destruct (Z.leb_spec (Z.of_nat S) 0); [lia|]. intros E; congruence.
    + cbn [find details]. rewrite String.eqb_refl, Hstock. cbn [quantity].
      rewrite Z.geb_leb.
      destruct (Z.leb_spec (Z.of_nat S) (Z.of_nat (Datatypes.S k'))); [lia|].
      intros E; congruence.
  - apply add_at_limit, Hstock.
  - rewrite Hlast. apply Hqty; lia.
  - rewrite Hlast. apply Hqty; lia.
Qed.

Lemma addToCart_stops_at_stock_witness :
  getItemQuantity "sencha" (add_times 4 (mkProduct sencha None) []) = 3 /\
  getTotalItems (add_times 4 (mkProduct sencha None) []) = 3.
Proof.
  exact (proj2 (proj2
           (addToCart_stops_at_stock (mkProduct sencha None) 3 eq_refl))).
Defined.

(** *** Setting a quantity *)

Lemma updateQuantity_positive (X : string) (q : Z) (cart : Cart) :
  0 < q ->
  fst (updateQuantity X q cart) = map (fun item => fst (set_quantity X q item)) cart.
Proof.
  intros Hq. unfold updateQuantity.
  destruct (Z.leb_spec q 0) as [Hle|_]; [lia|].
  cbn [fst]. now rewrite map_map.
Qed.

Lemma set_quantity_other (X : string) (q : Z) (item : CartItem) :
  entry_id item <> X -> set_quantity X q item = (item, []).
Proof.
  intros Hne. unfold set_quantity. unfold entry_id in Hne.
  now rewrite (proj2 (String.eqb_neq _ _) Hne).
Qed.

Lemma updateQuantity_absent (X : string) (q : Z) (cart : Cart) :
  0 < q -> ~ In X (map entry_id cart) -> updateQuantity X q cart = (cart, []).
Proof.
  intros Hq Habs. unfold updateQuantity.
  destruct (Z.leb_spec q 0) as [Hle|_]; [lia|].
  induction cart as [|item rest IH]; [reflexivity|].
  cbn [map] in *. rewrite set_quantity_other by (intros E; apply Habs; now left).
  cbn [fst snd List.concat app].
  assert (Hrest : ~ In X (map entry_id rest)) by (intros H; apply Habs; now right).
  specialize (IH Hrest). injection IH as IH1 IH2. now rewrite IH1, IH2.
Qed.

Lemma removeFromCart_no_entry (X : string) (cart : Cart) :
  ~ In X (map entry_id (removeFromCart X cart)).
Proof.
  unfold removeFromCart. rewrite in_map_iff. intros [item [Hid Hin]].
  apply filter_In in Hin. destruct Hin as [_ Hkeep].
  unfold entry_id in Hid. rewrite Hid, String.eqb_refl in Hkeep. discriminate.
Qed.

(** C7. In a cart with an entry [e] for product id [X] whose stock [S] is
    known, [updateQuantity X q] removes the entry when [q <= 0], sets its
    quantity to [q] when [0 < q <= S] and to [S] when [q > S]; for an id
    that is not in the cart and [q > 0] the cart is unchanged. *)
Theorem updateQuantity_cases (cart : Cart) (X : string) (q : Z) :
  (forall i e S,
      nth_error cart i = Some e -> entry_id e = X ->
      stock (details e) = Some S ->
      (q <= 0 ->
         ~ In X (map entry_id (fst (updateQuantity X q cart))) /\
         snd (updateQuantity X q cart) = []) /\
      (0 < q <= S ->
         nth_error (fst (updateQuantity X q cart)) i =
           Some (mkCartItem (details e) q)) /\
      (0 <= S < q ->
         nth_error (fst (updateQuantity X q cart)) i =
           Some (mkCartItem (details e) S))) /\
  (0 < q -> ~ In X (map entry_id cart) -> updateQuantity X q cart = (cart, [])).
Proof.
  split; [|apply updateQuantity_absent].
  intros i e S Hnth Hid Hstock. split; [|split].
  - intros Hq. unfold updateQuantity.
    destruct (Z.leb_spec q 0) as [_|Hgt]; [|lia].
    split; [apply removeFromCart_no_entry|reflexivity].
  - intros [Hq HS]. rewrite updateQuantity_positive by assumption.
    rewrite nth_error_map, Hnth. cbn [option_map]. f_equal.
    unfold set_quantity. unfold entry_id in Hid.
    rewrite Hid, String.eqb_refl, Hstock.
    rewrite Z.gtb_ltb. destruct (Z.ltb_spec S q); [lia|reflexivity].
  - intros [HS Hq]. rewrite updateQuantity_positive by lia.
    rewrite nth_error_map, Hnth. cbn [option_map]. f_equal.
    unfold set_quantity. unfold entry_id in Hid.
    rewrite Hid, String.eqb_refl, Hstock.
    rewrite Z.gtb_ltb. destruct (Z.ltb_spec S q); [reflexivity|lia].
Qed.

Lemma updateQuantity_cases_witness :
  nth_error (fst (updateQuantity "sencha" 7 [mkCartItem matcha 1; mkCartItem sencha 2])) 1
  = Some (mkCartItem sencha 3).
Proof.
  refine (proj2 (proj2 (proj1
            (updateQuantity_cases [mkCartItem matcha 1; mkCartItem sencha 2]
               "sencha" 7)
            1%nat (mkCartItem sencha 2) 3 eq_refl eq_refl eq_refl)) _).
  lia.
Defined.

(** Entries of other products keep their place and their content. *)
Lemma updateQuantity_frame (cart : Cart) (X : string) (q : Z) (i : nat)
    (e : CartItem) :
  0 < q -> nth_error cart i = Some e -> entry_id e <> X ->
  nth_error (fst (updateQuantity X q cart)) i = Some e.
Proof.
  intros Hq Hnth Hne. rewrite updateQuantity_positive by assumption.
  rewrite nth_error_map, Hnth. cbn [option_map].
  now rewrite set_quantity_other.
Qed.

(** *** Reconciling with a pushed product record *)

Lemma updateProductInCart_absent (U : Product) (cart : Cart) :
  ~ In (id (data U)) (map entry_id cart) -> updateProductInCart U cart = cart.
Proof.
  intros Habs. unfold updateProductInCart.
  induction cart as [|item rest IH]; [reflexivity|].
  cbn [map] in *.
  destruct (String.eqb_spec (id (details item)) (id (data U))) as [E|_].
  - elim Habs. now left.
  - f_equal. apply IH. intros H. apply Habs. now right.
Qed.

(** C8. Reconciling the cart with a pushed product record [U] turns every
    entry with [U]'s id into [U]'s fields with the entry's own quantity,
    leaves the other entries as they are, creates no entry, and leaves a
    cart without an entry for [U] unchanged. *)
Theorem updateProductInCart_keeps_quantity (cart : Cart) (U : Product) :
  List.length (updateProductInCart U cart) = List.length cart /\
  (forall i e, nth_error cart i = Some e ->
     (entry_id e = id (data U) ->
        nth_error (updateProductInCart U cart) i =
          Some (mkCartItem (data U) (quantity e))) /\
     (entry_id e <> id (data U) ->
        nth_error (updateProductInCart U cart) i = Some e)) /\
  (~ In (id (data U)) (map entry_id cart) -> updateProductInCart U cart = cart).
Proof.
  split; [|split].
  - apply length_map.
  - intros i e Hnth. unfold updateProductInCart.
    rewrite nth_error_map, Hnth. cbn [option_map]. unfold entry_id. split.
    + intros ->. now rewrite String.eqb_refl.
    + intros Hne. now rewrite (proj2 (String.eqb_neq _ _) Hne).
  - apply updateProductInCart_absent.
Qed.

Lemma updateProductInCart_keeps_quantity_witness :
  nth_error
    (updateProductInCart (mkProduct sencha_low (Some 9))
       [mkCartItem matcha 1; mkCartItem sencha 2]) 1
  = Some (mkCartItem sencha_low 2).
Proof.
  exact (proj1 (proj1 (proj2
           (updateProductInCart_keeps_quantity
              [mkCartItem matcha 1; mkCartItem sencha 2]
              (mkProduct sencha_low (Some 9))))
           1%nat (mkCartItem sencha 2) eq_refl) eq_refl).
Defined.

(** *** The stock bound over sequences of operations *)

(** A reconcile that lowers the stock below the quantity in the cart keeps
    the quantity: the reachable cart [overstocked_cart] holds two units of a
    product whose known stock is one. *)
Lemma reconcile_can_exceed_stock :
  reachable overstocked_cart /\ ~ cart_within_stock overstocked_cart.
Proof.
  split.
  - unfold overstocked_cart. do 3 apply reachable_step. apply reachable_empty.
  - intros H. inversion H as [|item rest Hitem _]; subst.
    unfold within_stock in Hitem. cbn in Hitem. lia.
Qed.

Section StockInvariant.

Lemma NoDup_ids_same_entry (cart : Cart) (a b : CartItem) :
  NoDup (map entry_id cart) -> In a cart -> In b cart ->
  entry_id a = entry_id b -> a = b.
Proof.
  induction cart as [|x rest IH]; intros Hnd Ha Hb Hid; [contradiction|].
  cbn [map] in Hnd. inversion Hnd as [|? ? Hnotin Hnd']; subst.
  destruct Ha as [->|Ha], Hb as [->|Hb].
  - reflexivity.
  - elim Hnotin. rewrite Hid. now apply in_map.
  - elim Hnotin. rewrite <- Hid. now apply in_map.
  - now apply IH.
Qed.

Lemma map_preserves_ids (f : CartItem -> CartItem) (cart : Cart) :
  (forall item, entry_id (f item) = entry_id item) ->
  map entry_id (map f cart) = map entry_id cart.
Proof.
  intros Hf. rewrite map_map. apply map_ext. exact Hf.
Qed.

Lemma NoDup_ids_filter (keep : CartItem -> bool) (cart : Cart) :
  NoDup (map entry_id cart) -> NoDup (map entry_id (filter keep cart)).
Proof.
  induction cart as [|x rest IH]; intros Hnd; [exact Hnd|].
  cbn [map] in Hnd. inversion Hnd as [|? ? Hnotin Hnd']; subst.
  cbn [filter]. destruct (keep x); [|now apply IH].
  cbn [map]. constructor; [|now apply IH].
  intros Hin. apply Hnotin. apply in_map_iff in Hin.
  destruct Hin as [y [Hy Hin]]. apply filter_In in Hin.
  apply in_map_iff. exists y. tauto.
Qed.

Lemma find_item_none (X : string) (cart : Cart) :
  find_item X cart = None -> ~ In X (map entry_id cart).
Proof.
  intros Hnone Hin. apply in_map_iff in Hin. destruct Hin as [item [Hid Hin]].
  pose proof (find_none _ _ Hnone item Hin) as Hneq. cbn in Hneq.
  unfold entry_id in Hid. rewrite Hid, String.eqb_refl in Hneq. discriminate.
Qed.

Lemma increment_preserves_id (X : string) (item : CartItem) :
  entry_id
    (if (id (details item) =? X)%string
     then with_quantity item (quantity item + 1) else item) = entry_id item.
Proof. now destruct (id (details item) =? X)%string. Qed.

Lemma set_quantity_preserves_id (X : string) (q : Z) (item : CartItem) :
  entry_id (fst (set_quantity X q item)) = entry_id item.
Proof.
  unfold set_quantity. destruct (id (details item) =? X)%string; [|reflexivity].
  destruct (stock (details item)) as [s|]; [|reflexivity].
  now destruct (q >? s).
Qed.

Lemma set_quantity_within_stock (X : string) (q : Z) (item : CartItem) :
  within_stock item -> within_stock (fst (set_quantity X q item)).
Proof.
  intros Hitem. unfold set_quantity.
  destruct (id (details item) =? X)%string; [|exact Hitem].
  destruct (stock (details item)) as [s|] eqn:Hs.
  - rewrite Z.gtb_ltb. destruct (Z.ltb_spec s q);
      unfold within_stock; cbn [fst with_quantity details quantity];
      rewrite Hs; lia.
  - unfold within_stock. cbn [fst with_quantity details]. now rewrite Hs.
Qed.

Lemma increment_sound (P : Product) (cart : Cart) (existingItem : CartItem) :
  sound cart ->
  agrees_with_cart (AddItem P) cart = true ->
  find_item (id (data P)) cart = Some existingItem ->
  (forall s, stock (data P) = Some s -> quantity existingItem < s) ->
  sound
    (map (fun item =>
            if (id (details item) =? id (data P))%string
            then with_quantity item (quantity item + 1) else item) cart).
Proof.
  intros [Hstock Hnd] Hagree Hfind Hroom. split.
  - apply Forall_forall. intros item' Hin. apply in_map_iff in Hin.
    destruct Hin as [item [<- Hin]].
    pose proof (proj1 (Forall_forall _ _) Hstock item Hin) as Hitem.
    destruct (String.eqb_spec (id (details item)) (id (data P))) as [Hid|_];
      [|exact Hitem].
    apply find_some in Hfind. destruct Hfind as [Hex Hexid].
    apply String.eqb_eq in Hexid.
    assert (item = existingItem) as ->.
    { apply (NoDup_ids_same_entry cart); auto. unfold entry_id. congruence. }
    cbn in Hagree. rewrite forallb_forall in Hagree.
    specialize (Hagree existingItem Hex). cbn in Hagree.
    rewrite Hexid, String.eqb_refl in Hagree.
    unfold within_stock in *. cbn [with_quantity details quantity].
    destruct (stock (details existingItem)) as [s|]; [|exact I].
    destruct (stock (data P)) as [s'|]; [|discriminate].
    apply Z.leb_le in Hagree. specialize (Hroom s' eq_refl). lia.
  - rewrite map_preserves_ids; [exact Hnd|].
    intros item. apply increment_preserves_id.
Qed.

Lemma append_sound (P : Product) (cart : Cart) :
  sound cart ->
  find_item (id (data P)) cart = None ->
  (forall s, stock (data P) = Some s -> 0 < s) ->
  sound (cart ++ [mkCartItem (data P) 1]).
Proof.
  intros [Hstock Hnd] Hfind Hpos. split.
  - apply Forall_app. split; [exact Hstock|].
    constructor; [|constructor]. unfold within_stock. cbn [details quantity].
    destruct (stock (data P)) as [s|]; [|exact I].
    specialize (Hpos s eq_refl). lia.
  - rewrite map_app. cbn [map]. apply NoDup_app.
    + exact Hnd.
    + constructor; [intros []|constructor].
    + intros x Hx [<-|[]]. now apply (find_item_none _ _ Hfind).
Qed.

Lemma addToCart_sound (P : Product) (cart : Cart) :
  sound cart -> agrees_with_cart (AddItem P) cart = true ->
  sound (fst (addToCart P cart)).
Proof.
  intros Hs Hagree. unfold addToCart.
  destruct (find_item (id (data P)) cart) as [existingItem|] eqn:Hfind.
  - destruct (stock (data P)) as [s|] eqn:HP.
    + rewrite Z.geb_leb.
      destruct (Z.leb_spec s (quantity existingItem)) as [_|Hlt]; [exact Hs|].
      apply (increment_sound P cart existingItem); auto.
      rewrite HP. now intros ? [= <-].
    + apply (increment_sound P cart existingItem); auto.
      rewrite HP. discriminate.
  - destruct (stock (data P)) as [s|] eqn:HP.
    + destruct (Z.leb_spec s 0) as [_|Hpos]; [exact Hs|].
      apply append_sound; auto. rewrite HP. now intros ? [= <-].
    + apply append_sound; auto. rewrite HP. discriminate.
Qed.

Lemma updateQuantity_sound (X : string) (q : Z) (cart : Cart) :
  sound cart -> sound (fst (updateQuantity X q cart)).
Proof.
  intros [Hstock Hnd]. unfold updateQuantity.
  destruct (Z.leb_spec q 0) as [_|Hq]; cbn [fst].
  - split.
    + apply Forall_forall. intros item Hin. apply filter_In in Hin.
      now apply (proj1 (Forall_forall _ _) Hstock).
    + now apply NoDup_ids_filter.
  - rewrite map_map. split.
    + apply Forall_forall. intros item' Hin. apply in_map_iff in Hin.
      destruct Hin as [item [<- Hin]]. apply set_quantity_within_stock.
      now apply (proj1 (Forall_forall _ _) Hstock).
    + rewrite map_preserves_ids; [exact Hnd|].
      intros item. apply set_quantity_preserves_id.
Qed.

Lemma updateProductInCart_sound (U : Product) (cart : Cart) :
  sound cart -> agrees_with_cart (Reconcile U) cart = true ->
  sound (updateProductInCart U cart).
Proof.
  intros [Hstock Hnd] Hagree. unfold updateProductInCart.
  cbn in Hagree. rewrite forallb_forall in Hagree. split.
  - apply Forall_forall. intros item' Hin. apply in_map_iff in Hin.
    destruct Hin as [item [<- Hin]]. specialize (Hagree item Hin).
    cbn in Hagree.
    destruct (id (details item) =? id (data U))%string.
    + unfold within_stock. cbn [details quantity].
      destruct (stock (data U)) as [s'|]; [|exact I]. now apply Z.leb_le.
    + now apply (proj1 (Forall_forall _ _) Hstock).
  - rewrite map_preserves_ids; [exact Hnd|]. intros item. unfold entry_id.
    destruct (String.eqb_spec (id (details item)) (id (data U))) as [E|_];
      [now rewrite E|reflexivity].
Qed.

Lemma reachable_agreeing_sound (cart : Cart) :
  reachable_agreeing cart -> sound cart.
Proof.
  induction 1 as [|op cart _ IH Hagree].
  - split; constructor.
  - destruct op as [P|X q|U]; cbn [apply_op].
    + now apply addToCart_sound.
    + now apply updateQuantity_sound.
    + now apply updateProductInCart_sound.
Qed.

End StockInvariant.

(** C1, amended. In every cart reachable from the empty cart by add item,
    update quantity and reconcile, where each add passes a stock that is
    known and not above the stock recorded in the entry of that product, and
    each reconcile passes a stock that is unknown or not below the quantity
    of the entry of that product, every entry whose stock is known has a
    quantity not above that stock. *)
Theorem stock_bound_on_agreeing_operations (cart : Cart) :
  reachable_agreeing cart -> cart_within_stock cart.
Proof. intros H. exact (proj1 (reachable_agreeing_sound cart H)). Qed.

Lemma stock_bound_on_agreeing_operations_witness :
  cart_within_stock capped_cart.
Proof.
  apply (stock_bound_on_agreeing_operations capped_cart).
  unfold capped_cart.
  repeat (apply agreeing_step; [|reflexivity]).
  apply agreeing_empty.
Defined.

End CartFacts.

(** * Properties of the catalog grid *)

Module GridFacts.

Import ProductGrid GridSpec.

Lemma transformRecord_id (r : PocketBaseProduct) :
  id (data (transformRecord r)) = rec_id r.
Proof. reflexivity. Qed.

Lemma removed_not_rendered (X : string) (prev : list Product) :
  ~ In X (rendered_ids
            (filter (fun product => negb (id (data product) =? X)%string) prev)).
Proof.
  unfold rendered_ids. rewrite in_map_iff. intros [p [Hid Hin]].
  apply filter_In in Hin. destruct Hin as [_ Hkeep].
  rewrite Hid, String.eqb_refl in Hkeep. discriminate.
Qed.

Lemma find_by_id_some (X : string) (prev : list Product) :
  In X (rendered_ids prev) ->
  exists p, find (fun p => id (data p) =? X)%string prev = Some p.
Proof.
  unfold rendered_ids. rewrite in_map_iff. intros [p [Hid Hin]].
  destruct (find (fun p => id (data p) =? X)%string prev) as [p'|] eqn:E;
    [now exists p'|].
  pose proof (find_none _ _ E p Hin) as Hneq. cbn in Hneq.
  rewrite Hid, String.eqb_refl in Hneq. discriminate.
Qed.

Lemma find_by_id_none (X : string) (prev : list Product) :
  ~ In X (rendered_ids prev) ->
  find (fun p => id (data p) =? X)%string prev = None.
Proof.
  intros Habs.
  destruct (find (fun p => id (data p) =? X)%string prev) as [p|] eqn:E;
    [|reflexivity].
  apply find_some in E. destruct E as [Hin Hid]. apply String.eqb_eq in Hid.
  elim Habs. unfold rendered_ids. apply in_map_iff. now exists p.
Qed.

(** An update that un-hides a product which is out of stock does not bring
    it back: the stated rule fails on a list that does not show it. *)
Lemma unhidden_out_of_stock_not_rendered :
  ~ stated_update_rule (genmaicha false (Some false)) [hojicha].
Proof.
  intros [_ Hshown]. specialize (Hshown eq_refl). cbn in Hshown.
  destruct Hshown as [H|[]]. discriminate H.
Qed.

(** C3, amended. After an update event for record [r]: if [r] is hidden its
    id is not rendered; if [r] is not hidden and in stock its id is
    rendered, the product being replaced in place where it was listed and
    prepended where it was not; if [r] is hidden or out of stock the list is
    the previous one without the entries of that id. *)
Theorem update_event_rule (r : PocketBaseProduct) (prev : list Product) :
  let next := on_event (mkEvent update r) prev in
  (hidden r = true -> ~ In (rec_id r) (rendered_ids next)) /\
  (hidden r = false -> rec_in_stock r = true ->
     In (rec_id r) (rendered_ids next) /\
     (In (rec_id r) (rendered_ids prev) ->
        List.length next = List.length prev /\
        forall i p, nth_error prev i = Some p ->
          (id (data p) = rec_id r ->
             nth_error next i = Some (transformRecord r)) /\
          (id (data p) <> rec_id r -> nth_error next i = Some p)) /\
     (~ In (rec_id r) (rendered_ids prev) ->
        next = transformRecord r :: prev)) /\
  (visible r = false ->
     ~ In (rec_id r) (rendered_ids next) /\
     next = filter (fun product => negb (id (data product) =? rec_id r)%string)
                   prev).
Proof.
  cbv zeta. unfold on_event. cbn [action record]. split; [|split].
  - intros Hhid. unfold visible. rewrite Hhid, andb_false_r.
    apply removed_not_rendered.
  - intros Hhid Hstock. unfold visible. rewrite Hhid, Hstock. cbn [andb negb].
    split; [|split].
    + destruct (find _ prev) as [p|] eqn:E.
      * apply find_some in E. destruct E as [Hin Hid].
        unfold rendered_ids. rewrite map_map. apply in_map_iff.
        exists p. split; [|exact Hin]. now rewrite Hid.
      * now left.
    + intros Hin. destruct (find_by_id_some _ _ Hin) as [p0 ->].
      split; [apply length_map|].
      intros i p Hnth. rewrite nth_error_map, Hnth. cbn [option_map]. split.
      * intros ->. now rewrite String.eqb_refl.
      * intros Hne. now rewrite (proj2 (String.eqb_neq _ _) Hne).
    + intros Habs. now rewrite (find_by_id_none _ _ Habs).
  - intros Hvis. rewrite Hvis. split; [apply removed_not_rendered|reflexivity].
Qed.

Lemma update_event_rule_witness :
  In "genmaicha"
     (rendered_ids (on_event (mkEvent update (genmaicha true (Some false)))
                             [hojicha])).
Proof.
  exact (proj1 (proj1 (proj2
           (update_event_rule (genmaicha true (Some false)) [hojicha]))
           eq_refl eq_refl)).
Defined.

End GridFacts.

(** * Properties of the checkout sequencer *)

Module CheckoutFacts.

Import CartContext CartSpec Checkout CheckoutSpec.

Local Open Scope handler_scope.

(** *** Histories *)

Lemma skipn_length_app {A} (l t : list A) : skipn (List.length l) (l ++ t) = t.
Proof. induction l as [|x l IH]; [reflexivity|exact IH]. Qed.

Lemma history_trans (w w' w'' : World) t c ts its t' c' ts' its' :
  history w w' t c ts its -> history w' w'' t' c' ts' its' ->
  history w w'' (t ++ t') (c ++ c') (ts ++ ts') (its ++ its').
Proof.
  unfold history. intros (H1 & H2 & H3 & H4) (G1 & G2 & G3 & G4).
  rewrite G1, G2, G3, G4, H1, H2, H3, H4.
  now rewrite !app_assoc.
Qed.

Lemma summary_refl (w : World) : summary w w [] [] [] [].
Proof. unfold summary, history. now rewrite !app_nil_r. Qed.

Lemma summary_trans (w w' w'' : World) t c ts its t' c' ts' its' :
  summary w w' t c ts its -> summary w' w'' t' c' ts' its' ->
  summary w w'' (t ++ t') (c ++ c') (ts ++ ts') (its ++ its').
Proof.
  unfold summary. intros [H1 H2] [G1 G2]. split.
  - eapply history_trans; eauto.
  - congruence.
Qed.

Lemma error_shown_app_l c ts c' ts' :
  error_shown c ts = true -> error_shown (c ++ c') (ts ++ ts') = true.
Proof.
  unfold error_shown. rewrite !existsb_app, !orb_true_iff. tauto.
Qed.

Lemma error_shown_app_r c ts c' ts' :
  error_shown c' ts' = true -> error_shown (c ++ c') (ts ++ ts') = true.
Proof.
  unfold error_shown. rewrite !existsb_app, !orb_true_iff. tauto.
Qed.

(** *** Composition of accounted pieces *)

Section Accounting.

Variable bad : Call * Outcome -> bool.
Variable good : OrderItemData -> Prop.

Lemma accounted_ret {A} (a : A) : accounted bad good (ret a).
Proof.
  intros w. exists [], [], [], []. cbn.
  split; [apply summary_refl|]. repeat split; [constructor|discriminate].
Qed.

Lemma accounted_bind {A B} (m : M A) (k : A -> M B) :
  accounted bad good m -> (forall a, accounted bad good (k a)) ->
  accounted bad good (bind m k).
Proof.
  intros Hm Hk w. destruct (Hm w) as (t & c & ts & its & Hs & Hc & Hg & Hb).
  unfold bind. destruct (m w) as [[a|e] w'] eqn:E; cbn [fst snd] in *.
  - destruct (Hk a w') as (t' & c' & ts' & its' & Hs' & Hc' & Hg' & Hb').
    exists (t ++ t'), (c ++ c'), (ts ++ ts'), (its ++ its').
    split; [eapply summary_trans; eauto|].
    split; [rewrite existsb_app, Hc, Hc'; reflexivity|].
    split; [apply Forall_app; now split|].
    rewrite existsb_app, orb_true_iff. intros [Ht|Ht].
    + destruct (Hb Ht) as [Hshown|Hthrow]; [|discriminate].
      left. now apply error_shown_app_l.
    + destruct (Hb' Ht) as [Hshown|Hthrow]; [|now right].
      left. now apply error_shown_app_r.
  - exists t, c, ts, its. repeat split; try apply Hs; auto.
Qed.

Lemma accounted_for_each {A} (f : A -> M unit) (l : list A) :
  (forall x, In x l -> accounted bad good (f x)) ->
  accounted bad good (for_each f l).
Proof.
  induction l as [|x rest IH]; intros Hf; cbn [for_each].
  - apply accounted_ret.
  - apply accounted_bind; [apply Hf; now left|].
    intros _. apply IH. intros y Hy. apply Hf. now right.
Qed.

(** Settling every promise never rejects; a failed write shows as an error
    message or as a rejected promise. *)
Lemma settle_all_accounted {A B} (f : A -> M B) (l : list A) :
  (forall x, In x l -> accounted bad good (f x)) ->
  forall w, exists t c ts its rs,
    fst (settle_all f l w) = Val rs /\
    summary w (snd (settle_all f l w)) t c ts its /\
    existsb order_created t = false /\
    Forall good its /\
    (existsb bad t = true ->
     error_shown c ts = true \/ is_throw (all_values rs) = true).
Proof.
  induction l as [|x rest IH]; intros Hf w; cbn [settle_all].
  - exists [], [], [], [], []. cbn.
    split; [reflexivity|]. split; [apply summary_refl|].
    repeat split; [constructor|discriminate].
  - destruct (Hf x (or_introl eq_refl) w)
      as (t & c & ts & its & Hs & Hc & Hg & Hb).
    destruct (f x w) as [r w'] eqn:E. cbn [fst snd] in *.
    destruct (IH (fun y Hy => Hf y (or_intror Hy)) w')
      as (t' & c' & ts' & its' & rs & Hr & Hs' & Hc' & Hg' & Hb').
    destruct (settle_all f rest w') as [r' w''] eqn:E'. cbn [fst snd] in *.
    subst r'.
    exists (t ++ t'), (c ++ c'), (ts ++ ts'), (its ++ its'), (r :: rs).
    cbn [fst snd].
    split; [reflexivity|]. split; [eapply summary_trans; eauto|].
    split; [rewrite existsb_app, Hc, Hc'; reflexivity|].
    split; [apply Forall_app; now split|].
    rewrite existsb_app, orb_true_iff. intros [Ht|Ht].
    + destruct (Hb Ht) as [Hshown|Hthrow].
      * left. now apply error_shown_app_l.
      * right. destruct r; [discriminate|reflexivity].
    + destruct (Hb' Ht) as [Hshown|Hthrow].
      * left. now apply error_shown_app_r.
      * right. cbn [all_values]. destruct r; [|reflexivity].
        destruct (all_values rs); [discriminate|reflexivity].
Qed.

Lemma accounted_promise_all {A B} (f : A -> M B) (l : list A) :
  (forall x, In x l -> accounted bad good (f x)) ->
  accounted bad good (promise_all f l).
Proof.
  intros Hf w.
  destruct (settle_all_accounted f l Hf w)
    as (t & c & ts & its & rs & Hr & Hs & Hc & Hg & Hb).
  unfold promise_all, bind.
  destruct (settle_all f l w) as [r w'] eqn:E. cbn [fst snd] in *. subst r.
  exists t, c, ts, its.
  destruct (all_values rs) as [bs|e]; cbn [ret throw fst snd];
    repeat split; try apply Hs; auto.
Qed.

End Accounting.

(** *** The pieces of the finalize sequences, request by request *)

(** Unfold the requests and split on the script and on the rows found. *)
Ltac world_cases :=
  repeat
    (cbv beta iota zeta delta
         [bind ret throw try_catch finally fst snd request next_outcome
          log_call set_script set_backend get_backend get_cart console_print
          console_log console_error toast toast_success toast_error
          insert_order insert_item patch_row has_row
          setCart setCurrentStep setClientSecret setLoading navigate open_intent
          pb_users_getOne pb_orders_create fetch_orders_post
          pb_order_items_create fetch_order_items_post pb_products_getOne
          fetch_products_get pb_products_update fetch_products_patch
          sendOrderConfirmationEmailJS
          backend script trace intents console toasts cart currentStep
          clientSecret loading route orders order_items products];
     match goal with
     | |- context [match ?s with [] => _ | _ :: _ => _ end] =>
         is_var s;
         let o := fresh "o" in let s' := fresh "s" in
         destruct s as [|o s']; [|destruct o]
     | |- context [match find_row ?p ?b with _ => _ end] =>
         destruct (find_row p b)
     end).

(** Read off what a fully split run appended. *)
Ltac appended :=
  unfold summary, history;
  cbv beta iota zeta delta
      [backend script trace intents console toasts cart currentStep
       clientSecret loading route orders order_items products fst snd];
  rewrite <- ?app_assoc; cbn [app];
  repeat split; first [reflexivity | symmetry; apply app_nil_r].

Ltac piece :=
  world_cases;
  do 4 eexists; (split; [appended|]);
  cbn; repeat split; auto.

Section Pieces.

Variable isOAuthUser : option User -> bool.
Variable user : option User.
Variable shippingInfo : ShippingInfo.
Variable good : OrderItemData -> Prop.

Lemma direct_update_stock_accounted (item : CartItem) :
  accounted direct_write_failed good (direct_update_stock item).
Proof.
  intros [b s tr ints con tst crt stp sec ld rt].
  unfold direct_update_stock, direct_stock_patch. piece.
Qed.

Lemma direct_send_email_accounted :
  accounted direct_write_failed good direct_send_email.
Proof.
  intros [b s tr ints con tst crt stp sec ld rt].
  unfold direct_send_email. piece.
Qed.

Lemma paid_update_stock_accounted (item : CartItem) :
  accounted paid_write_failed good (paid_update_stock user item).
Proof.
  intros [b s tr ints con tst crt stp sec ld rt].
  unfold paid_update_stock, paid_stock_patch. destruct user; piece.
Qed.

Lemma identify_accounted bad :
  (forall o, bad (GetUser, o) = false) ->
  accounted bad good (identify isOAuthUser user).
Proof.
  intros Hbad [b s tr ints con tst crt stp sec ld rt]. unfold identify.
  destruct user as [u|]; [destruct (truthy_str (user_id u));
                          [destruct (isOAuthUser (Some u))|]|];
    piece; rewrite Hbad; discriminate.
Qed.

Lemma setCart_accounted bad (c : Cart) : accounted bad good (setCart c).
Proof. intros [b s tr ints con tst crt stp sec ld rt]. piece. Qed.

Lemma navigate_accounted bad (to : string) : accounted bad good (navigate to).
Proof. intros [b s tr ints con tst crt stp sec ld rt]. piece. Qed.

Lemma toast_success_accounted bad (msg : string) :
  accounted bad good (toast_success msg).
Proof. intros [b s tr ints con tst crt stp sec ld rt]. piece. Qed.

End Pieces.

Section Sequences.

Variable isOAuthUser : option User -> bool.
Variable user : option User.
Variable shippingInfo : ShippingInfo.

Lemma direct_create_item_accounted (cart : Cart) (order : OrderRecord)
    (item : CartItem) :
  In item cart ->
  accounted direct_write_failed
    (line_of direct_unit_price (order_id order) cart)
    (direct_create_item order item).
Proof.
  intros Hin [b s tr ints con tst crt stp sec ld rt].
  unfold direct_create_item. piece.
  all: constructor; [exists item; split; [assumption|reflexivity]|constructor].
Qed.

Lemma paid_create_item_accounted (cart : Cart) (order : OrderRecord)
    (item : CartItem) :
  In item cart ->
  accounted paid_write_failed
    (line_of paid_unit_price (order_id order) cart)
    (paid_create_item user order item).
Proof.
  intros Hin [b s tr ints con tst crt stp sec ld rt].
  unfold paid_create_item. destruct user; piece.
  all: constructor; [exists item; split; [assumption|reflexivity]|constructor].
Qed.

Lemma direct_after_order_accounted (cart : Cart) (order : OrderRecord) :
  accounted direct_write_failed
    (line_of direct_unit_price (order_id order) cart)
    (direct_after_order cart order).
Proof.
  unfold direct_after_order.
  apply accounted_bind;
    [apply accounted_for_each; intros item Hin;
     now apply direct_create_item_accounted|intros _].
  apply accounted_bind;
    [apply accounted_for_each; intros item _;
     apply direct_update_stock_accounted|intros _].
  apply accounted_bind; [apply direct_send_email_accounted|intros _].
  apply accounted_bind; [apply setCart_accounted|intros _].
  apply navigate_accounted.
Qed.

Lemma paid_after_order_accounted (cart : Cart) (order : OrderRecord) :
  accounted paid_write_failed
    (line_of paid_unit_price (order_id order) cart)
    (paid_after_order user cart order).
Proof.
  unfold paid_after_order.
  apply accounted_bind;
    [apply accounted_promise_all; intros item Hin;
     now apply paid_create_item_accounted|intros _].
  apply accounted_bind;
    [apply accounted_promise_all; intros item _;
     apply paid_update_stock_accounted|intros _].
  apply accounted_bind; [apply setCart_accounted|intros _].
  apply accounted_bind; [apply toast_success_accounted|intros _].
  apply navigate_accounted.
Qed.

Ltac creation :=
  world_cases;
  do 2 eexists; (split; [appended|]);
  cbn; (split; [reflexivity|]);
  first [left; eexists; repeat split; reflexivity
        |right; repeat split; reflexivity].

Lemma direct_create_order_creates (d : OrderData) :
  creates_order direct_write_failed d (direct_create_order d).
Proof.
  intros [b s tr ints con tst crt stp sec ld rt].
  unfold direct_create_order. creation.
Qed.

Lemma paid_create_order_creates (d : OrderData) :
  creates_order paid_write_failed d (paid_create_order user d).
Proof.
  intros [b s tr ints con tst crt stp sec ld rt].
  unfold paid_create_order. destruct user; creation.
Qed.

Lemma make_orderData_total (actualUserId : option string) (flag : bool)
    (amount : Q) (st : Status) :
  total_price (make_orderData user shippingInfo actualUserId flag amount st)
  = amount.
Proof. unfold make_orderData. destruct user, flag; reflexivity. Qed.

(** A created order stays whatever the later writes do. *)
Lemma sequence_finalized bad unit_price (cart : Cart) (st : Status)
    (create : OrderData -> M OrderRecord)
    (after : Cart -> OrderRecord -> M unit) :
  (forall o, bad (GetUser, o) = false) ->
  (forall d, creates_order bad d (create d)) ->
  (forall order,
      accounted bad (line_of unit_price (order_id order) cart)
        (after cart order)) ->
  finalized bad unit_price cart
    (ident <- identify isOAuthUser user ;;
     order <- create
                (make_orderData user shippingInfo (fst ident) (snd ident)
                   (getTotalPrice cart + shipping (getTotalPrice cart))%Q st) ;;
     after cart order).
Proof.
  intros Hbad Hcreate Hafter w.
  destruct (identify_accounted isOAuthUser user (fun _ => False) bad Hbad w)
    as (t1 & c1 & ts1 & its1 & [Hh1 Ho1] & Hc1 & Hg1 & Hb1).
  assert (its1 = []) as -> by (destruct its1; [reflexivity|now inversion Hg1]).
  unfold bind.
  destruct (identify isOAuthUser user w) as [[ident|e] w1];
    cbn [fst snd] in *.
  2:{ exists t1, c1, ts1, []. split; [exact Hh1|]. left. now repeat split. }
  set (d := make_orderData user shippingInfo (fst ident) (snd ident) _ st).
  destruct (Hcreate d w1) as (t2 & c2 & Hh2 & Hb2 & Hcases).
  destruct (create d w1) as [[order|e] w2]; cbn [fst snd] in *.
  - destruct Hcases as [(o & Ho & Hd & Horders)|(Hthrow & _)];
      [|discriminate].
    injection Ho as <-.
    destruct (Hafter order w2)
      as (t3 & c3 & ts3 & its3 & [Hh3 Ho3] & Hc3 & Hg3 & Hb3).
    exists (t1 ++ t2 ++ t3), (c1 ++ c2 ++ c3), (ts1 ++ [] ++ ts3),
           ([] ++ [] ++ its3).
    split; [eapply history_trans; [exact Hh1|];
            eapply history_trans; eassumption|].
    right. exists order. split; [congruence|].
    split; [rewrite Hd; apply make_orderData_total|].
    split; [exact Hg3|].
    rewrite !existsb_app, Hb2, !orb_true_iff. intros [Ht|[Ht|Ht]].
    + destruct (Hb1 Ht) as [Hshown|Hthrow]; [|discriminate].
      left. now apply error_shown_app_l.
    + discriminate.
    + destruct (Hb3 Ht) as [Hshown|Hthrow]; [|now right].
      left. apply error_shown_app_r.
      now apply (error_shown_app_r c2 []).
  - destruct Hcases as [(o & Ho & _)|(_ & Hnone & Horders)]; [discriminate|].
    exists (t1 ++ t2), (c1 ++ c2), (ts1 ++ []), ([] ++ []).
    split; [eapply history_trans; eassumption|].
    left. split; [now rewrite existsb_app, Hc1, Hnone|].
    split; [reflexivity|congruence].
Qed.

Lemma direct_sequence_finalized (cart : Cart) :
  finalized direct_write_failed direct_unit_price cart
    (direct_sequence isOAuthUser user shippingInfo cart).
Proof.
  apply (sequence_finalized direct_write_failed direct_unit_price cart pending
           direct_create_order direct_after_order).
  - reflexivity.
  - apply direct_create_order_creates.
  - apply direct_after_order_accounted.
Qed.

Lemma paid_sequence_finalized (cart : Cart) :
  finalized paid_write_failed paid_unit_price cart
    (paid_sequence isOAuthUser user shippingInfo cart).
Proof.
  apply (sequence_finalized paid_write_failed paid_unit_price cart paid
           (paid_create_order user) (paid_after_order user)).
  - reflexivity.
  - apply paid_create_order_creates.
  - apply paid_after_order_accounted.
Qed.

End Sequences.

(** *** The two handlers *)

Section HandlerFacts.

Variable isOAuthUser : option User -> bool.
Variable user : option User.
Variable shippingInfo : ShippingInfo.

Ltac handler_cases lemma :=
  let t := fresh "t" in let c := fresh "c" in let ts := fresh "ts" in
  let its := fresh "its" in let Hh := fresh "Hh" in
  let Hcases := fresh "Hcases" in let Hnone := fresh "Hnone" in
  let o := fresh "o" in let Ho := fresh "Ho" in
  let Htotal := fresh "Htotal" in let Hlines := fresh "Hlines" in
  let Hbad := fresh "Hbad" in let Ht := fresh "Ht" in
  let Hits := fresh "Hits" in
  intros [b s tr ints con tst crt stp sec ld rt];
  unfold exec;
  cbv beta iota zeta delta
      [finally try_catch bind setLoading get_cart fst snd
       backend script trace intents console toasts cart currentStep
       clientSecret loading route];
  match goal with
  | |- context [?seq crt ?w0] =>
      destruct (lemma crt w0) as (t & c & ts & its & Hh & Hcases);
      destruct (seq crt w0)
        as [[[]|?] [? ? ? ? ? ? ? ? ? ? ?]]
  end;
  unfold history in Hh; cbn in Hh; destruct Hh as (-> & -> & -> & Hits);
  cbn [fst snd] in Hcases;
  exists t; do 2 eexists; exists its;
  (split;
   [unfold history; cbn; rewrite <- ?app_assoc;
    repeat split; first [reflexivity | assumption]
   |cbn; cbn in Hcases;
    destruct Hcases as [Hnone|(o & Ho & Htotal & Hlines & Hbad)];
    [left; exact Hnone
    |right; exists o; repeat split; auto; intros Ht;
     first [destruct (Hbad Ht) as [?|?]; [assumption|discriminate]
           |unfold error_shown; rewrite !existsb_app; cbn;
            rewrite ?orb_true_r; reflexivity]]]).

Lemma handleOrderCreation_handled :
  handled direct_write_failed direct_unit_price
    (handleOrderCreation isOAuthUser user shippingInfo).
Proof.
  unfold handleOrderCreation.
  handler_cases (direct_sequence_finalized isOAuthUser user shippingInfo).
Qed.

Lemma handlePaymentSuccess_handled :
  handled paid_write_failed paid_unit_price
    (handlePaymentSuccess isOAuthUser user shippingInfo).
Proof.
  unfold handlePaymentSuccess.
  handler_cases (paid_sequence_finalized isOAuthUser user shippingInfo).
Qed.

End HandlerFacts.

(** *** Order items and their unit price *)

Lemma history_since (w w' : World) t c ts its :
  history w w' t c ts its ->
  requests_since w w' = t /\ console_since w w' = c /\
  toasts_since w w' = ts /\ items_since w w' = its.
Proof.
  unfold history, requests_since, console_since, toasts_since, items_since.
  intros (-> & -> & -> & ->). now rewrite !skipn_length_app.
Qed.



(** On the direct path the unit price written is the sale price whenever
    one is set and positive, also when it is not below the price. *)
Lemma direct_unit_price_above_price (item : CartItem) (s : Q) :
  sale_price (details item) = Some s -> (0 < s)%Q ->
  (price (details item) <= s)%Q ->
  direct_unit_price item = s /\ spec_unit_price item = price (details item).
Proof.
  intros Hs Hpos Hge. unfold direct_unit_price, spec_unit_price. rewrite Hs.
  rewrite (CartFacts.positive_is_truthy s Hpos).
  rewrite (proj2 (CartFacts.Qltb_lt 0 s) Hpos). cbn [andb].
  split; [reflexivity|].
  destruct (Qlt_le_dec 0 s) as [_|Hneg]; [|reflexivity].
  destruct (Qlt_le_dec s (price (details item))) as [Hlt|_]; [|reflexivity].
  elim (Qlt_irrefl s). now apply (Qlt_le_trans _ (price (details item))).
Qed.

(** On the direct path every order item written carries the unit price
    [direct_unit_price] of its cart line. *)
Lemma direct_items_at_direct_price isOAuthUser user shippingInfo (w : World)
    (d : OrderItemData) :
  In d (items_since w (exec (handleOrderCreation isOAuthUser user shippingInfo) w)) ->
  exists item, In item (cart w) /\
    item_product d = id (details item) /\
    item_quantity d = quantity item /\
    item_price d = direct_unit_price item.
Proof.
  destruct (handleOrderCreation_handled isOAuthUser user shippingInfo w)
    as (t & c & ts & its & Hh & Hcases).
  destruct (history_since _ _ _ _ _ _ Hh) as (_ & _ & _ & ->).
  intros Hin. destruct Hcases as [(_ & -> & _)|(o & _ & _ & Hlines & _)].
  - destruct Hin.
  - destruct (proj1 (Forall_forall _ _) Hlines d Hin) as (item & Hitem & ->).
    exists item. cbn. auto.
Qed.


(** *** A created order is kept *)

Lemma created_order_kept bad unit_price (m : M unit) (w : World) :
  handled bad unit_price m ->
  existsb order_created (requests_since w (exec m w)) = true ->
  exists o, orders (backend (exec m w)) = orders (backend w) ++ [o].
Proof.
  intros Hm. destruct (Hm w) as (t & c & ts & its & Hh & Hcases).
  destruct (history_since _ _ _ _ _ _ Hh) as (-> & _).
  intros Hcreated.
  destruct Hcases as [(Hnone & _)|(o & Ho & _)]; [congruence|].
  now exists o.
Qed.

(** *** The shipping form *)

Section ShippingForm.

Variable issued_secret : string.
Variable shippingInfo : ShippingInfo.

Lemma first_missing_none (fields : list Field) :
  first_missing shippingInfo fields = None <->
  forall f, In f fields -> truthy_str (get shippingInfo f) = true.
Proof.
  induction fields as [|f rest IH]; cbn [first_missing].
  - split; [intros _ f []|reflexivity].
  - destruct (truthy_str (get shippingInfo f)) eqn:E.
    + rewrite IH. split.
      * intros H g [<-|Hg]; auto.
      * intros H g Hg. apply H. now right.
    + split; [discriminate|].
      intros H. rewrite (H f (or_introl eq_refl)) in E. discriminate.
Qed.

(** When one of the seven fields [validateForm] checks is empty, the step
    is blocked: an error toast, and no request at all. *)
Lemma handleShippingSubmit_blocked (w : World) (f : Field) :
  first_missing shippingInfo required = Some f ->
  exists msg,
    exec (handleShippingSubmit issued_secret shippingInfo) w =
    mkWorld (backend w) (script w) (trace w) (intents w) (console w)
            (toasts w ++ [ToastError msg]) (cart w) (currentStep w)
            (clientSecret w) (loading w) (route w).
Proof.
  intros Hf. unfold handleShippingSubmit, validateForm, exec. rewrite Hf.
  eexists. reflexivity.
Qed.

(** The payment API is asked for an intent over the subtotal plus the
    shipping fee. *)
Lemma proceedToPayment_amount (w : World) :
  failed (hd Ok (script w)) = false ->
  intents (exec (proceedToPayment issued_secret) w)
  = intents w ++ [total (getTotalPrice (cart w))] /\
  currentStep (exec (proceedToPayment issued_secret) w) = payment.
Proof.
  destruct w as [b s tr ints con tst crt stp sec ld rt].
  destruct s as [|[] s']; cbn [hd failed script]; intros H;
    try discriminate H; split; reflexivity.
Qed.

End ShippingForm.


(** *** Shipping fee and grand total *)

Lemma created_order_total bad unit_price (m : M unit) (w : World)
    (o : OrderRecord) :
  handled bad unit_price m ->
  orders (backend (exec m w)) = orders (backend w) ++ [o] ->
  total_price (order_data o) = total (getTotalPrice (cart w)).
Proof.
  intros Hm Ho. destruct (Hm w) as (t & c & ts & its & _ & Hcases).
  destruct Hcases as [(_ & _ & Hsame)|(o' & Ho' & Htotal & _)].
  - rewrite Hsame in Ho. apply (f_equal (@List.length _)) in Ho.
    rewrite length_app in Ho. cbn in Ho. lia.
  - rewrite Ho' in Ho. apply app_inv_head in Ho. now injection Ho as <-.
Qed.

(** C10. For every cart subtotal [t] the shipping fee is 0 when [t > 50]
    and 5 otherwise, and the grand total is [t] plus the fee: in the order
    summary, in the amount of the payment intent, and in the total of the
    order either finalize path creates.  A subtotal of 40 gives fee 5 and
    total 45, a subtotal of 60 gives fee 0 and total 60. *)
Theorem shipping_fee_and_grand_total (cart : Cart) :
  let t := getTotalPrice cart in
  order_summary cart = (t, shipping t, total t) /\
  total t = (t + shipping t)%Q /\
  ((50 < t)%Q -> shipping t = 0%Q) /\
  ((t <= 50)%Q -> shipping t = 5%Q) /\
  ((t == 40)%Q -> shipping t = 5%Q /\ (total t == 45)%Q) /\
  ((t == 60)%Q -> shipping t = 0%Q /\ (total t == 60)%Q) /\
  (forall secret w,
      Checkout.cart w = cart -> failed (hd Ok (script w)) = false ->
      intents (exec (proceedToPayment secret) w) = intents w ++ [total t]) /\
  (forall isOAuthUser user shippingInfo w o,
      Checkout.cart w = cart ->
      (orders (backend (exec (handleOrderCreation isOAuthUser user shippingInfo) w))
       = orders (backend w) ++ [o] ->
       total_price (order_data o) = total t) /\
      (orders (backend (exec (handlePaymentSuccess isOAuthUser user shippingInfo) w))
       = orders (backend w) ++ [o] ->
       total_price (order_data o) = total t)).
Proof.
  cbv zeta. set (t := getTotalPrice cart).
  assert (Hhigh : (50 < t)%Q -> shipping t = 0%Q).
  { intros H. unfold shipping. now rewrite (proj2 (CartFacts.Qltb_lt 50 t) H). }
  assert (Hlow : (t <= 50)%Q -> shipping t = 5%Q).
  { intros H. unfold shipping. now rewrite (proj2 (CartFacts.Qltb_ge 50 t) H). }
  split; [reflexivity|]. split; [reflexivity|].
  split; [exact Hhigh|]. split; [exact Hlow|]. split; [|split; [|split]].
  - intros E. assert (Hs : shipping t = 5%Q) by (apply Hlow; rewrite E; discriminate).
    split; [exact Hs|]. unfold total. rewrite Hs, E. reflexivity.
  - intros E. assert (Hs : shipping t = 0%Q) by (apply Hhigh; rewrite E; reflexivity).
    split; [exact Hs|]. unfold total. rewrite Hs, E. reflexivity.
  - intros secret w <- Hserved. apply proceedToPayment_amount, Hserved.
  - intros isOAuthUser user shippingInfo w o <-. split.
    + apply (created_order_total direct_write_failed direct_unit_price).
      apply handleOrderCreation_handled.
    + apply (created_order_total paid_write_failed paid_unit_price).
      apply handlePaymentSuccess_handled.
Qed.

Lemma shipping_fee_and_grand_total_witness :
  shipping (getTotalPrice [mkCartItem sencha 5]) = 5%Q /\
  (total (getTotalPrice [mkCartItem sencha 5]) == 45)%Q.
Proof.
  apply (shipping_fee_and_grand_total [mkCartItem sencha 5]).
  reflexivity.
Defined.

End CheckoutFacts.

(** * Further properties of the cart container and of its callers *)

Module CartExtras.

Import CartContext CartSpec CartMore.

(** *** Lookups *)

Lemma find_item_map (f : CartItem -> CartItem) (X : string) (cart : Cart) :
  (forall item, entry_id (f item) = entry_id item) ->
  find_item X (map f cart) = option_map f (find_item X cart).
Proof.
  intros Hf. unfold find_item.
  induction cart as [|item rest IH]; [reflexivity|].
  cbn [map find]. pose proof (Hf item) as Hid. unfold entry_id in Hid.
  rewrite Hid. destruct (id (details item) =? X)%string; [reflexivity|exact IH].
Qed.

Lemma find_item_absent (X : string) (cart : Cart) :
  ~ In X (map entry_id cart) -> find_item X cart = None.
Proof.
  intros Habs. unfold find_item.
  destruct (find _ cart) as [item|] eqn:E; [|reflexivity].
  apply find_some in E. destruct E as [Hin Hid]. apply String.eqb_eq in Hid.
  elim Habs. apply in_map_iff. now exists item.
Qed.

Lemma find_item_app_absent (X : string) (cart : Cart) (item : CartItem) :
  find_item X cart = None ->
  find_item X (cart ++ [item]) = find_item X [item].
Proof.
  unfold find_item. induction cart as [|x rest IH]; [reflexivity|].
  cbn [app find]. destruct (id (details x) =? X)%string; [discriminate|exact IH].
Qed.

Lemma find_item_app_present (X : string) (cart : Cart) (item found : CartItem) :
  find_item X cart = Some found ->
  find_item X (cart ++ [item]) = Some found.
Proof.
  unfold find_item. induction cart as [|x rest IH]; [discriminate|].
  cbn [app find]. destruct (id (details x) =? X)%string; [auto|exact IH].
Qed.

Lemma getTotalItems_units (cart : Cart) : getTotalItems cart = units cart.
Proof.
  unfold getTotalItems.
  assert (H : forall acc,
             fold_left (fun total item => total + quantity item) cart acc
             = acc + units cart).
  { induction cart as [|item rest IH]; intros acc; cbn [fold_left units];
      [lia|rewrite IH; lia]. }
  now rewrite H.
Qed.

(** *** Removing a product *)

Lemma find_item_removed_other (X Y : string) (cart : Cart) :
  Y <> X -> find_item Y (removeFromCart X cart) = find_item Y cart.
Proof.
  intros Hne. unfold find_item, removeFromCart.
  induction cart as [|item rest IH]; [reflexivity|].
  cbn [filter find].
  destruct (String.eqb_spec (id (details item)) X) as [Hx|Hx]; cbn [negb].
  - destruct (String.eqb_spec (id (details item)) Y) as [Hy|_];
      [congruence|exact IH].
  - cbn [find]. now rewrite IH.
Qed.

Lemma getItemQuantity_removed (X : string) (cart : Cart) :
  getItemQuantity X (removeFromCart X cart) = 0.
Proof.
  unfold getItemQuantity.
  now rewrite (find_item_absent X _ (CartFacts.removeFromCart_no_entry X cart)).
Qed.

Lemma removeFromCart_absent (X : string) (cart : Cart) :
  ~ In X (map entry_id cart) -> removeFromCart X cart = cart.
Proof.
  intros Habs. unfold removeFromCart.
  induction cart as [|item rest IH]; [reflexivity|]. cbn [filter map] in *.
  destruct (String.eqb_spec (id (details item)) X) as [Hx|_]; cbn [negb].
  - elim Habs. now left.
  - f_equal. apply IH. intros H. apply Habs. now right.
Qed.

(** X1. After [removeFromCart X] the cart holds no unit of [X] and the
    quantity of every other product is as before; removing again, or
    removing a product that is not in the cart, changes nothing. *)
Theorem removeFromCart_lookup (X : string) (cart : Cart) :
  getItemQuantity X (removeFromCart X cart) = 0 /\
  (forall Y, Y <> X ->
     getItemQuantity Y (removeFromCart X cart) = getItemQuantity Y cart) /\
  removeFromCart X (removeFromCart X cart) = removeFromCart X cart /\
  (~ In X (map entry_id cart) -> removeFromCart X cart = cart).
Proof.
  split; [|split; [|split]].
  - apply getItemQuantity_removed.
  - intros Y Hne. unfold getItemQuantity.
    now rewrite find_item_removed_other.
  - unfold removeFromCart.
    induction cart as [|item rest IH]; [reflexivity|]. cbn [filter].
    destruct (negb (id (details item) =? X)%string) eqn:E; [|exact IH].
    cbn [filter]. rewrite E. now f_equal.
  - apply removeFromCart_absent.
Qed.

Lemma removeFromCart_lookup_witness :
  removeFromCart "oolong" [mkCartItem sencha 2; mkCartItem matcha 1]
  = [mkCartItem sencha 2; mkCartItem matcha 1].
Proof.
  apply (removeFromCart_lookup "oolong" [mkCartItem sencha 2; mkCartItem matcha 1]).
  cbn. intros [H|[H|[]]]; discriminate H.
Defined.

(** *** One entry per product *)

Lemma addToCart_unique (product : Product) (cart : Cart) :
  NoDup (map entry_id cart) ->
  NoDup (map entry_id (fst (addToCart product cart))).
Proof.
  intros Hnd. unfold addToCart.
  assert (Hinc :
    NoDup (map entry_id
             (map (fun item =>
                     if (id (details item) =? id (data product))%string
                     then with_quantity item (quantity item + 1) else item)
                  cart))).
  { rewrite CartFacts.map_preserves_ids; [exact Hnd|].
    intros item. apply CartFacts.increment_preserves_id. }
  assert (Happ :
    find_item (id (data product)) cart = None ->
    NoDup (map entry_id (cart ++ [mkCartItem (data product) 1]))).
  { intros Hnone. rewrite map_app. cbn [map]. apply NoDup_app.
    - exact Hnd.
    - constructor; [intros []|constructor].
    - intros x Hx [<-|[]]. now apply (CartFacts.find_item_none _ _ Hnone). }
  destruct (find_item (id (data product)) cart) as [existingItem|] eqn:Hfind.
  - destruct (stock (data product)) as [s|];
      [destruct (quantity existingItem >=? s)|]; cbn [fst]; auto.
  - destruct (stock (data product)) as [s|];
      [destruct (s <=? 0)|]; cbn [fst]; auto.
Qed.

Lemma act_unique (a : CartAction) (cart : Cart) :
  NoDup (map entry_id cart) -> NoDup (map entry_id (act cart a)).
Proof.
  intros Hnd. destruct a as [p|X|X q|U|]; cbn [act].
  - now apply addToCart_unique.
  - now apply CartFacts.NoDup_ids_filter.
  - unfold updateQuantity. destruct (q <=? 0); cbn [fst].
    + now apply CartFacts.NoDup_ids_filter.
    + rewrite (map_map (set_quantity X q) fst).
      rewrite CartFacts.map_preserves_ids; [exact Hnd|].
      intros item. apply CartFacts.set_quantity_preserves_id.
  - unfold updateProductInCart.
    rewrite CartFacts.map_preserves_ids; [exact Hnd|].
    intros item. unfold entry_id.
    destruct (String.eqb_spec (id (details item)) (id (data U))) as [E|_];
      [now rewrite E|reflexivity].
  - constructor.
Qed.

(** X2. Whatever sequence of add, remove, update quantity, reconcile and
    clear is applied to the empty cart, no two entries of the cart share a
    product id. *)
Theorem one_entry_per_product (actions : list CartAction) :
  NoDup (map entry_id (run actions [])).
Proof.
  unfold run.
  assert (H : forall cart, NoDup (map entry_id cart) ->
                           NoDup (map entry_id (fold_left act actions cart))).
  { induction actions as [|a rest IH]; intros cart Hnd; [exact Hnd|].
    cbn [fold_left]. apply IH. now apply act_unique. }
  apply H. constructor.
Qed.

(** *** What one add does to the counts *)

Lemma increment_absent (X : string) (cart : Cart) :
  ~ In X (map entry_id cart) -> map (increment X) cart = cart.
Proof.
  induction cart as [|item rest IH]; intros Habs; [reflexivity|].
  cbn [map] in *. unfold increment at 1.
  destruct (String.eqb_spec (id (details item)) X) as [E|_].
  - elim Habs. now left.
  - f_equal. apply IH. intros H. apply Habs. now right.
Qed.

Lemma units_incremented (X : string) (cart : Cart) (e : CartItem) :
  NoDup (map entry_id cart) -> find_item X cart = Some e ->
  units (map (increment X) cart) = units cart + 1.
Proof.
  unfold find_item. induction cart as [|item rest IH]; intros Hnd Hfind;
    [discriminate|].
  cbn [map] in Hnd. inversion Hnd as [|? ? Hnotin Hnd']; subst.
  cbn [find] in Hfind. cbn [map units]. unfold increment at 1.
  destruct (String.eqb_spec (id (details item)) X) as [E|_].
  - rewrite increment_absent; [cbn; lia|].
    unfold entry_id in Hnotin. now rewrite <- E.
  - rewrite IH by assumption. lia.
Qed.

Lemma units_app (a b : Cart) : units (a ++ b) = units a + units b.
Proof. induction a as [|x a IH]; cbn [app units]; [lia|rewrite IH; lia]. Qed.

Lemma increment_id (X : string) (item : CartItem) :
  entry_id (increment X item) = entry_id item.
Proof. apply CartFacts.increment_preserves_id. Qed.

Lemma incremented_counts (X : string) (cart : Cart) (e : CartItem) :
  NoDup (map entry_id cart) -> find_item X cart = Some e ->
  (forall Y, Y <> X ->
     getItemQuantity Y (map (increment X) cart) = getItemQuantity Y cart) /\
  getItemQuantity X (map (increment X) cart) = getItemQuantity X cart + 1 /\
  getTotalItems (map (increment X) cart) = getTotalItems cart + 1.
Proof.
  intros Hnd Hfind. split; [|split].
  - intros Y Hne. unfold getItemQuantity.
    rewrite (find_item_map _ Y cart (increment_id X)).
    destruct (find_item Y cart) as [e'|] eqn:E; [|reflexivity].
    apply find_some in E. destruct E as [_ Hid]. apply String.eqb_eq in Hid.
    cbn [option_map]. unfold increment.
    destruct (String.eqb_spec (id (details e')) X) as [Hx|_];
      [congruence|reflexivity].
  - unfold getItemQuantity.
    rewrite (find_item_map _ X cart (increment_id X)), Hfind.
    apply find_some in Hfind. destruct Hfind as [_ Hid].
    cbn [option_map]. unfold increment. now rewrite Hid.
  - rewrite !getTotalItems_units. now apply (units_incremented X cart e).
Qed.

Lemma appended_counts (p : ProductData) (cart : Cart) :
  find_item (id p) cart = None ->
  (forall Y, Y <> id p ->
     getItemQuantity Y (cart ++ [mkCartItem p 1]) = getItemQuantity Y cart) /\
  getItemQuantity (id p) (cart ++ [mkCartItem p 1])
  = getItemQuantity (id p) cart + 1 /\
  getTotalItems (cart ++ [mkCartItem p 1]) = getTotalItems cart + 1.
Proof.
  intros Hnone. split; [|split].
  - intros Y Hne. unfold getItemQuantity.
    destruct (find_item Y cart) as [e|] eqn:E.
    + now rewrite (find_item_app_present Y cart _ e E).
    + rewrite (find_item_app_absent Y cart _ E). unfold find_item.
      cbn [find details].
      now rewrite (proj2 (String.eqb_neq _ _) (not_eq_sym Hne)).
  - unfold getItemQuantity. rewrite (find_item_app_absent _ cart _ Hnone), Hnone.
    unfold find_item. cbn [find details]. now rewrite String.eqb_refl.
  - rewrite !getTotalItems_units, units_app. cbn. lia.
Qed.

(** X3. In a cart with one entry per product, [addToCart] either raises
    the quantity of the product and the total number of items by exactly
    one without a warning, or leaves the cart as it is and emits one
    warning; the quantities of the other products never change. *)
Theorem addToCart_counts (product : Product) (cart : Cart) :
  NoDup (map entry_id cart) ->
  let X := id (data product) in
  let r := addToCart product cart in
  (forall Y, Y <> X -> getItemQuantity Y (fst r) = getItemQuantity Y cart) /\
  ((snd r = [] /\
    getItemQuantity X (fst r) = getItemQuantity X cart + 1 /\
    getTotalItems (fst r) = getTotalItems cart + 1) \/
   (fst r = cart /\ exists warning, snd r = [warning])).
Proof.
  intros Hnd. cbv zeta. unfold addToCart.
  destruct (find_item (id (data product)) cart) as [e|] eqn:Hfind.
  - pose proof (incremented_counts _ cart e Hnd Hfind) as (Hframe & Hq & Ht).
    fold (increment (id (data product))).
    destruct (stock (data product)) as [s|];
      [destruct (quantity e >=? s)|]; cbn [fst snd].
    + split; [reflexivity|]. right. eauto.
    + split; [exact Hframe|]. left. auto.
    + split; [exact Hframe|]. left. auto.
  - pose proof (appended_counts (data product) cart Hfind)
      as (Hframe & Hq & Ht).
    destruct (stock (data product)) as [s|];
      [destruct (s <=? 0)|]; cbn [fst snd].
    + split; [reflexivity|]. right. eauto.
    + split; [exact Hframe|]. left. auto.
    + split; [exact Hframe|]. left. auto.
Qed.

Lemma addToCart_counts_witness :
  getItemQuantity "matcha"
    (fst (addToCart (mkProduct sencha None)
            [mkCartItem sencha 2; mkCartItem matcha 1]))
  = getItemQuantity "matcha" [mkCartItem sencha 2; mkCartItem matcha 1].
Proof.
  refine (proj1 (addToCart_counts (mkProduct sencha None)
                   [mkCartItem sencha 2; mkCartItem matcha 1] _)
            "matcha" _).
  - repeat constructor; cbn; intuition discriminate.
  - discriminate.
Defined.

(** *** Setting a quantity twice *)

(** X5. Setting the quantity of a product to a positive [q] and then to a
    positive [q'] gives the same cart as setting it to [q'] at once. *)
Theorem updateQuantity_last_wins (X : string) (q q' : Z) (cart : Cart) :
  0 < q -> 0 < q' ->
  fst (updateQuantity X q' (fst (updateQuantity X q cart)))
  = fst (updateQuantity X q' cart).
Proof.
  intros Hq Hq'. rewrite !CartFacts.updateQuantity_positive by assumption.
  rewrite map_map. apply map_ext. intros item. unfold set_quantity.
  destruct (String.eqb_spec (id (details item)) X) as [E|E].
  - destruct (stock (details item)) as [s|] eqn:Hs.
    + destruct (q >? s); cbn [fst with_quantity details];
        rewrite E, String.eqb_refl, Hs; destruct (q' >? s); reflexivity.
    + cbn [fst with_quantity details]. now rewrite E, String.eqb_refl, Hs.
  - cbn [fst]. now rewrite (proj2 (String.eqb_neq _ _) E).
Qed.

Lemma updateQuantity_last_wins_witness :
  fst (updateQuantity "sencha" 2
         (fst (updateQuantity "sencha" 9 [mkCartItem sencha 1])))
  = fst (updateQuantity "sencha" 2 [mkCartItem sencha 1]).
Proof.
  apply (updateQuantity_last_wins "sencha" 9 2 [mkCartItem sencha 1]); lia.
Defined.

(** *** Reconciling and the counts *)

Lemma reconciled_id (U : Product) (item : CartItem) :
  entry_id (reconciled U item) = entry_id item.
Proof.
  unfold reconciled, entry_id.
  destruct (String.eqb_spec (id (details item)) (id (data U))) as [E|_];
    [now rewrite E|reflexivity].
Qed.

Lemma reconciled_quantity (U : Product) (item : CartItem) :
  quantity (reconciled U item) = quantity item.
Proof.
  unfold reconciled. now destruct (id (details item) =? id (data U))%string.
Qed.

(** X6. Reconciling the cart with a pushed product record changes no
    quantity: the quantity of every product and the total number of items
    are as before; and reconciling twice with the same record is the same
    as once. *)
Theorem updateProductInCart_counts (U : Product) (cart : Cart) :
  (forall Y, getItemQuantity Y (updateProductInCart U cart)
             = getItemQuantity Y cart) /\
  getTotalItems (updateProductInCart U cart) = getTotalItems cart /\
  updateProductInCart U (updateProductInCart U cart)
  = updateProductInCart U cart.
Proof.
  change (updateProductInCart U) with (map (reconciled U)).
  split; [|split].
  - intros Y. unfold getItemQuantity.
    rewrite (find_item_map _ Y cart (reconciled_id U)).
    destruct (find_item Y cart) as [e|]; [|reflexivity].
    apply reconciled_quantity.
  - rewrite !getTotalItems_units.
    induction cart as [|item rest IH]; [reflexivity|].
    cbn [map units]. now rewrite IH, reconciled_quantity.
  - rewrite map_map. apply map_ext. intros item. unfold reconciled.
    destruct (String.eqb_spec (id (details item)) (id (data U))) as [E|E].
    + cbn [details quantity]. now rewrite String.eqb_refl.
    + now rewrite (proj2 (String.eqb_neq _ _) E).
Qed.

(** *** The realtime subscription of the cart *)

Section Subscription.

Import CartRealtime.

Variable getURL : ProductRecord -> string -> option string.

(** X7. A realtime event never adds or removes a cart entry and never
    changes a quantity or a product id: create and delete events, and events
    without a record, leave the cart as it is (a product deleted from the
    store stays in the cart), and an update event gives the entries of that
    product the pushed price and stock and keeps their quantity. *)
Theorem cart_subscription_keeps_quantities (e : Event) (cart : Cart) :
  map quantity (on_event getURL e cart) = map quantity cart /\
  map entry_id (on_event getURL e cart) = map entry_id cart /\
  (action e <> update -> on_event getURL e cart = cart) /\
  (record e = None -> on_event getURL e cart = cart) /\
  (forall r i item,
      action e = update -> record e = Some r ->
      nth_error cart i = Some item -> entry_id item = r_id r ->
      exists item',
        nth_error (on_event getURL e cart) i = Some item' /\
        quantity item' = quantity item /\
        (price (details item') == r_price r)%Q /\
        stock (details item') = r_stock r).
Proof.
  unfold on_event. split; [|split; [|split; [|split]]].
  - destruct (action e), (record e) as [r|]; try reflexivity.
    change (updateProductInCart (updatedProduct getURL r))
      with (map (reconciled (updatedProduct getURL r))).
    rewrite map_map. apply map_ext. intros item. apply reconciled_quantity.
  - destruct (action e), (record e) as [r|]; try reflexivity.
    change (updateProductInCart (updatedProduct getURL r))
      with (map (reconciled (updatedProduct getURL r))).
    rewrite map_map. apply map_ext. intros item. apply reconciled_id.
  - intros Hne. destruct (action e); try reflexivity. now elim Hne.
  - intros ->. now destruct (action e).
  - intros r i item -> -> Hnth Hid.
    exists (mkCartItem (data (updatedProduct getURL r)) (quantity item)).
    split; [|split; [reflexivity|split; [|reflexivity]]].
    + unfold updateProductInCart. rewrite nth_error_map, Hnth.
      cbn [option_map]. unfold entry_id in Hid. cbn [data updatedProduct id].
      now rewrite Hid, String.eqb_refl.
    + cbn [details data updatedProduct price].
      destruct (Qeq_bool (r_price r) 0) eqn:E; [|reflexivity].
      symmetry. now apply Qeq_bool_eq.
Qed.

End Subscription.

Lemma cart_subscription_keeps_quantities_witness :
  CartRealtime.on_event no_url
    (CartRealtime.mkEvent CartRealtime.delete (Some sencha_pushed))
    [mkCartItem sencha 2]
  = [mkCartItem sencha 2].
Proof.
  refine (proj1 (proj2 (proj2
            (cart_subscription_keeps_quantities no_url
               (CartRealtime.mkEvent CartRealtime.delete (Some sencha_pushed))
               [mkCartItem sencha 2]))) _).
  discriminate.
Defined.

(** *** The cart handlers of the product page and of the sidebar *)

Section Callers.

Import CartCallers.

Lemma guarded_add (p : Product) (cart : Cart) :
  (forall s, stock (data p) = Some s ->
             getItemQuantity (id (data p)) cart < s) ->
  snd (addToCart p cart) = [] /\
  getItemQuantity (id (data p)) (fst (addToCart p cart))
  = getItemQuantity (id (data p)) cart + 1.
Proof.
  intros Hroom. unfold addToCart.
  destruct (find_item (id (data p)) cart) as [e|] eqn:Hfind.
  - assert (Hinc :
      getItemQuantity (id (data p)) (map (increment (id (data p))) cart)
      = getItemQuantity (id (data p)) cart + 1).
    { unfold getItemQuantity.
      rewrite (find_item_map _ _ cart (increment_id (id (data p)))), Hfind.
      apply find_some in Hfind. destruct Hfind as [_ Hid].
      cbn [option_map]. unfold increment. now rewrite Hid. }
    fold (increment (id (data p))).
    destruct (stock (data p)) as [s|]; [|now split].
    pose proof (Hroom s eq_refl) as Hlt.
    unfold getItemQuantity in Hlt. rewrite Hfind in Hlt.
    rewrite Z.geb_leb. destruct (Z.leb_spec s (quantity e)); [lia|now split].
  - destruct (appended_counts (data p) cart Hfind) as (_ & Hq & _).
    destruct (stock (data p)) as [s|]; [|now split].
    pose proof (Hroom s eq_refl) as Hpos.
    unfold getItemQuantity in Hpos. rewrite Hfind in Hpos.
    destruct (Z.leb_spec s 0); [lia|now split].
Qed.

Lemma null_stock_add (p : Product) (cart : Cart) :
  stock (data p) = Some 0 ->
  0 <= getItemQuantity (id (data p)) cart ->
  fst (addToCart p cart) = cart /\ List.length (snd (addToCart p cart)) = 1%nat.
Proof.
  intros Hs Hq. unfold addToCart. rewrite Hs.
  unfold getItemQuantity in Hq.
  destruct (find_item (id (data p)) cart) as [e|]; cbn [option_map] in Hq.
  - rewrite Z.geb_leb. destruct (Z.leb_spec 0 (quantity e)); [now split|lia].
  - now split.
Qed.

(** X8. On the product page, [handleAddToCart] and [handleIncrement] show
    an error toast only when they leave the cart as it is; and for a product
    whose stock is a number or is undefined their success toast is true: the
    container raised no warning and the quantity of the product in the cart
    went up by exactly one.  For a product whose stock is null it is not:
    the check of the page is skipped, [addToCart] takes null for 0 and
    rejects the add with a warning, and the success toast is shown although
    the cart is unchanged. *)
Theorem product_page_add_toast_is_truthful (product : DetailProduct)
    (productImages : list string) (cart : Cart) :
  let X := d_id product in
  let honest (r : Cart * list Warning * PageToast) :=
    (is_error (snd r) = true -> fst (fst r) = cart /\ snd (fst r) = []) /\
    (is_error (snd r) = false -> d_stock product <> StockNull ->
     snd (fst r) = [] /\
     getItemQuantity X (fst (fst r)) = getItemQuantity X cart + 1) /\
    (d_stock product = StockNull -> 0 <= getItemQuantity X cart ->
     is_error (snd r) = false /\ fst (fst r) = cart /\
     List.length (snd (fst r)) = 1%nat) in
  honest (handleAddToCart product productImages cart) /\
  honest (handleIncrement product productImages cart).
Proof.
  cbv zeta. split.
  - unfold handleAddToCart. destruct (d_stock product) as [| |s] eqn:Hs.
    + cbn [fst snd is_error].
      split; [discriminate|]. split; [|discriminate]. intros _ _.
      apply (guarded_add (cartProduct_add product productImages) cart).
      cbn [data cartProduct_add stock id]. rewrite Hs. discriminate.
    + cbn [fst snd is_error].
      split; [discriminate|]. split; [intros _ H; now destruct H|].
      intros _ Hq. split; [reflexivity|].
      apply (null_stock_add (cartProduct_add product productImages) cart);
        [|exact Hq].
      cbn [data cartProduct_add stock]. now rewrite Hs.
    + destruct (Z.leb_spec s 0) as [Hle|Hpos]; cbn [fst snd is_error];
        [split; [auto|split; discriminate]|].
      rewrite Z.geb_leb.
      destruct (Z.leb_spec s (getItemQuantity (d_id product) cart))
        as [Hfull|Hroom]; cbn [fst snd is_error];
        [split; [auto|split; discriminate]|].
      split; [discriminate|]. split; [|discriminate]. intros _ _.
      apply (guarded_add (cartProduct_add product productImages) cart).
      cbn [data cartProduct_add stock id]. rewrite Hs.
      now intros ? [= <-].
  - unfold handleIncrement. destruct (d_stock product) as [| |s] eqn:Hs.
    + cbn [fst snd is_error].
      split; [discriminate|]. split; [|discriminate]. intros _ _.
      apply (guarded_add (cartProduct_increment product productImages) cart).
      cbn [data cartProduct_increment stock id]. rewrite Hs. discriminate.
    + cbn [fst snd is_error].
      split; [discriminate|]. split; [intros _ H; now destruct H|].
      intros _ Hq. split; [reflexivity|].
      apply (null_stock_add (cartProduct_increment product productImages) cart);
        [|exact Hq].
      cbn [data cartProduct_increment stock]. now rewrite Hs.
    + rewrite Z.geb_leb.
      destruct (Z.leb_spec s (getItemQuantity (d_id product) cart))
        as [Hfull|Hroom]; cbn [fst snd is_error];
        [split; [auto|split; discriminate]|].
      split; [discriminate|]. split; [|discriminate]. intros _ _.
      apply (guarded_add (cartProduct_increment product productImages) cart).
      cbn [data cartProduct_increment stock id]. rewrite Hs.
      now intros ? [= <-].
Qed.

Lemma product_page_add_toast_is_truthful_witness :
  getItemQuantity "gyokuro" (fst (fst (handleAddToCart gyokuro [] [])))
  = getItemQuantity "gyokuro" [] + 1 /\
  fst (fst (handleAddToCart gyokuro_null_stock [] [])) = [].
Proof.
  split.
  - refine (proj2 (proj1 (proj2 (proj1
              (product_page_add_toast_is_truthful gyokuro [] []))) eq_refl _)).
    discriminate.
  - refine (proj1 (proj2 (proj2 (proj2 (proj1
              (product_page_add_toast_is_truthful gyokuro_null_stock [] [])))
              eq_refl _))).
    cbn. lia.
Defined.

Lemma set_quantity_id (X : string) (q : Z) (item : CartItem) :
  entry_id (fst (set_quantity X q item)) = entry_id item.
Proof. apply CartFacts.set_quantity_preserves_id. Qed.

Lemma updateQuantity_nonpositive (X : string) (q : Z) (cart : Cart) :
  q <= 0 -> fst (updateQuantity X q cart) = removeFromCart X cart.
Proof.
  intros Hq. unfold updateQuantity.
  destruct (Z.leb_spec q 0); [reflexivity|lia].
Qed.

Lemma quantity_after_update (X : string) (q : Z) (cart : Cart) (item : CartItem) :
  0 < q -> find_item X cart = Some item ->
  getItemQuantity X (fst (updateQuantity X q cart))
  = match stock (details item) with
    | Some s => Z.min q s
    | None => q
    end.
Proof.
  intros Hq Hfind. rewrite CartFacts.updateQuantity_positive by assumption.
  unfold getItemQuantity.
  rewrite (find_item_map _ X cart (set_quantity_id X q)), Hfind.
  apply find_some in Hfind. destruct Hfind as [_ Hid].
  cbn [option_map]. unfold set_quantity. rewrite Hid.
  destruct (stock (details item)) as [s|]; [|reflexivity].
  rewrite Z.gtb_ltb. destruct (Z.ltb_spec s q); cbn [fst with_quantity quantity]; lia.
Qed.

(** X9. In the cart sidebar, for the line [item] of the cart with at least
    one unit: the plus button raises the quantity by one but never above the
    known stock, and the minus button, when the line is within its stock,
    lowers the quantity by one and removes the entry at quantity one. *)
Theorem sidebar_buttons (item : CartItem) (cart : Cart) :
  find_item (entry_id item) cart = Some item -> 1 <= quantity item ->
  getItemQuantity (entry_id item) (fst (sidebar_plus item cart))
  = match stock (details item) with
    | Some s => Z.min (quantity item + 1) s
    | None => quantity item + 1
    end /\
  (within_stock item ->
   getItemQuantity (entry_id item) (fst (sidebar_minus item cart))
   = quantity item - 1 /\
   (quantity item = 1 ->
    ~ In (entry_id item) (map entry_id (fst (sidebar_minus item cart))))).
Proof.
  intros Hfind Hq. split.
  - unfold sidebar_plus. fold (entry_id item).
    now rewrite (quantity_after_update _ _ cart item) by (assumption || lia).
  - intros Hstock. unfold sidebar_minus. fold (entry_id item).
    assert (quantity item = 1 \/ 1 < quantity item) as [H1|H1] by lia.
    + rewrite updateQuantity_nonpositive by lia. split.
      * rewrite getItemQuantity_removed. lia.
      * intros _. apply CartFacts.removeFromCart_no_entry.
    + split; [|lia].
      rewrite (quantity_after_update _ _ cart item) by (assumption || lia).
      unfold within_stock in Hstock.
      destruct (stock (details item)) as [s|]; lia.
Qed.

Lemma sidebar_buttons_witness :
  getItemQuantity "sencha"
    (fst (sidebar_plus (mkCartItem sencha 3)
            [mkCartItem matcha 1; mkCartItem sencha 3])) = 3.
Proof.
  exact (proj1 (sidebar_buttons (mkCartItem sencha 3)
                  [mkCartItem matcha 1; mkCartItem sencha 3]
                  eq_refl ltac:(cbn; lia))).
Defined.

(** X10. On the product page, [handleDecrement] for a product whose cart
    line is within its stock lowers the quantity in the cart by one, the
    entry being removed when it held one unit; for a product that is not in
    the cart it leaves the cart as it is. *)
Theorem product_page_decrement (product : DetailProduct) (cart : Cart) :
  (forall item,
      find_item (d_id product) cart = Some item ->
      within_stock item -> 1 <= quantity item ->
      getItemQuantity (d_id product) (fst (fst (handleDecrement product cart)))
      = quantity item - 1 /\
      (quantity item = 1 ->
       ~ In (d_id product)
            (map entry_id (fst (fst (handleDecrement product cart)))))) /\
  (~ In (d_id product) (map entry_id cart) ->
   fst (fst (handleDecrement product cart)) = cart).
Proof.
  unfold handleDecrement. split.
  - intros item Hfind Hstock Hq.
    assert (Hcur : getItemQuantity (d_id product) cart = quantity item)
      by (unfold getItemQuantity; now rewrite Hfind).
    rewrite Hcur, Z.gtb_ltb.
    destruct (Z.ltb_spec 1 (quantity item)) as [Hmany|Hone]; cbn [fst].
    + split; [|lia].
      rewrite (quantity_after_update _ _ cart item) by (assumption || lia).
      unfold within_stock in Hstock.
      destruct (stock (details item)) as [s|]; lia.
    + split.
      * rewrite getItemQuantity_removed. lia.
      * intros _. apply CartFacts.removeFromCart_no_entry.
  - intros Habs.
    assert (Hcur : getItemQuantity (d_id product) cart = 0)
      by (unfold getItemQuantity; now rewrite (find_item_absent _ _ Habs)).
    rewrite Hcur. cbn [Z.gtb Z.compare fst].
    now apply removeFromCart_absent.
Qed.

Lemma product_page_decrement_witness :
  getItemQuantity "gyokuro"
    (fst (fst (handleDecrement gyokuro
                 [mkCartItem (data (cartProduct_add gyokuro [])) 2])))
  = 2 - 1.
Proof.
  refine (proj1 (proj1 (product_page_decrement gyokuro
                   [mkCartItem (data (cartProduct_add gyokuro [])) 2])
            (mkCartItem (data (cartProduct_add gyokuro [])) 2) eq_refl _ _)).
  - cbn. lia.
  - cbn. lia.
Defined.

End Callers.

End CartExtras.

(** * The total of the cart in the arithmetic of the code *)

Module CartDoubleFacts.

Import SpecFloat CartDouble.

(** A number above 0 is truthy: the first test of the code's condition adds
    nothing to the second. *)
Lemma positive_truthy (x : double) : lt zero x = true -> truthy x = true.
Proof. destruct x as [s|s| |s m e]; cbn; intros H; congruence. Qed.

Lemma effectivePrice_stated (item : Entry) :
  effectivePrice item = stated_unit_price item.
Proof.
  unfold effectivePrice, stated_unit_price.
  destruct (sale_price item) as [s|]; [|reflexivity].
  destruct (lt zero s) eqn:Hpos.
  - now rewrite (positive_truthy s Hpos).
  - now rewrite andb_false_r.
Qed.

Lemma fold_is_sum_from (cart : list Entry) (total : double) :
  fold_left
    (fun total item => add total (mul (effectivePrice item) (quantity item)))
    cart total
  = sum_from total
      (map (fun item => mul (stated_unit_price item) (quantity item)) cart).
Proof.
  revert total. induction cart as [|item rest IH]; intros total.
  - reflexivity.
  - cbn [fold_left map sum_from]. rewrite IH.
    now rewrite effectivePrice_stated.
Qed.

(** The scenario of the specification: two units at 10 on sale for 8 and
    one unit at 5 come to 21. *)
Example getTotalPrice_scenario : getTotalPrice two_on_sale_and_one = of_Z 21.
Proof. vm_compute. reflexivity. Qed.

(** In binary64 the value of a sum depends on the order of its terms: the
    total of three lines at 0.1, 0.2 and 0.3 is 0.6000000000000001, and the
    total of the same lines in the opposite order is 0.6. *)
Lemma total_depends_on_order :
  getTotalPrice small_cart = S754_finite false 5404319552844596 (-53) /\
  getTotalPrice (rev small_cart) = S754_finite false 5404319552844595 (-53).
Proof. split; vm_compute; reflexivity. Qed.

(** C5. In the arithmetic of the code, for every cart, [getTotalPrice] is
    the sum, taken from 0 in cart order, of the amounts of the entries: the
    sale price if 0 < sale price < price, else the price, multiplied by the
    quantity.  For the empty cart it is 0. *)
Theorem getTotalPrice_is_sum_of_effective_prices (cart : list Entry) :
  getTotalPrice cart
  = sum (map (fun item => mul (stated_unit_price item) (quantity item)) cart) /\
  getTotalPrice [] = zero.
Proof.
  split; [|reflexivity]. unfold getTotalPrice, sum. apply fold_is_sum_from.
Qed.

Lemma compare_refl (x : double) :
  is_nan x = false -> SFcompare x x = Some Eq.
Proof.
  destruct x as [s|s| |s m e]; cbn; try discriminate; intros _.
  - reflexivity.
  - now destruct s.
  - destruct s; rewrite Z.compare_refl, Pos.compare_cont_refl; reflexivity.
Qed.

Lemma le_refl (x : double) : is_nan x = false -> le x x = true.
Proof. intros H. unfold le, SFleb. now rewrite (compare_refl x H). Qed.

Lemma lt_le (x y : double) : lt x y = true -> le x y = true.
Proof.
  unfold lt, le, SFltb, SFleb.
  destruct (SFcompare x y) as [[]|]; congruence.
Qed.

(** X4. Whatever numbers are stored (a sale price of 0, a negative one, NaN
    or an infinity included), the unit price [getTotalPrice] charges for a
    line is the list price, or a sale price that is above 0 and strictly
    below the list price: it is never above the list price (when that one is
    a number), and it is above 0 when the list price is. *)
Theorem discount_never_raises_the_unit_price (item : Entry) :
  (effectivePrice item = price item \/
   exists s, sale_price item = Some s /\ effectivePrice item = s /\
             lt zero s = true /\ lt s (price item) = true) /\
  (is_nan (price item) = false ->
   le (effectivePrice item) (price item) = true) /\
  (lt zero (price item) = true -> lt zero (effectivePrice item) = true).
Proof.
  unfold effectivePrice.
  destruct (sale_price item) as [s|].
  - destruct (truthy s && lt zero s && lt s (price item)) eqn:E.
    + apply andb_true_iff in E. destruct E as [E Hlt].
      apply andb_true_iff in E. destruct E as [_ Hpos].
      split; [right; now exists s|]. split; [intros _; now apply lt_le|auto].
    + split; [now left|]. split; [apply le_refl|auto].
  - split; [now left|]. split; [apply le_refl|auto].
Qed.

Lemma discount_never_raises_the_unit_price_witness :
  le (effectivePrice discounted) (price discounted) = true /\
  lt zero (effectivePrice discounted) = true.
Proof.
  destruct (discount_never_raises_the_unit_price discounted)
    as (_ & Hle & Hpos).
  split; [apply Hle|apply Hpos]; vm_compute; reflexivity.
Defined.

End CartDoubleFacts.

(** * The shipping form *)

Module FormExtras.

Import CartContext Checkout CheckoutSpec CheckoutForm.

Local Open Scope handler_scope.

Lemma get_handleInputChange (f g : Field) (v : string) (info : ShippingInfo) :
  get (handleInputChange f v info) g
  = if Field_eq_dec f g then v else get info g.
Proof. destruct f, g; reflexivity. Qed.

Lemma get_typed (edits : list (Field * string)) (info : ShippingInfo)
    (f : Field) :
  get (typed edits info) f = shown edits info f.
Proof.
  unfold typed, shown. revert info.
  induction edits as [|[g v] rest IH]; intros info; cbn [fold_left last_edit].
  - reflexivity.
  - rewrite IH. cbn [fst snd].
    destruct (last_edit f rest); [reflexivity|].
    rewrite get_handleInputChange. now destruct (Field_eq_dec g f).
Qed.

Lemma first_missing_filled (info : ShippingInfo) (fields : list Field) :
  first_missing info fields = None <->
  forall f, In f fields -> get info f <> EmptyString.
Proof.
  induction fields as [|f rest IH]; cbn [first_missing].
  - split; [intros _ f []|reflexivity].
  - destruct (get info f) as [|c s] eqn:E; cbn [truthy_str].
    + split; [discriminate|]. intros H. now destruct (H f (or_introl eq_refl)).
    + rewrite IH. split.
      * intros H g [<-|Hg]; [now rewrite E|auto].
      * intros H g Hg. apply H. now right.
Qed.

Lemma first_missing_is_empty (info : ShippingInfo) (fields : list Field)
    (f : Field) :
  first_missing info fields = Some f ->
  In f fields /\ get info f = EmptyString.
Proof.
  induction fields as [|g rest IH]; cbn [first_missing]; [discriminate|].
  destruct (get info g) as [|c s] eqn:E; cbn [truthy_str].
  - intros [= <-]. split; [now left|exact E].
  - intros H. destruct (IH H) as [Hin He]. split; [now right|exact He].
Qed.

(** X23. The form holds what was typed last: after any sequence of input
    changes each field shows the value of its last change, or its former
    value when it was not changed; and [validateForm] lets the form pass,
    without a toast, exactly when none of the seven fields it checks shows an
    empty value. *)
Theorem validateForm_after_typing (edits : list (Field * string))
    (info : ShippingInfo) (w : World) :
  (forall f, get (typed edits info) f = shown edits info f) /\
  ((forall f, In f required -> shown edits info f <> EmptyString) <->
   validateForm (typed edits info) w = (Val true, w)).
Proof.
  split; [intros f; apply get_typed|].
  unfold validateForm.
  destruct (first_missing (typed edits info) required) as [f|] eqn:E.
  - split.
    + intros H. apply first_missing_is_empty in E. destruct E as [Hin He].
      rewrite get_typed in He. now destruct (H f Hin).
    + discriminate.
  - split; [reflexivity|]. intros _ f Hf. rewrite <- get_typed.
    now apply first_missing_filled with (fields := required).
Qed.

Lemma validateForm_after_typing_witness :
  validateForm (typed bobs_edits (initialShippingInfo (Some bob))) all_served
  = (Val true, all_served).
Proof.
  apply (proj1 (proj2 (validateForm_after_typing
                         bobs_edits (initialShippingInfo (Some bob))
                         all_served))).
  intros f Hf. cbn in Hf.
  destruct Hf as [<-|[<-|[<-|[<-|[<-|[<-|[<-|[]]]]]]]]; discriminate.
Defined.

(** X24. Submitting the shipping form ends in one of three ways, and never
    with an exception.  When a checked field is empty, the first such field
    in the order of the list is named in one error toast and nothing else
    happens: no request is made.  Otherwise one request for a payment intent
    over the grand total is made; when it is served the client secret is
    kept, the step becomes payment and a success toast is shown; when it
    fails the step stays, the client secret is cleared, no intent exists,
    the console has two error lines and one error toast is shown.  The
    loading flag ends off, and the record store and the cart are never
    touched. *)
Theorem handleShippingSubmit_outcome (issued_secret : string)
    (info : ShippingInfo) (w : World) :
  handleShippingSubmit issued_secret info w =
  (Val tt,
   match first_missing info required with
   | Some f => with_toast w (ToastError (capitalize (key f) ++ " is required"))
   | None =>
       match hd Ok (script w) with
       | Ok =>
           mkWorld (backend w) (tl (script w))
                   (trace w ++ [(CreateIntent, Ok)])
                   (intents w ++ [total (getTotalPrice (cart w))])
                   (console w)
                   (toasts w ++ [ToastSuccess "Payment form ready"])
                   (cart w) payment issued_secret false (route w)
       | o =>
           mkWorld (backend w) (tl (script w))
                   (trace w ++ [(CreateIntent, o)])
                   (intents w)
                   (console w ++
                    [(ErrorLevel, "Error creating payment intent");
                     (ErrorLevel, "Error creating payment intent")])
                   (toasts w ++
                    [ToastError
                       "Failed to initialize payment: Failed to create payment intent. Please try again."])
                   (cart w) (currentStep w) EmptyString false (route w)
       end
   end).
Proof.
  unfold handleShippingSubmit, validateForm.
  destruct (first_missing info required) as [f|]; [reflexivity|].
  destruct w as [b s tr ints con tst crt stp sec ld rt].
  destruct s as [|[] s']; try reflexivity;
    cbv -[app]; now rewrite <- app_assoc.
Qed.

(** X25. The form as the page opens it: the country is preselected and the
    email is that of the signed-in user, so a first submit is always blocked
    on the first name; once the first name, last name, phone, address, city
    and postal code were given non-empty values (and the email too, unless
    the signed-in user has one and it was not changed), the form passes,
    with the preselected country unless it was changed. *)
Theorem form_as_opened (user : option User) (edits : list (Field * string))
    (w : World) :
  validateForm (initialShippingInfo user) w
  = (Val false, with_toast w (ToastError "FirstName is required")) /\
  ((forall f, In f [FirstName; LastName; Phone; Address; City; PostalCode] ->
              exists v, last_edit f edits = Some v /\ v <> EmptyString) ->
   match last_edit Email edits with
   | Some v => v <> EmptyString
   | None => exists u, user = Some u /\ user_email u <> EmptyString
   end ->
   validateForm (typed edits (initialShippingInfo user)) w = (Val true, w) /\
   (last_edit Country edits = None ->
    country (typed edits (initialShippingInfo user)) = "Azerbaijan")).
Proof.
  split; [reflexivity|]. intros Hsix Hemail. split.
  - unfold validateForm.
    assert (H : first_missing (typed edits (initialShippingInfo user)) required
                = None).
    { apply first_missing_filled. intros f Hf. rewrite get_typed.
      unfold shown.
      assert (Hcases : f = Email \/
                In f [FirstName; LastName; Phone; Address; City; PostalCode]).
      { cbn in Hf |- *. intuition. }
      destruct Hcases as [->|Hin].
      - destruct (last_edit Email edits); [exact Hemail|].
        destruct Hemail as (u & -> & Hu). cbn.
        destruct (user_email u); [now destruct Hu|discriminate].
      - destruct (Hsix f Hin) as (v & -> & Hv). exact Hv. }
    now rewrite H.
  - intros Hc. change (get (typed edits (initialShippingInfo user)) Country
                       = "Azerbaijan").
    rewrite get_typed. unfold shown. now rewrite Hc.
Qed.

Lemma form_as_opened_witness :
  validateForm (typed bobs_edits (initialShippingInfo (Some bob))) all_served
  = (Val true, all_served) /\
  country (typed bobs_edits (initialShippingInfo (Some bob))) = "Azerbaijan".
Proof.
  assert (H := proj2 (form_as_opened (Some bob) bobs_edits all_served)).
  split.
  - apply H.
    + intros f Hf. cbn in Hf.
      destruct Hf as [<-|[<-|[<-|[<-|[<-|[<-|[]]]]]]];
        eexists; (split; [reflexivity|discriminate]).
    + cbn. exists bob. split; [reflexivity|discriminate].
  - apply H.
    + intros f Hf. cbn in Hf.
      destruct Hf as [<-|[<-|[<-|[<-|[<-|[<-|[]]]]]]];
        eexists; (split; [reflexivity|discriminate]).
    + cbn. exists bob. split; [reflexivity|discriminate].
    + reflexivity.
Defined.

End FormExtras.

(** * Further properties of the catalog grid *)

Module GridExtras.

Import ProductGrid GridSpec GridMore.

Lemma entries_of_mapped (X Y : string) (t : Product) (prev : list Product) :
  Y <> X ->
  id (data t) = Y ->
  entries_of X
    (map (fun product => if (id (data product) =? Y)%string then t else product)
         prev)
  = entries_of X prev.
Proof.
  intros Hne Ht. unfold entries_of.
  induction prev as [|p rest IH]; [reflexivity|]. cbn [map filter].
  destruct (String.eqb_spec (id (data p)) Y) as [Hy|Hy].
  - rewrite Ht, Hy. rewrite (proj2 (String.eqb_neq _ _) Hne). exact IH.
  - destruct (id (data p) =? X)%string; [now f_equal|exact IH].
Qed.

Lemma entries_of_removed (X Y : string) (prev : list Product) :
  Y <> X ->
  entries_of X
    (filter (fun product => negb (id (data product) =? Y)%string) prev)
  = entries_of X prev.
Proof.
  intros Hne. unfold entries_of.
  induction prev as [|p rest IH]; [reflexivity|]. cbn [filter].
  destruct (String.eqb_spec (id (data p)) Y) as [Hy|Hy]; cbn [negb filter].
  - rewrite Hy, (proj2 (String.eqb_neq _ _) Hne). exact IH.
  - destruct (id (data p) =? X)%string; [now f_equal|exact IH].
Qed.

Lemma entries_of_rendered (X : string) (products : list Product) :
  In X (rendered_ids products) <-> entries_of X products <> [].
Proof.
  unfold rendered_ids, entries_of. rewrite in_map_iff. split.
  - intros [p [Hid Hin]] Hnil.
    assert (Hp : In p (filter (fun p => id (data p) =? X)%string products))
      by (apply filter_In; split; [exact Hin|now apply String.eqb_eq]).
    rewrite Hnil in Hp. destruct Hp.
  - intros Hne.
    destruct (filter (fun p => id (data p) =? X)%string products)
      as [|p rest] eqn:E; [now elim Hne|].
    assert (Hp : In p (filter (fun p => id (data p) =? X)%string products))
      by (rewrite E; now left).
    apply filter_In in Hp. destruct Hp as [Hin Hid].
    exists p. split; [now apply String.eqb_eq|exact Hin].
Qed.

Lemma on_event_other_entries (e : Event) (X : string) (prev : list Product) :
  rec_id (record e) <> X ->
  entries_of X (on_event e prev) = entries_of X prev.
Proof.
  intros Hne. unfold on_event. destruct (action e).
  - destruct (visible (record e)); [|reflexivity].
    unfold entries_of. cbn [filter data transformRecord id].
    now rewrite (proj2 (String.eqb_neq _ _) Hne).
  - destruct (visible (record e)).
    + destruct (find _ prev).
      * now apply entries_of_mapped.
      * unfold entries_of. cbn [filter data transformRecord id].
        now rewrite (proj2 (String.eqb_neq _ _) Hne).
    + now apply entries_of_removed.
  - now apply entries_of_removed.
Qed.

(** X11. An event about one product never touches the entries of another:
    for every event and every product id [X] other than the id of the
    event's record, the entries of [X] in the list, and so whether [X] is
    rendered, are as before. *)
Theorem event_leaves_other_products (e : Event) (X : string)
    (prev : list Product) :
  rec_id (record e) <> X ->
  entries_of X (on_event e prev) = entries_of X prev /\
  (In X (rendered_ids (on_event e prev)) <-> In X (rendered_ids prev)).
Proof.
  intros Hne. pose proof (on_event_other_entries e X prev Hne) as H.
  split; [exact H|]. now rewrite !entries_of_rendered, H.
Qed.

Lemma event_leaves_other_products_witness :
  In "hojicha"
     (rendered_ids (on_event (mkEvent delete (genmaicha true None)) [hojicha]))
  <-> In "hojicha" (rendered_ids [hojicha]).
Proof.
  apply (event_leaves_other_products (mkEvent delete (genmaicha true None))
           "hojicha" [hojicha]).
  discriminate.
Defined.

Lemma replay_others (events : list Event) (X : string) (prev : list Product) :
  Forall (fun e => rec_id (record e) <> X) events ->
  entries_of X (replay events prev) = entries_of X prev.
Proof.
  unfold replay. revert prev.
  induction events as [|e rest IH]; intros prev Hall; [reflexivity|].
  inversion Hall as [|? ? He Hrest]; subst. cbn [fold_left].
  rewrite IH by assumption.
  now apply on_event_other_entries.
Qed.

Lemma update_rendered_iff (r : PocketBaseProduct) (prev : list Product) :
  In (rec_id r) (rendered_ids (on_event (mkEvent update r) prev))
  <-> visible r = true.
Proof.
  unfold on_event. cbn [action record]. destruct (visible r).
  - split; [reflexivity|intros _].
    destruct (find _ prev) as [p|] eqn:E; [|now left].
    apply find_some in E. destruct E as [Hin Hid].
    unfold rendered_ids. rewrite map_map. apply in_map_iff.
    exists p. split; [|exact Hin]. now rewrite Hid.
  - split; [|discriminate]. intros Hin.
    now elim (GridFacts.removed_not_rendered (rec_id r) prev).
Qed.

(** X12. The last event about a product decides whether it is rendered:
    after an update event for record [r] followed by any events about other
    products, the product is rendered exactly when [r] is in stock and not
    hidden; after a delete event followed by events about other products it
    is not rendered. *)
Theorem last_event_decides (r : PocketBaseProduct) (later : list Event)
    (prev : list Product) :
  Forall (fun e => rec_id (record e) <> rec_id r) later ->
  (In (rec_id r) (rendered_ids (replay (mkEvent update r :: later) prev))
   <-> visible r = true) /\
  ~ In (rec_id r) (rendered_ids (replay (mkEvent delete r :: later) prev)).
Proof.
  intros Hlater. unfold replay. cbn [fold_left]. fold (replay later).
  rewrite !entries_of_rendered, !replay_others by assumption.
  rewrite <- !entries_of_rendered. split.
  - apply update_rendered_iff.
  - cbn [on_event action record]. apply GridFacts.removed_not_rendered.
Qed.

Lemma last_event_decides_witness :
  ~ In "genmaicha"
       (rendered_ids
          (replay [mkEvent delete (genmaicha true None);
                   mkEvent update (transformed_back hojicha)]
                  [hojicha])).
Proof.
  refine (proj2 (last_event_decides (genmaicha true None)
                   [mkEvent update (transformed_back hojicha)] [hojicha] _)).
  repeat constructor. discriminate.
Defined.

(** *** Unique ids in the rendered list *)

Lemma NoDup_map_filter {A B} (f : A -> B) (keep : A -> bool) (l : list A) :
  NoDup (map f l) -> NoDup (map f (filter keep l)).
Proof.
  induction l as [|x rest IH]; intros Hnd; [exact Hnd|].
  cbn [map] in Hnd. inversion Hnd as [|? ? Hnotin Hnd']; subst.
  cbn [filter]. destruct (keep x); [|now apply IH].
  cbn [map]. constructor; [|now apply IH].
  intros Hin. apply Hnotin. apply in_map_iff in Hin.
  destruct Hin as [y [Hy Hin]]. apply filter_In in Hin.
  apply in_map_iff. exists y. tauto.
Qed.

Lemma replaced_ids (r : PocketBaseProduct) (prev : list Product) :
  rendered_ids
    (map (fun product =>
            if (id (data product) =? rec_id r)%string
            then transformRecord r else product) prev)
  = rendered_ids prev.
Proof.
  unfold rendered_ids. rewrite map_map. apply map_ext. intros p.
  destruct (String.eqb_spec (id (data p)) (rec_id r)) as [E|_];
    [now rewrite E|reflexivity].
Qed.

(** X13. Update and delete events keep the rendered product ids free of
    duplicates, and so does a create event for a product that is not
    rendered; a create event for a visible product that is already rendered
    adds a second entry with the same id. *)
Theorem rendered_ids_unique (e : Event) (prev : list Product) :
  NoDup (rendered_ids prev) ->
  (action e <> create -> NoDup (rendered_ids (on_event e prev))) /\
  (action e = create -> ~ In (rec_id (record e)) (rendered_ids prev) ->
   NoDup (rendered_ids (on_event e prev))) /\
  (action e = create -> visible (record e) = true ->
   In (rec_id (record e)) (rendered_ids prev) ->
   ~ NoDup (rendered_ids (on_event e prev))).
Proof.
  intros Hnd. unfold on_event. split; [|split].
  - intros Hne. destruct (action e); [now elim Hne| |].
    + destruct (visible (record e)).
      * destruct (find _ prev) eqn:E.
        -- now rewrite replaced_ids.
        -- cbn [rendered_ids map]. constructor; [|exact Hnd].
           intros Hin. destruct (GridFacts.find_by_id_some _ _ Hin) as [p Hp].
           pose proof (eq_trans (eq_sym E) Hp) as Habs. discriminate Habs.
      * now apply NoDup_map_filter.
    + now apply NoDup_map_filter.
  - intros -> Habs. destruct (visible (record e)); [|exact Hnd].
    cbn [rendered_ids map]. now constructor.
  - intros -> -> Hin Hnd'. cbn [rendered_ids map] in Hnd'.
    inversion Hnd' as [|? ? Hnotin _]; subst. now apply Hnotin.
Qed.

Lemma rendered_ids_unique_witness :
  NoDup (rendered_ids
           (on_event (mkEvent update (genmaicha true None)) [hojicha])).
Proof.
  refine (proj1 (rendered_ids_unique (mkEvent update (genmaicha true None))
                   [hojicha] _) _).
  - repeat constructor. intros [].
  - discriminate.
Defined.

(** *** The initial fetch *)

Lemma transformFallback_id (r : PocketBaseProduct) :
  id (data (transformFallback r)) = rec_id r.
Proof. reflexivity. Qed.

(** X14. [fetchProducts] lists, in the order of the answer: every record
    of the filtered answer when that query is served, whatever the second
    query would give; otherwise the records of the unfiltered answer that
    are not hidden, so that no hidden record is listed; and nothing when
    both queries are rejected. *)
Theorem fetchProducts_paths (filtered unfiltered : option (list PocketBaseProduct)) :
  (forall records, filtered = Some records ->
     rendered_ids (fetchProducts filtered unfiltered) = map rec_id records) /\
  (forall records, filtered = None -> unfiltered = Some records ->
     rendered_ids (fetchProducts filtered unfiltered)
     = map rec_id (filter (fun r => negb (hidden r)) records) /\
     (forall p, In p (fetchProducts filtered unfiltered) ->
        exists r, In r records /\ hidden r = false /\ p = transformFallback r)) /\
  (filtered = None -> unfiltered = None ->
     fetchProducts filtered unfiltered = []).
Proof.
  split; [|split].
  - intros records ->. unfold fetchProducts, rendered_ids.
    rewrite map_map. now apply map_ext.
  - intros records -> ->. unfold fetchProducts, rendered_ids. split.
    + rewrite map_map. now apply map_ext.
    + intros p Hin. apply in_map_iff in Hin. destruct Hin as [r [<- Hin]].
      apply filter_In in Hin. destruct Hin as [Hin Hvis].
      exists r. split; [exact Hin|]. split; [|reflexivity].
      now apply negb_true_iff.
  - now intros -> ->.
Qed.

Lemma fetchProducts_paths_witness :
  rendered_ids
    (fetchProducts None
       (Some [genmaicha true (Some true); genmaicha false None]))
  = map rec_id
      (filter (fun r => negb (hidden r))
              [genmaicha true (Some true); genmaicha false None]).
Proof.
  exact (proj1 (proj1 (proj2
           (fetchProducts_paths None
              (Some [genmaicha true (Some true); genmaicha false None])))
           _ eq_refl eq_refl)).
Defined.

(** X15. The fetch and the events disagree on products that are out of
    stock: a record that is not hidden and not in stock is listed by
    [fetchProducts] (when the record store returns it), and the update event
    for the very same record then takes it off the list. *)
Theorem out_of_stock_listed_until_updated (r : PocketBaseProduct)
    (filtered unfiltered : option (list PocketBaseProduct)) :
  hidden r = false -> rec_in_stock r = false ->
  ((exists records, filtered = Some records /\ In r records) \/
   (filtered = None /\ exists records, unfiltered = Some records /\ In r records)) ->
  In (rec_id r) (rendered_ids (fetchProducts filtered unfiltered)) /\
  ~ In (rec_id r)
       (rendered_ids
          (on_event (mkEvent update r) (fetchProducts filtered unfiltered))).
Proof.
  intros Hhid Hstock Hlisted. split.
  - unfold fetchProducts, rendered_ids.
    destruct Hlisted as [(records & -> & Hin)|(-> & records & -> & Hin)].
    + rewrite map_map. apply in_map_iff. exists r. now split.
    + rewrite map_map. apply in_map_iff. exists r. split; [reflexivity|].
      apply filter_In. split; [exact Hin|]. now rewrite Hhid.
  - unfold on_event. cbn [action record]. unfold visible. rewrite Hstock.
    cbn [andb]. apply GridFacts.removed_not_rendered.
Qed.

Lemma out_of_stock_listed_until_updated_witness :
  In "genmaicha"
     (rendered_ids (fetchProducts (Some [genmaicha false None]) None)) /\
  ~ In "genmaicha"
       (rendered_ids
          (on_event (mkEvent update (genmaicha false None))
                    (fetchProducts (Some [genmaicha false None]) None))).
Proof.
  apply (out_of_stock_listed_until_updated (genmaicha false None)
           (Some [genmaicha false None]) None eq_refl eq_refl).
  left. exists [genmaicha false None]. split; [reflexivity|now left].
Defined.

(** X16. The two branches of the fetch treat a stored sale price of 0
    differently (the first drops it, the fallback keeps it), but a cart line
    made from either product is charged the same unit price. *)
Theorem fetch_branches_charge_the_same (r : PocketBaseProduct) (q : Z) :
  CartContext.effectivePrice (mkCartItem (data (transformRecord r)) q)
  = CartContext.effectivePrice (mkCartItem (data (transformFallback r)) q) /\
  (forall s, rec_sale_price r = Some s -> (s == 0)%Q ->
     sale_price (data (transformRecord r)) = None /\
     sale_price (data (transformFallback r)) = Some s /\
     CartContext.effectivePrice (mkCartItem (data (transformFallback r)) q)
     = rec_price r).
Proof.
  unfold CartContext.effectivePrice.
  cbn [details data transformRecord transformFallback sale_price price].
  split.
  - destruct (rec_sale_price r) as [s|]; [|reflexivity].
    destruct (Qeq_bool s 0) eqn:E; cbn [truthy_num]; rewrite ?E; reflexivity.
  - intros s -> Hs. apply Qeq_bool_iff in Hs. cbn [truthy_num].
    rewrite Hs. now repeat split.
Qed.

Lemma fetch_branches_charge_the_same_witness :
  sale_price (data (transformRecord (genmaicha true None))) = None /\
  sale_price (data (transformFallback (genmaicha true None))) = Some 0%Q /\
  CartContext.effectivePrice
    (mkCartItem (data (transformFallback (genmaicha true None))) 2)
  = 9%Q.
Proof.
  apply (proj2 (fetch_branches_charge_the_same (genmaicha true None) 2)
           0%Q eq_refl).
  reflexivity.
Defined.

End GridExtras.

(** * The program logic of the checkout handlers *)

Module CheckoutRules.

Import CartContext Checkout CheckoutSpec CheckoutLogic.

Local Open Scope handler_scope.

Lemma hoare_ret {A} (P : World -> Prop) (a : A) Q E :
  (forall w, P w -> Q a w) -> hoare P (ret a) Q E.
Proof. intros H w Hw. now apply H. Qed.

Lemma hoare_throw {A} (P : World -> Prop) (msg : string)
    (Q : A -> World -> Prop) E :
  (forall w, P w -> E msg w) -> hoare P (throw msg) Q E.
Proof. intros H w Hw. now apply H. Qed.

Lemma hoare_bind {A B} (P : World -> Prop) (m : M A) (k : A -> M B)
    (R : A -> World -> Prop) Q E :
  hoare P m R E -> (forall a, hoare (R a) (k a) Q E) -> hoare P (bind m k) Q E.
Proof.
  intros Hm Hk w Hw. unfold bind. specialize (Hm w Hw).
  destruct (m w) as [[a|e] w']; [now apply Hk|exact Hm].
Qed.

Lemma hoare_try_catch {A} (P : World -> Prop) (m : M A) (h : string -> M A)
    (R : string -> World -> Prop) Q E :
  hoare P m Q R -> (forall e, hoare (R e) (h e) Q E) ->
  hoare P (try_catch m h) Q E.
Proof.
  intros Hm Hh w Hw. unfold try_catch. specialize (Hm w Hw).
  destruct (m w) as [[a|e] w']; [exact Hm|now apply Hh].
Qed.

Lemma hoare_finally {A} (P : World -> Prop) (m : M A) (f : M unit)
    (R : A -> World -> Prop) (S : string -> World -> Prop) Q E :
  hoare P m R S ->
  (forall a, hoare (R a) f (fun _ => Q a) E) ->
  (forall e, hoare (S e) f (fun _ => E e) E) ->
  hoare P (finally m f) Q E.
Proof.
  intros Hm Hv He w Hw. unfold finally. specialize (Hm w Hw).
  destruct (m w) as [[a|e] w'].
  - specialize (Hv a w' Hm). now destruct (f w') as [[[]|e'] w''].
  - specialize (He e w' Hm). now destruct (f w') as [[[]|e'] w''].
Qed.

Lemma hoare_weaken {A} (P P' : World -> Prop) (m : M A)
    (Q Q' : A -> World -> Prop) (E E' : string -> World -> Prop) :
  hoare P' m Q' E' ->
  (forall w, P w -> P' w) ->
  (forall a w, Q' a w -> Q a w) ->
  (forall e w, E' e w -> E e w) ->
  hoare P m Q E.
Proof.
  intros Hm HP HQ HE w Hw. specialize (Hm w (HP w Hw)).
  destruct (m w) as [[a|e] w']; auto.
Qed.

Lemma keeps_safely_keeps {A} (I : World -> Prop) (m : M A) :
  keeps_safely I m -> keeps I m.
Proof.
  intros H. apply (hoare_weaken I I m _ (fun _ => I) _ (fun _ _ => False) H);
    auto; contradiction.
Qed.

Lemma keeps_for_each {A} (I : World -> Prop) (f : A -> M unit) (l : list A) :
  (forall x, In x l -> keeps I (f x)) -> keeps I (for_each f l).
Proof.
  induction l as [|x rest IH]; intros Hf; cbn [for_each].
  - now apply hoare_ret.
  - apply (hoare_bind I _ _ (fun _ => I)); [apply Hf; now left|].
    intros _. apply IH. intros y Hy. apply Hf. now right.
Qed.

Lemma keeps_safely_for_each {A} (I : World -> Prop) (f : A -> M unit)
    (l : list A) :
  (forall x, In x l -> keeps_safely I (f x)) -> keeps_safely I (for_each f l).
Proof.
  induction l as [|x rest IH]; intros Hf; cbn [for_each].
  - now apply hoare_ret.
  - apply (hoare_bind I _ _ (fun _ => I)); [apply Hf; now left|].
    intros _. apply IH. intros y Hy. apply Hf. now right.
Qed.

(** Settling a batch never rejects; it keeps what every callback keeps. *)
Lemma keeps_settle_all {A B} (I : World -> Prop) (f : A -> M B) (l : list A) :
  (forall x, In x l -> keeps I (f x)) -> keeps_safely I (settle_all f l).
Proof.
  induction l as [|x rest IH]; intros Hf w Hw; cbn [settle_all].
  - exact Hw.
  - pose proof (Hf x (or_introl eq_refl) w Hw) as Hx.
    destruct (f x w) as [r w'].
    assert (Hw' : I w') by (destruct r; exact Hx).
    pose proof (IH (fun y Hy => Hf y (or_intror Hy)) w' Hw') as Hrest.
    destruct (settle_all f rest w') as [[rs|e] w'']; exact Hrest.
Qed.

Lemma keeps_promise_all {A B} (I : World -> Prop) (f : A -> M B) (l : list A) :
  (forall x, In x l -> keeps I (f x)) -> keeps I (promise_all f l).
Proof.
  intros Hf. unfold promise_all.
  apply (hoare_bind I _ _ (fun _ => I)).
  - apply keeps_safely_keeps. now apply keeps_settle_all.
  - intros rs. destruct (all_values rs); [now apply hoare_ret|now apply hoare_throw].
Qed.

(** A batch of callbacks that never reject is never rejected. *)
Lemma settled_safely {A B} (I : World -> Prop) (f : A -> M B) (l : list A) :
  (forall x, In x l -> keeps_safely I (f x)) ->
  hoare I (settle_all f l)
        (fun rs w => I w /\ is_throw (all_values rs) = false)
        (fun _ _ => False).
Proof.
  induction l as [|x rest IH]; intros Hf w Hw; cbn [settle_all].
  - now split.
  - pose proof (Hf x (or_introl eq_refl) w Hw) as Hx.
    destruct (f x w) as [[b|e] w']; [|contradiction].
    pose proof (IH (fun y Hy => Hf y (or_intror Hy)) w' Hx) as Hrest.
    destruct (settle_all f rest w') as [[rs|e] w'']; [|contradiction].
    destruct Hrest as [Hw'' Hrs]. split; [exact Hw''|].
    cbn [all_values]. now destruct (all_values rs).
Qed.

Lemma keeps_safely_promise_all {A B} (I : World -> Prop) (f : A -> M B)
    (l : list A) :
  (forall x, In x l -> keeps_safely I (f x)) ->
  keeps_safely I (promise_all f l).
Proof.
  intros Hf. unfold promise_all.
  apply (hoare_bind I _ _ (fun rs w => I w /\ is_throw (all_values rs) = false)).
  - now apply settled_safely.
  - intros rs w [Hw Hrs]. destruct (all_values rs); [exact Hw|discriminate].
Qed.




End CheckoutRules.

(** * Further properties of the checkout sequencer *)

Module CheckoutExtras.

Import CartContext CartSpec Checkout CheckoutSpec CheckoutFacts CheckoutLogic
       CheckoutRules.

Local Open Scope handler_scope.

(** Split a triple on the script and on the rows found. *)
Ltac run_world :=
  cbv beta iota zeta delta
      [bind ret throw try_catch finally fst snd request next_outcome
       log_call set_script set_backend get_backend get_cart console_print
       console_log console_error toast toast_success toast_error
       insert_order insert_item patch_row has_row
       setCart setCurrentStep setClientSecret setLoading navigate open_intent
       pb_users_getOne pb_orders_create fetch_orders_post
       pb_order_items_create fetch_order_items_post pb_products_getOne
       fetch_products_get pb_products_update fetch_products_patch
       sendOrderConfirmationEmailJS
       backend script trace intents console toasts cart currentStep
       clientSecret loading route orders order_items products].

Ltac hoare_cases :=
  let HP := fresh "HP" in
  intros [b s tr ints con tst crt stp sec ld rt] HP;
  world_cases; run_world;
  cbn [backend script trace intents console toasts cart currentStep
       clientSecret loading route orders order_items products] in HP |- *.

(** *** The product rows *)

Lemma newStock_nonneg (currentProduct : ProductRow) (item : CartItem) :
  0 <= newStock currentProduct item.
Proof. unfold newStock. apply Z.le_max_l. Qed.

Lemma patched_rows_sound (ids : list string) (pid : string)
    (patch : ProductRow -> ProductRow) (rows : list ProductRow) :
  (forall r, row_id (patch r) = row_id r /\ nonneg_row (patch r)) ->
  map row_id rows = ids /\ Forall nonneg_row rows ->
  map row_id (map (fun r => if (row_id r =? pid)%string then patch r else r) rows)
  = ids /\
  Forall nonneg_row
    (map (fun r => if (row_id r =? pid)%string then patch r else r) rows).
Proof.
  intros Hpatch [Hids Hrows]. split.
  - rewrite <- Hids, map_map. apply map_ext. intros r.
    destruct (row_id r =? pid)%string; [apply Hpatch|reflexivity].
  - apply Forall_forall. intros r' Hin. apply in_map_iff in Hin.
    destruct Hin as [r [<- Hin]].
    destruct (row_id r =? pid)%string; [apply Hpatch|].
    now apply (proj1 (Forall_forall _ _) Hrows).
Qed.

Lemma direct_patch_sound (cur : ProductRow) (item : CartItem) (r : ProductRow) :
  row_id (direct_stock_patch (newStock cur item) r) = row_id r /\
  nonneg_row (direct_stock_patch (newStock cur item) r).
Proof. split; [reflexivity|apply newStock_nonneg]. Qed.

Lemma paid_patch_sound (cur : ProductRow) (item : CartItem) (r : ProductRow) :
  row_id (paid_stock_patch (newStock cur item) r) = row_id r /\
  nonneg_row (paid_stock_patch (newStock cur item) r).
Proof. split; [reflexivity|apply newStock_nonneg]. Qed.

Ltac rows_done :=
  unfold rows_sound in *;
  cbn [backend products] in *;
  first [assumption
        |apply patched_rows_sound;
         [first [apply direct_patch_sound|apply paid_patch_sound]|assumption]].

Section Rows.

Variable isOAuthUser : option User -> bool.
Variable user : option User.
Variable shippingInfo : ShippingInfo.
Variable ids : list string.

Lemma identify_rows : keeps (rows_sound ids) (identify isOAuthUser user).
Proof.
  unfold keeps, identify.
  destruct user as [u|]; [destruct (truthy_str (user_id u));
                          [destruct (isOAuthUser (Some u))|]|];
    hoare_cases; rows_done.
Qed.

Lemma direct_create_order_rows d :
  keeps (rows_sound ids) (direct_create_order d).
Proof. unfold keeps, direct_create_order. hoare_cases; rows_done. Qed.

Lemma paid_create_order_rows d :
  keeps (rows_sound ids) (paid_create_order user d).
Proof. unfold keeps, paid_create_order. destruct user; hoare_cases; rows_done. Qed.

Lemma direct_create_item_rows order item :
  keeps (rows_sound ids) (direct_create_item order item).
Proof. unfold keeps, direct_create_item. hoare_cases; rows_done. Qed.

Lemma paid_create_item_rows order item :
  keeps (rows_sound ids) (paid_create_item user order item).
Proof. unfold keeps, paid_create_item. destruct user; hoare_cases; rows_done. Qed.

Lemma direct_update_stock_rows item :
  keeps (rows_sound ids) (direct_update_stock item).
Proof. unfold keeps, direct_update_stock. hoare_cases; rows_done. Qed.

Lemma paid_update_stock_rows item :
  keeps (rows_sound ids) (paid_update_stock user item).
Proof. unfold keeps, paid_update_stock. destruct user; hoare_cases; rows_done. Qed.

End Rows.

(** *** Composing the handlers from their pieces *)

Lemma backend_kept_keeps {A} (I : World -> Prop) (m : M A) :
  about_backend I -> backend_kept m -> keeps I m.
Proof.
  intros HI Hm w Hw. specialize (Hm w).
  destruct (m w) as [[a|e] w']; cbn [snd] in Hm; now apply (HI w w').
Qed.

Ltac untouched :=
  intros [b s tr ints con tst crt stp sec ld rt]; world_cases; reflexivity.

Lemma setLoading_backend v : backend_kept (setLoading v).
Proof. untouched. Qed.
Lemma get_cart_backend : backend_kept get_cart.
Proof. untouched. Qed.
Lemma setCart_backend c : backend_kept (setCart c).
Proof. untouched. Qed.
Lemma navigate_backend to : backend_kept (navigate to).
Proof. untouched. Qed.
Lemma console_error_backend msg : backend_kept (console_error msg).
Proof. untouched. Qed.
Lemma toast_error_backend msg : backend_kept (toast_error msg).
Proof. untouched. Qed.
Lemma toast_success_backend msg : backend_kept (toast_success msg).
Proof. untouched. Qed.
Lemma throw_backend {A} msg : backend_kept (@throw A msg).
Proof. untouched. Qed.
Lemma direct_send_email_backend : backend_kept direct_send_email.
Proof. unfold direct_send_email. untouched. Qed.

Section Composition.

Variable isOAuthUser : option User -> bool.
Variable user : option User.
Variable shippingInfo : ShippingInfo.
Variable I : World -> Prop.
Hypothesis I_backend : about_backend I.
Hypothesis I_identify : keeps I (identify isOAuthUser user).

Ltac step := apply (hoare_bind I _ _ (fun _ => I)); [|intros ?].
Ltac ui lemma := apply (backend_kept_keeps I _ I_backend); apply lemma.

Lemma handleOrderCreation_keeps :
  (forall d, keeps I (direct_create_order d)) ->
  (forall order item, keeps I (direct_create_item order item)) ->
  (forall item, keeps I (direct_update_stock item)) ->
  keeps I (handleOrderCreation isOAuthUser user shippingInfo).
Proof.
  intros Hcreate Hitem Hstock. unfold keeps, handleOrderCreation.
  apply (hoare_finally I _ _ (fun _ => I) (fun _ => I)).
  - apply (hoare_try_catch I _ _ (fun _ => I)).
    + step; [ui setLoading_backend|]. step; [ui get_cart_backend|].
      unfold direct_sequence. cbv zeta.
      step; [exact I_identify|]. step; [apply Hcreate|].
      unfold direct_after_order.
      step; [apply keeps_for_each; intros; apply Hitem|].
      step; [apply keeps_for_each; intros; apply Hstock|].
      step; [ui direct_send_email_backend|].
      step; [ui setCart_backend|]. ui navigate_backend.
    + intros e. step; [ui console_error_backend|].
      step; [ui toast_error_backend|]. ui (@throw_backend unit).
  - intros _. ui setLoading_backend.
  - intros _. ui setLoading_backend.
Qed.

Lemma handlePaymentSuccess_keeps :
  (forall d, keeps I (paid_create_order user d)) ->
  (forall order item, keeps I (paid_create_item user order item)) ->
  (forall item, keeps I (paid_update_stock user item)) ->
  keeps I (handlePaymentSuccess isOAuthUser user shippingInfo).
Proof.
  intros Hcreate Hitem Hstock. unfold keeps, handlePaymentSuccess.
  apply (hoare_finally I _ _ (fun _ => I) (fun _ => I)).
  - apply (hoare_try_catch I _ _ (fun _ => I)).
    + step; [ui setLoading_backend|]. step; [ui get_cart_backend|].
      unfold paid_sequence. cbv zeta.
      step; [exact I_identify|]. step; [apply Hcreate|].
      unfold paid_after_order.
      step; [apply keeps_promise_all; intros; apply Hitem|].
      step; [apply keeps_promise_all; intros; apply Hstock|].
      step; [ui setCart_backend|]. step; [ui toast_success_backend|].
      ui navigate_backend.
    + intros e. step; [ui console_error_backend|]. ui toast_error_backend.
  - intros _. ui setLoading_backend.
  - intros _. ui setLoading_backend.
Qed.

End Composition.

Lemma rows_sound_backend ids : about_backend (rows_sound ids).
Proof. intros w w' Hb. unfold rows_sound. now rewrite Hb. Qed.

(** X17. Whatever requests fail, neither finalize path adds, removes or
    renames a product row, and neither ever writes a negative stock: when no
    row had a negative stock before, none has one after. *)
Theorem checkout_never_writes_negative_stock
    (isOAuthUser : option User -> bool) (user : option User)
    (shippingInfo : ShippingInfo) (w : World) :
  Forall nonneg_row (products (backend w)) ->
  let w1 := exec (handleOrderCreation isOAuthUser user shippingInfo) w in
  let w2 := exec (handlePaymentSuccess isOAuthUser user shippingInfo) w in
  (map row_id (products (backend w1)) = map row_id (products (backend w)) /\
   Forall nonneg_row (products (backend w1))) /\
  (map row_id (products (backend w2)) = map row_id (products (backend w)) /\
   Forall nonneg_row (products (backend w2))).
Proof.
  intros Hrows. cbv zeta.
  set (ids := map row_id (products (backend w))).
  assert (Hw : rows_sound ids w) by now split.
  split.
  - pose proof (handleOrderCreation_keeps isOAuthUser user shippingInfo
                  (rows_sound ids) (rows_sound_backend ids)
                  (identify_rows isOAuthUser user ids)
                  (direct_create_order_rows ids)
                  (direct_create_item_rows ids)
                  (direct_update_stock_rows ids) w Hw) as H.
    unfold exec.
    destruct (handleOrderCreation isOAuthUser user shippingInfo w)
      as [[[]|e] w']; exact H.
  - pose proof (handlePaymentSuccess_keeps isOAuthUser user shippingInfo
                  (rows_sound ids) (rows_sound_backend ids)
                  (identify_rows isOAuthUser user ids)
                  (paid_create_order_rows user ids)
                  (paid_create_item_rows user ids)
                  (paid_update_stock_rows user ids) w Hw) as H.
    unfold exec.
    destruct (handlePaymentSuccess isOAuthUser user shippingInfo w)
      as [[[]|e] w']; exact H.
Qed.

Lemma checkout_never_writes_negative_stock_witness :
  Forall nonneg_row
    (products (backend (exec (handlePaymentSuccess never_oauth None alice)
                             (start [] [mkCartItem sencha 5])))).
Proof.
  refine (proj2 (proj2 (checkout_never_writes_negative_stock never_oauth None
                          alice (start [] [mkCartItem sencha 5]) _))).
  repeat constructor; cbn; lia.
Defined.

(** *** The [in_stock] flag *)

Lemma patched_flags (flags : list bool) (pid : string) (n : Z)
    (rows : list ProductRow) :
  map row_in_stock rows = flags ->
  map row_in_stock
    (map (fun r => if (row_id r =? pid)%string then paid_stock_patch n r else r)
         rows) = flags.
Proof.
  intros <-. rewrite map_map. apply map_ext. intros r.
  now destruct (row_id r =? pid)%string.
Qed.

Lemma patched_in_step (rows0 : list ProductRow) (pid : string) (n : Z)
    (rows : list ProductRow) :
  Forall (fun r => In r rows0 \/ flag_in_step r) rows ->
  Forall (fun r => In r rows0 \/ flag_in_step r)
    (map (fun r => if (row_id r =? pid)%string then direct_stock_patch n r else r)
         rows).
Proof.
  intros Hrows. apply Forall_forall. intros r' Hin. apply in_map_iff in Hin.
  destruct Hin as [r [<- Hin]].
  destruct (row_id r =? pid)%string.
  - right. exists n. now split.
  - now apply (proj1 (Forall_forall _ _) Hrows).
Qed.

Ltac flags_done :=
  unfold flags_are, flags_in_step in *;
  cbn [backend products] in *;
  first [assumption | now apply patched_flags | now apply patched_in_step].

Section Flags.

Variable isOAuthUser : option User -> bool.
Variable user : option User.
Variable shippingInfo : ShippingInfo.
Variable flags : list bool.
Variable rows0 : list ProductRow.

Lemma identify_flags : keeps (flags_are flags) (identify isOAuthUser user).
Proof.
  unfold keeps, identify.
  destruct user as [u|]; [destruct (truthy_str (user_id u));
                          [destruct (isOAuthUser (Some u))|]|];
    hoare_cases; flags_done.
Qed.

Lemma identify_in_step : keeps (flags_in_step rows0) (identify isOAuthUser user).
Proof.
  unfold keeps, identify.
  destruct user as [u|]; [destruct (truthy_str (user_id u));
                          [destruct (isOAuthUser (Some u))|]|];
    hoare_cases; flags_done.
Qed.

Lemma paid_create_order_flags d :
  keeps (flags_are flags) (paid_create_order user d).
Proof. unfold keeps, paid_create_order. destruct user; hoare_cases; flags_done. Qed.

Lemma paid_create_item_flags order item :
  keeps (flags_are flags) (paid_create_item user order item).
Proof. unfold keeps, paid_create_item. destruct user; hoare_cases; flags_done. Qed.

Lemma paid_update_stock_flags item :
  keeps (flags_are flags) (paid_update_stock user item).
Proof. unfold keeps, paid_update_stock. destruct user; hoare_cases; flags_done. Qed.

Lemma direct_create_order_in_step d :
  keeps (flags_in_step rows0) (direct_create_order d).
Proof. unfold keeps, direct_create_order. hoare_cases; flags_done. Qed.

Lemma direct_create_item_in_step order item :
  keeps (flags_in_step rows0) (direct_create_item order item).
Proof. unfold keeps, direct_create_item. hoare_cases; flags_done. Qed.

Lemma direct_update_stock_in_step item :
  keeps (flags_in_step rows0) (direct_update_stock item).
Proof. unfold keeps, direct_update_stock. hoare_cases; flags_done. Qed.

End Flags.

Lemma flags_are_backend flags : about_backend (flags_are flags).
Proof. intros w w' Hb. unfold flags_are. now rewrite Hb. Qed.

Lemma flags_in_step_backend rows0 : about_backend (flags_in_step rows0).
Proof. intros w w' Hb. unfold flags_in_step. now rewrite Hb. Qed.

(** X18. Whatever requests fail, the payment-success path never changes the
    [in_stock] flag of a product row, whereas every row the direct path
    changes ends with its flag in step with its stock ([in_stock] exactly
    when the stock is positive). *)
Theorem in_stock_flag_after_checkout
    (isOAuthUser : option User -> bool) (user : option User)
    (shippingInfo : ShippingInfo) (w : World) :
  map row_in_stock
    (products (backend (exec (handlePaymentSuccess isOAuthUser user shippingInfo) w)))
  = map row_in_stock (products (backend w)) /\
  (forall r,
      In r (products
              (backend (exec (handleOrderCreation isOAuthUser user shippingInfo) w))) ->
      In r (products (backend w)) \/
      exists n, row_stock r = Some n /\ row_in_stock r = (n >? 0)).
Proof.
  split.
  - set (flags := map row_in_stock (products (backend w))).
    pose proof (handlePaymentSuccess_keeps isOAuthUser user shippingInfo
                  (flags_are flags) (flags_are_backend flags)
                  (identify_flags isOAuthUser user flags)
                  (paid_create_order_flags user flags)
                  (paid_create_item_flags user flags)
                  (paid_update_stock_flags user flags) w eq_refl) as H.
    unfold exec.
    destruct (handlePaymentSuccess isOAuthUser user shippingInfo w)
      as [[[]|e] w']; exact H.
  - set (rows0 := products (backend w)).
    assert (Hw : flags_in_step rows0 w)
      by (apply Forall_forall; intros r Hr; now left).
    pose proof (handleOrderCreation_keeps isOAuthUser user shippingInfo
                  (flags_in_step rows0) (flags_in_step_backend rows0)
                  (identify_in_step isOAuthUser user rows0)
                  (direct_create_order_in_step rows0)
                  (direct_create_item_in_step rows0)
                  (direct_update_stock_in_step rows0) w Hw) as H.
    unfold exec.
    destruct (handleOrderCreation isOAuthUser user shippingInfo w)
      as [[[]|e] w']; cbn [snd];
      intros r Hr; exact (proj1 (Forall_forall _ _) H r Hr).
Qed.

Lemma in_stock_flag_after_checkout_witness :
  In (mkProductRow "sencha" (Some 0) false)
     (products (backend (start [] [mkCartItem sencha 5]))) \/
  exists n,
    row_stock (mkProductRow "sencha" (Some 0) false) = Some n /\
    row_in_stock (mkProductRow "sencha" (Some 0) false) = (n >? 0).
Proof.
  apply (proj2 (in_stock_flag_after_checkout never_oauth None alice
                  (start [] [mkCartItem sencha 5]))).
  vm_compute. now left.
Defined.

(** *** How the two handlers end *)

Ltac phase_done :=
  unfold ordered_stock_kept, untouched, ordered, ended_well, mailed, gave_up,
         stock_and_ui_kept, order_added, ui_as in *;
  cbn [backend script trace intents console toasts cart currentStep
       clientSecret loading route orders order_items products] in *;
  repeat match goal with
         | H : _ /\ _ |- _ => destruct H
         end;
  subst;
  repeat split;
  first [assumption | congruence | contradiction | eauto].

Section Outcome.

Variable isOAuthUser : option User -> bool.
Variable user : option User.
Variable shippingInfo : ShippingInfo.
Variable w0 : World.

Lemma identify_untouched :
  keeps_safely (untouched w0) (identify isOAuthUser user).
Proof.
  unfold keeps_safely, identify.
  destruct user as [u|]; [destruct (truthy_str (user_id u));
                          [destruct (isOAuthUser (Some u))|]|];
    hoare_cases; phase_done.
Qed.

Lemma direct_create_order_phase d :
  hoare (untouched w0) (direct_create_order d)
        (fun order w => order = mkOrderRecord (List.length (orders (backend w0))) d
                        /\ ordered_stock_kept w0 d w)
        (fun _ => untouched w0).
Proof. unfold direct_create_order. hoare_cases; phase_done. Qed.

Lemma direct_create_item_ordered d order item :
  keeps_safely (ordered w0 d) (direct_create_item order item).
Proof. unfold keeps_safely, direct_create_item. hoare_cases; phase_done. Qed.

Lemma direct_update_stock_ordered d item :
  keeps_safely (ordered w0 d) (direct_update_stock item).
Proof. unfold keeps_safely, direct_update_stock. hoare_cases; phase_done. Qed.

Lemma direct_send_email_mailed d :
  hoare (ordered w0 d) direct_send_email (fun _ => mailed w0 d) (fun _ _ => False).
Proof. unfold direct_send_email. hoare_cases; phase_done. Qed.

Lemma direct_sequence_outcome :
  hoare (untouched w0)
        (direct_sequence isOAuthUser user shippingInfo (cart w0))
        (fun _ w => exists d, status d = pending /\
                              total_price d = total (getTotalPrice (cart w0)) /\
                              ended_well w0 d w)
        (fun _ => untouched w0).
Proof.
  unfold direct_sequence. cbv zeta.
  apply (hoare_bind _ _ _ (fun _ => untouched w0)).
  { apply (hoare_weaken _ _ _ _ _ _ _ identify_untouched); auto; contradiction. }
  intros ident.
  set (d := make_orderData user shippingInfo (fst ident) (snd ident) _ pending).
  apply (hoare_bind _ _ _
           (fun order w => order = mkOrderRecord (List.length (orders (backend w0))) d
                           /\ ordered w0 d w)).
  { apply (hoare_weaken _ _ _ _ _ _ _ (direct_create_order_phase d)); auto.
    intros a w [Ha [Hw _]]. now split. }
  intros order. unfold direct_after_order.
  apply (hoare_weaken (fun w => _ /\ ordered w0 d w) (ordered w0 d) _
           _ (fun _ w => exists d, status d = pending /\
                                   total_price d = total (getTotalPrice (cart w0)) /\
                                   ended_well w0 d w)
           _ (fun _ _ => False)); [|tauto|auto|contradiction].
  apply (hoare_bind _ _ _ (fun _ => ordered w0 d)).
  { apply keeps_safely_for_each. intros. apply direct_create_item_ordered. }
  intros _.
  apply (hoare_bind _ _ _ (fun _ => ordered w0 d)).
  { apply keeps_safely_for_each. intros. apply direct_update_stock_ordered. }
  intros _.
  apply (hoare_bind _ _ _ (fun _ => mailed w0 d)).
  { apply direct_send_email_mailed. }
  intros _.
  apply (hoare_bind _ _ _
           (fun _ w => order_added w0 d w /\ cart w = [] /\ route w = route w0 /\
                       exists msg, toasts w = toasts w0 ++ [ToastSuccess msg])).
  { hoare_cases; phase_done. }
  intros _. intros [b s tr ints con tst crt stp sec ld rt] HP. cbn.
  exists d. split; [|split].
  - unfold d, make_orderData. destruct user, (snd ident); reflexivity.
  - unfold d, make_orderData, total. destruct user, (snd ident); reflexivity.
  - phase_done.
Qed.

(** X19. However the requests end, [handleOrderCreation] ends in one of two
    ways, with the loading flag off: either exactly one order with status
    pending and the grand total of the cart was stored, the cart is empty,
    the confirmation page is shown and one success toast was added (also
    when order items or stock updates failed); or the record store, the cart
    and the page are as before and one error toast was added. *)
Theorem handleOrderCreation_outcome :
  let w' := exec (handleOrderCreation isOAuthUser user shippingInfo) w0 in
  loading w' = false /\
  ((exists d, status d = pending /\
              total_price d = total (getTotalPrice (cart w0)) /\
              ended_well w0 d w') \/
   (backend w' = backend w0 /\ gave_up w0 w')).
Proof.
  cbv zeta.
  assert (H : hoare (untouched w0)
                (handleOrderCreation isOAuthUser user shippingInfo)
                (fun _ w => loading w = false /\
                   exists d, status d = pending /\
                             total_price d = total (getTotalPrice (cart w0)) /\
                             ended_well w0 d w)
                (fun _ w => loading w = false /\
                   backend w = backend w0 /\ gave_up w0 w)).
  { unfold handleOrderCreation.
    apply (hoare_finally _ _ _
             (fun _ w => exists d, status d = pending /\
                          total_price d = total (getTotalPrice (cart w0)) /\
                          ended_well w0 d w)
             (fun _ w => backend w = backend w0 /\ gave_up w0 w)).
    - apply (hoare_try_catch _ _ _ (fun _ => untouched w0)).
      + apply (hoare_bind _ _ _ (fun _ => untouched w0));
          [hoare_cases; phase_done|intros _].
        apply (hoare_bind _ _ _ (fun c w => c = cart w0 /\ untouched w0 w));
          [hoare_cases; phase_done|intros c].
        intros w [-> Hw]. now apply direct_sequence_outcome.
      + intros e. hoare_cases; phase_done.
    - intros _ [b s tr ints con tst crt stp sec ld rt] (d & Hs & Ht & Hw).
      cbn. split; [reflexivity|]. exists d. split; [exact Hs|].
      split; [exact Ht|]. phase_done.
    - intros _. hoare_cases; phase_done. }
  specialize (H w0). unfold exec.
  destruct (handleOrderCreation isOAuthUser user shippingInfo w0)
    as [[[]|e] w'];
    (destruct H as [Hl Hcase]; [now repeat split|]);
    cbn [snd]; (split; [exact Hl|]); [now left|now right].
Qed.

Lemma paid_create_order_phase d :
  hoare (untouched w0) (paid_create_order user d)
        (fun order w => order = mkOrderRecord (List.length (orders (backend w0))) d
                        /\ ordered_stock_kept w0 d w)
        (fun _ => untouched w0).
Proof. unfold paid_create_order. destruct user; hoare_cases; phase_done. Qed.

Lemma paid_create_item_ordered d order item :
  keeps (ordered_stock_kept w0 d) (paid_create_item user order item).
Proof. unfold keeps, paid_create_item. destruct user; hoare_cases; phase_done. Qed.

Lemma paid_update_stock_ordered d item :
  keeps_safely (ordered w0 d) (paid_update_stock user item).
Proof.
  unfold keeps_safely, paid_update_stock. destruct user; hoare_cases; phase_done.
Qed.

Lemma paid_sequence_outcome :
  hoare (untouched w0)
        (paid_sequence isOAuthUser user shippingInfo (cart w0))
        (fun _ w => exists d, status d = paid /\
                              total_price d = total (getTotalPrice (cart w0)) /\
                              ended_well w0 d w)
        (fun _ => stock_and_ui_kept w0).
Proof.
  unfold paid_sequence. cbv zeta.
  apply (hoare_bind _ _ _ (fun _ => untouched w0)).
  { apply (hoare_weaken _ _ _ _ _ _ _ identify_untouched); auto; contradiction. }
  intros ident.
  set (d := make_orderData user shippingInfo (fst ident) (snd ident) _ paid).
  apply (hoare_bind _ _ _ (fun _ => ordered_stock_kept w0 d)).
  { apply (hoare_weaken _ _ _ _ _ _ _ (paid_create_order_phase d)); auto.
    - now intros a w [_ Hw].
    - intros e w [Hb Hu]. split; [now rewrite Hb|exact Hu]. }
  intros order. unfold paid_after_order.
  apply (hoare_bind _ _ _ (fun _ => ordered w0 d)).
  { apply (hoare_weaken _ _ _ _ _ _ _
             (keeps_promise_all (ordered_stock_kept w0 d)
                (paid_create_item user order) (cart w0)
                (fun item _ => paid_create_item_ordered d order item))); auto.
    - now intros a w [Hw _].
    - intros e w [[_ Hu] Hp]. now split. }
  intros _.
  apply (hoare_bind _ _ _ (fun _ => ordered w0 d)).
  { apply (hoare_weaken _ _ _ _ _ _ _
             (keeps_safely_promise_all (ordered w0 d)
                (paid_update_stock user) (cart w0)
                (fun item _ => paid_update_stock_ordered d item))); auto.
    contradiction. }
  intros _.
  apply (hoare_bind _ _ _
           (fun _ w => order_added w0 d w /\ cart w = [] /\ route w = route w0 /\
                       toasts w = toasts w0)).
  { hoare_cases; phase_done. }
  intros _.
  apply (hoare_bind _ _ _
           (fun _ w => order_added w0 d w /\ cart w = [] /\ route w = route w0 /\
                       exists msg, toasts w = toasts w0 ++ [ToastSuccess msg])).
  { hoare_cases; phase_done. }
  intros _. intros [b s tr ints con tst crt stp sec ld rt] HP. cbn.
  exists d. split; [|split].
  - unfold d, make_orderData. destruct user, (snd ident); reflexivity.
  - unfold d, make_orderData, total. destruct user, (snd ident); reflexivity.
  - phase_done.
Qed.

(** X20. However the requests end, [handlePaymentSuccess] ends in one of
    two ways, with the loading flag off: either exactly one order with
    status paid and the grand total of the cart was stored, the cart is
    empty, the confirmation page is shown and one success toast was added;
    or one error toast was added, the cart and the page are as before and
    no product stock was changed (an order item that cannot be created stops
    the sequence before the stock is touched). *)
Theorem handlePaymentSuccess_outcome :
  let w' := exec (handlePaymentSuccess isOAuthUser user shippingInfo) w0 in
  loading w' = false /\
  ((exists d, status d = paid /\
              total_price d = total (getTotalPrice (cart w0)) /\
              ended_well w0 d w') \/
   (products (backend w') = products (backend w0) /\ gave_up w0 w')).
Proof.
  cbv zeta.
  set (well := fun w => exists d, status d = paid /\
                 total_price d = total (getTotalPrice (cart w0)) /\
                 ended_well w0 d w).
  set (bad := fun w => products (backend w) = products (backend w0) /\
                       gave_up w0 w).
  assert (H : hoare (untouched w0)
                (handlePaymentSuccess isOAuthUser user shippingInfo)
                (fun _ w => loading w = false /\ (well w \/ bad w))
                (fun _ _ => False)).
  { unfold handlePaymentSuccess.
    apply (hoare_finally _ _ _ (fun _ w => well w \/ bad w) (fun _ _ => False)).
    - apply (hoare_try_catch _ _ _ (fun _ => stock_and_ui_kept w0)).
      + apply (hoare_bind _ _ _ (fun _ => untouched w0));
          [hoare_cases; phase_done|intros _].
        apply (hoare_bind _ _ _ (fun c w => c = cart w0 /\ untouched w0 w));
          [hoare_cases; phase_done|intros c].
        intros w [-> Hw]. pose proof (paid_sequence_outcome w Hw) as H.
        destruct (paid_sequence isOAuthUser user shippingInfo (cart w0) w)
          as [[[]|e] w']; [now left|exact H].
      + intros e. hoare_cases. right. unfold bad. phase_done.
    - intros _ [b s tr ints con tst crt stp sec ld rt] Hw.
      cbn. split; [reflexivity|].
      destruct Hw as [(d & Hs & Ht & Hw)|Hw]; [left|right].
      + exists d. split; [exact Hs|]. split; [exact Ht|]. phase_done.
      + unfold bad in *. phase_done.
    - intros _ w []. }
  specialize (H w0). unfold exec.
  destruct (handlePaymentSuccess isOAuthUser user shippingInfo w0)
    as [[[]|e] w']; [|exfalso; apply H; now repeat split].
  cbn [snd]. apply H. now repeat split.
Qed.

End Outcome.

(** *** The finalize sequences when every request is served *)



Section Served.

Variable isOAuthUser : option User -> bool.
Variable user : option User.
Variable shippingInfo : ShippingInfo.
Variables (O : list OrderRecord) (IT : list OrderItemData) (PR : list ProductRow).














End Served.

Section ServedSequences.

Variable isOAuthUser : option User -> bool.
Variable user : option User.
Variable shippingInfo : ShippingInfo.
Variables (O : list OrderRecord) (IT : list OrderItemData) (PR : list ProductRow).
Variable cart : Cart.



End ServedSequences.



(** *** Whose order it is *)

Lemma order_added_backend w0 d : about_backend (order_added w0 d).
Proof. intros w w' Hb. unfold order_added. now rewrite Hb. Qed.

Ltac orders_done :=
  unfold order_added in *;
  cbn [backend orders] in *;
  first [ assumption
        | match goal with
          | H : orders _ = orders (backend _) |- _ => now rewrite <- H
          end
        | congruence ].

Section Contact.

Variable isOAuthUser : option User -> bool.
Variable user : option User.
Variable shippingInfo : ShippingInfo.
Variable w0 : World.

Lemma orders_kept_backend : about_backend (orders_kept w0).
Proof. intros w w' Hb. unfold orders_kept. now rewrite Hb. Qed.

Lemma identify_possible :
  hoare (orders_kept w0) (identify isOAuthUser user)
        (fun ident w => possible_identity isOAuthUser user ident /\ orders_kept w0 w)
        (fun _ _ => False).
Proof.
  unfold identify, possible_identity, orders_kept.
  destruct user as [u|]; [destruct (truthy_str (user_id u));
                          [destruct (isOAuthUser (Some u))|]|];
    hoare_cases; split; auto.
Qed.

Lemma direct_create_order_adds d :
  hoare (orders_kept w0) (direct_create_order d)
        (fun _ => order_added w0 d) (fun _ => orders_kept w0).
Proof.
  unfold direct_create_order, orders_kept. hoare_cases; orders_done.
Qed.

Lemma paid_create_order_adds d :
  hoare (orders_kept w0) (paid_create_order user d)
        (fun _ => order_added w0 d) (fun _ => orders_kept w0).
Proof.
  unfold paid_create_order, orders_kept. destruct user; hoare_cases; orders_done.
Qed.

Lemma direct_create_item_added d order item :
  keeps (order_added w0 d) (direct_create_item order item).
Proof. unfold keeps, direct_create_item. hoare_cases; orders_done. Qed.

Lemma direct_update_stock_added d item :
  keeps (order_added w0 d) (direct_update_stock item).
Proof. unfold keeps, direct_update_stock. hoare_cases; orders_done. Qed.

Lemma paid_create_item_added d order item :
  keeps (order_added w0 d) (paid_create_item user order item).
Proof. unfold keeps, paid_create_item. destruct user; hoare_cases; orders_done. Qed.

Lemma paid_update_stock_added d item :
  keeps (order_added w0 d) (paid_update_stock user item).
Proof. unfold keeps, paid_update_stock. destruct user; hoare_cases; orders_done. Qed.

Lemma direct_after_order_added d cart order :
  keeps (order_added w0 d) (direct_after_order cart order).
Proof.
  unfold keeps, direct_after_order.
  apply (hoare_bind _ _ _ (fun _ => order_added w0 d));
    [apply keeps_for_each; intros; apply direct_create_item_added|intros _].
  apply (hoare_bind _ _ _ (fun _ => order_added w0 d));
    [apply keeps_for_each; intros; apply direct_update_stock_added|intros _].
  apply (hoare_bind _ _ _ (fun _ => order_added w0 d));
    [apply (backend_kept_keeps _ _ (order_added_backend w0 d));
     apply direct_send_email_backend|intros _].
  apply (hoare_bind _ _ _ (fun _ => order_added w0 d));
    [apply (backend_kept_keeps _ _ (order_added_backend w0 d));
     apply setCart_backend|intros _].
  apply (backend_kept_keeps _ _ (order_added_backend w0 d)).
  apply navigate_backend.
Qed.

Lemma paid_after_order_added d cart order :
  keeps (order_added w0 d) (paid_after_order user cart order).
Proof.
  unfold keeps, paid_after_order.
  apply (hoare_bind _ _ _ (fun _ => order_added w0 d));
    [apply keeps_promise_all; intros; apply paid_create_item_added|intros _].
  apply (hoare_bind _ _ _ (fun _ => order_added w0 d));
    [apply keeps_promise_all; intros; apply paid_update_stock_added|intros _].
  apply (hoare_bind _ _ _ (fun _ => order_added w0 d));
    [apply (backend_kept_keeps _ _ (order_added_backend w0 d));
     apply setCart_backend|intros _].
  apply (hoare_bind _ _ _ (fun _ => order_added w0 d));
    [apply (backend_kept_keeps _ _ (order_added_backend w0 d));
     apply toast_success_backend|intros _].
  apply (backend_kept_keeps _ _ (order_added_backend w0 d)).
  apply navigate_backend.
Qed.

Lemma possible_contact_data ident amount st :
  possible_identity isOAuthUser user ident ->
  contact_data_of isOAuthUser user shippingInfo
    (make_orderData user shippingInfo (fst ident) (snd ident) amount st).
Proof.
  unfold possible_identity, contact_data_of, make_orderData.
  destruct user as [u|].
  - destruct (truthy_str (user_id u)); cbn [andb].
    + destruct (isOAuthUser (Some u)).
      * intros [->| ->]; cbn [fst snd]; repeat split; auto.
      * intros ->. cbn [fst snd]. repeat split.
    + intros ->. cbn [fst snd]. repeat split.
  - intros ->. cbn [fst snd]. repeat split.
Qed.

Lemma at_most_one_backend P : about_backend (at_most_one_order w0 P).
Proof. intros w w' Hb. unfold at_most_one_order, order_added. now rewrite Hb. Qed.

Lemma setter_before_order {B} (P : OrderData -> Prop) (m : M B) :
  backend_kept m ->
  hoare (orders_kept w0) m (fun _ => orders_kept w0)
        (fun _ => at_most_one_order w0 P).
Proof.
  intros Hm.
  apply (hoare_weaken _ _ _ _ _ _ _
           (backend_kept_keeps _ _ orders_kept_backend Hm)); auto.
  intros e w Hw. now left.
Qed.

Lemma sequence_contact (st : Status) (cart : Cart)
    (create : OrderData -> M OrderRecord)
    (after : Cart -> OrderRecord -> M unit) :
  (forall d, hoare (orders_kept w0) (create d)
                   (fun _ => order_added w0 d) (fun _ => orders_kept w0)) ->
  (forall d order, keeps (order_added w0 d) (after cart order)) ->
  hoare (orders_kept w0)
    (ident <- identify isOAuthUser user ;;
     order <- create
                (make_orderData user shippingInfo (fst ident) (snd ident)
                   (getTotalPrice cart + shipping (getTotalPrice cart))%Q st) ;;
     after cart order)
    (fun _ => at_most_one_order w0
                (fun d => status d = st /\
                          contact_data_of isOAuthUser user shippingInfo d))
    (fun _ => at_most_one_order w0
                (fun d => status d = st /\
                          contact_data_of isOAuthUser user shippingInfo d)).
Proof.
  intros Hcreate Hafter.
  apply (hoare_bind _ _ _
           (fun ident w => possible_identity isOAuthUser user ident /\
                           orders_kept w0 w)).
  { apply (hoare_weaken _ _ _ _ _ _ _ identify_possible); auto; contradiction. }
  intros ident w [Hident Hw]. revert w Hw.
  set (d := make_orderData user shippingInfo (fst ident) (snd ident) _ st).
  assert (Hd : status d = st /\ contact_data_of isOAuthUser user shippingInfo d).
  { split; [|now apply possible_contact_data].
    unfold d, make_orderData. now destruct user, (snd ident). }
  change (hoare (orders_kept w0) (order <- create d ;; after cart order)
            (fun _ => at_most_one_order w0
                        (fun d => status d = st /\
                                  contact_data_of isOAuthUser user shippingInfo d))
            (fun _ => at_most_one_order w0
                        (fun d => status d = st /\
                                  contact_data_of isOAuthUser user shippingInfo d))).
  apply (hoare_bind _ _ _ (fun _ => order_added w0 d)).
  - apply (hoare_weaken _ _ _ _ _ _ _ (Hcreate d)); auto.
    intros e w Hw. now left.
  - intros order.
    apply (hoare_weaken _ _ _ _ _ _ _ (Hafter d order)); auto;
      intros; right; now exists d.
Qed.

(** X22. However the requests end, each finalize path stores at most one
    order, and the order it stores is the shopper's: it carries the shipping
    address of the form; a guest order has no user reference and carries the
    email, name and phone of the form; the order of a signed-in user that is
    not an OAuth user references the user's id (when the user object has
    one) and carries no guest field; the order of an OAuth user carries the
    account's email with the name and phone of the form, and references the
    user's id or, when the account could not be found, no user. *)
Theorem stored_order_is_the_shoppers :
  let mine st d :=
    status d = st /\ contact_data_of isOAuthUser user shippingInfo d in
  at_most_one_order w0 (mine pending)
    (exec (handleOrderCreation isOAuthUser user shippingInfo) w0) /\
  at_most_one_order w0 (mine paid)
    (exec (handlePaymentSuccess isOAuthUser user shippingInfo) w0).
Proof.
  cbv zeta. split.
  - pose (A := at_most_one_order w0
                 (fun d => status d = pending /\
                           contact_data_of isOAuthUser user shippingInfo d)).
    assert (HA : about_backend A) by apply at_most_one_backend.
    assert (H : hoare (orders_kept w0)
                  (handleOrderCreation isOAuthUser user shippingInfo)
                  (fun _ => A) (fun _ => A)).
    { unfold handleOrderCreation.
      apply (hoare_finally _ _ _ (fun _ => A) (fun _ => A)).
      - apply (hoare_try_catch _ _ _ (fun _ => A)).
        + apply (hoare_bind _ _ _ (fun _ => orders_kept w0));
            [apply setter_before_order, setLoading_backend|intros _].
          apply (hoare_bind _ _ _ (fun _ => orders_kept w0));
            [apply setter_before_order, get_cart_backend|intros c].
          unfold direct_sequence. cbv zeta.
          apply sequence_contact;
            [apply direct_create_order_adds
            |intros; apply direct_after_order_added].
        + intros e.
          apply (hoare_bind _ _ _ (fun _ => A));
            [apply (backend_kept_keeps _ _ HA); apply console_error_backend
            |intros _].
          apply (hoare_bind _ _ _ (fun _ => A));
            [apply (backend_kept_keeps _ _ HA); apply toast_error_backend
            |intros _].
          apply (backend_kept_keeps _ _ HA). apply (@throw_backend unit).
      - intros _. apply (backend_kept_keeps _ _ HA). apply setLoading_backend.
      - intros _. apply (backend_kept_keeps _ _ HA). apply setLoading_backend. }
    specialize (H w0 eq_refl). unfold exec.
    now destruct (handleOrderCreation isOAuthUser user shippingInfo w0)
      as [[[]|e] w'].
  - pose (A := at_most_one_order w0
                 (fun d => status d = paid /\
                           contact_data_of isOAuthUser user shippingInfo d)).
    assert (HA : about_backend A) by apply at_most_one_backend.
    assert (H : hoare (orders_kept w0)
                  (handlePaymentSuccess isOAuthUser user shippingInfo)
                  (fun _ => A) (fun _ => A)).
    { unfold handlePaymentSuccess.
      apply (hoare_finally _ _ _ (fun _ => A) (fun _ => A)).
      - apply (hoare_try_catch _ _ _ (fun _ => A)).
        + apply (hoare_bind _ _ _ (fun _ => orders_kept w0));
            [apply setter_before_order, setLoading_backend|intros _].
          apply (hoare_bind _ _ _ (fun _ => orders_kept w0));
            [apply setter_before_order, get_cart_backend|intros c].
          unfold paid_sequence. cbv zeta.
          apply sequence_contact;
            [apply paid_create_order_adds
            |intros; apply paid_after_order_added].
        + intros e.
          apply (hoare_bind _ _ _ (fun _ => A));
            [apply (backend_kept_keeps _ _ HA); apply console_error_backend
            |intros _].
          apply (backend_kept_keeps _ _ HA). apply toast_error_backend.
      - intros _. apply (backend_kept_keeps _ _ HA). apply setLoading_backend.
      - intros _. apply (backend_kept_keeps _ _ HA). apply setLoading_backend. }
    specialize (H w0 eq_refl). unfold exec.
    now destruct (handlePaymentSuccess isOAuthUser user shippingInfo w0)
      as [[[]|e] w'].
Qed.

End Contact.

End CheckoutExtras.

(** * The checkout page *)

Module PageFacts.

Import CartContext CartSpec Checkout CheckoutSpec CheckoutFacts CheckoutForm
       CheckoutPage.

Local Open Scope handler_scope.

Lemma nothing_since {A} (l : list A) : skipn (List.length l) l = [].
Proof. induction l as [|x l IH]; [reflexivity|exact IH]. Qed.



Section Page.

Variable isOAuthUser : option User -> bool.
Variable user : option User.
Variable issued_secret : string.
Variable valid_email : string -> bool.



Lemma none_violates (info : ShippingInfo) :
  first_invalid valid_email info = None ->
  forall f, In f marked_required -> get info f <> EmptyString.
Proof.
  unfold first_invalid. intros Hnone f Hf Hempty.
  pose proof (find_none _ _ Hnone f Hf) as Hv.
  unfold violates in Hv. rewrite Hempty in Hv. discriminate.
Qed.

Lemma empty_is_reported (info : ShippingInfo) (f : Field) :
  In f marked_required -> get info f = EmptyString ->
  exists g, first_invalid valid_email info = Some g /\
            In g marked_required /\ violates valid_email info g = true.
Proof.
  intros Hf Hempty. unfold first_invalid.
  destruct (find (violates valid_email info) marked_required) as [g|] eqn:E.
  - exists g. apply find_some in E. tauto.
  - pose proof (find_none _ _ E f Hf) as Hv.
    unfold violates in Hv. rewrite Hempty in Hv. discriminate.
Qed.

(** The checks of [validateForm] are among those of the browser. *)
Lemma dispatched_form_validates (info : ShippingInfo) :
  first_invalid valid_email info = None ->
  first_missing info required = None.
Proof.
  intros Hnone. apply first_missing_none. intros f Hf.
  assert (Hin : In f marked_required) by (cbn in Hf |- *; tauto).
  pose proof (none_violates info Hnone f Hin) as Hne.
  destruct (get info f); [now destruct Hne|reflexivity].
Qed.

(** C9. Pressing the submit button of the shipping form moves the page to
    the payment step, or asks the payment API for an intent, only if none of
    the eight required fields of the form (first name, last name, email,
    phone, address, city, postal code, country) is empty.  If one of them is
    empty the step is blocked: the world of the handlers is as before (no
    request, no intent, the same step), and when the form is shown and its
    button enabled the browser reports a constraint violation on the first
    input that has one.  Of the eight, [validateForm] checks seven again
    (not the country): called with one of those empty, the handler stops
    with an error toast and without a request. *)
Theorem shipping_step_requires_every_field (p : Page) :
  let p' := page_step isOAuthUser user issued_secret valid_email
                      SubmitPressed p in
  ((currentStep (world p) = shipping_step /\
    currentStep (world p') = payment) \/
   requests_since (world p) (world p') <> [] \/
   intents (world p') <> intents (world p) ->
   forall f, In f marked_required -> get (shippingInfo p) f <> EmptyString) /\
  ((exists f, In f marked_required /\ get (shippingInfo p) f = EmptyString) ->
   world p' = world p /\
   (shipping_form_shown p = true -> loading (world p) = false ->
    exists g, reported p' = Some g /\ In g marked_required /\
              violates valid_email (shippingInfo p) g = true)) /\
  (forall w f,
      first_missing (shippingInfo p) required = Some f ->
      exists msg,
        exec (handleShippingSubmit issued_secret (shippingInfo p)) w
        = with_toast w (ToastError msg)).
Proof.
  cbv zeta. cbn [page_step]. split; [|split].
  - intros Hmoved.
    assert (Hstay :
      forall q, world q = world p ->
        ~ ((currentStep (world p) = shipping_step /\
            currentStep (world q) = payment) \/
           requests_since (world p) (world q) <> [] \/
           intents (world q) <> intents (world p))).
    { intros q Hq. rewrite Hq. unfold requests_since. rewrite nothing_since.
      intros [[H1 H2]|[H|H]]; [congruence|now apply H|now apply H]. }
    destruct (shipping_form_shown p && negb (loading (world p)));
      [|now destruct (Hstay p eq_refl)].
    destruct (first_invalid valid_email (shippingInfo p)) as [g|] eqn:E.
    + now destruct (Hstay (mkPage (shippingInfo p) (Some g) (world p)) eq_refl).
    + now apply none_violates.
  - intros (f & Hf & Hempty).
    destruct (empty_is_reported (shippingInfo p) f Hf Hempty)
      as (g & Hg & Hin & Hv).
    rewrite Hg. split.
    + now destruct (shipping_form_shown p && negb (loading (world p))).
    + intros -> ->. cbn [negb andb reported]. now exists g.
  - intros w f Hf. apply (handleShippingSubmit_blocked issued_secret _ w f Hf).
Qed.

End Page.


Lemma shipping_step_requires_every_field_witness :
  world (page_step never_oauth None "pi_secret" any_email SubmitPressed
                   at_the_form)
  = world at_the_form /\
  exists g,
    reported (page_step never_oauth None "pi_secret" any_email SubmitPressed
                        at_the_form) = Some g /\
    In g marked_required /\
    violates any_email (shippingInfo at_the_form) g = true.
Proof.
  destruct (proj1 (proj2 (shipping_step_requires_every_field
                            never_oauth None "pi_secret" any_email
                            at_the_form))) as [Hworld Hreported].
  - exists Country. split; [cbn; tauto|reflexivity].
  - split; [exact Hworld|]. apply Hreported; reflexivity.
Defined.

End PageFacts.

(** * What the finalize handlers tell the shopper *)

Module ReportFacts.

Import CartContext Checkout CheckoutSpec CheckoutFacts CheckoutReports.

Local Open Scope handler_scope.

(** *** Composition of reports *)

Lemma logged_refl (w : World) : logged w w [] [] [].
Proof. unfold logged. now rewrite !app_nil_r. Qed.

Lemma logged_trans (w w' w'' : World) t c ts t' c' ts' :
  logged w w' t c ts -> logged w' w'' t' c' ts' ->
  logged w w'' (t ++ t') (c ++ c') (ts ++ ts').
Proof.
  unfold logged. intros (H1 & H2 & H3) (G1 & G2 & G3).
  rewrite G1, G2, G3, H1, H2, H3. now rewrite !app_assoc.
Qed.

Lemma logged_since (w w' : World) t c ts :
  logged w w' t c ts ->
  requests_since w w' = t /\ console_since w w' = c /\ toasts_since w w' = ts.
Proof.
  unfold logged, requests_since, console_since, toasts_since.
  intros (-> & -> & ->). now rewrite !skipn_length_app.
Qed.

Lemma logs_weaken {A} (R R' : Report A) (m : M A) :
  logs R m -> (forall t c ts r, R t c ts r -> R' t c ts r) -> logs R' m.
Proof.
  intros Hm HR w. destruct (Hm w) as (t & c & ts & Hl & Hr).
  exists t, c, ts. auto.
Qed.

Lemma logs_bind {A B} (R1 : Report A) (R2 : A -> Report B) (R : Report B)
    (m : M A) (k : A -> M B) :
  logs R1 m -> (forall a, logs (R2 a) (k a)) ->
  (forall t c ts e, R1 t c ts (Throw e) -> R t c ts (Throw e)) ->
  (forall a t1 c1 ts1 t2 c2 ts2 r,
      R1 t1 c1 ts1 (Val a) -> R2 a t2 c2 ts2 r ->
      R (t1 ++ t2) (c1 ++ c2) (ts1 ++ ts2) r) ->
  logs R (bind m k).
Proof.
  intros Hm Hk Hthrow Hseq w. unfold bind.
  destruct (Hm w) as (t1 & c1 & ts1 & Hl1 & Hr1).
  destruct (m w) as [[a|e] w']; cbn [fst snd] in *.
  - destruct (Hk a w') as (t2 & c2 & ts2 & Hl2 & Hr2).
    exists (t1 ++ t2), (c1 ++ c2), (ts1 ++ ts2).
    split; [eapply logged_trans; eauto|eauto].
  - exists t1, c1, ts1. auto.
Qed.

Lemma logs_try_catch {A} (R1 : Report A) (R2 : string -> Report A)
    (R : Report A) (m : M A) (h : string -> M A) :
  logs R1 m -> (forall e, logs (R2 e) (h e)) ->
  (forall t c ts a, R1 t c ts (Val a) -> R t c ts (Val a)) ->
  (forall e t1 c1 ts1 t2 c2 ts2 r,
      R1 t1 c1 ts1 (Throw e) -> R2 e t2 c2 ts2 r ->
      R (t1 ++ t2) (c1 ++ c2) (ts1 ++ ts2) r) ->
  logs R (try_catch m h).
Proof.
  intros Hm Hh Hval Hseq w. unfold try_catch.
  destruct (Hm w) as (t1 & c1 & ts1 & Hl1 & Hr1).
  destruct (m w) as [[a|e] w']; cbn [fst snd] in *.
  - exists t1, c1, ts1. auto.
  - destruct (Hh e w') as (t2 & c2 & ts2 & Hl2 & Hr2).
    exists (t1 ++ t2), (c1 ++ c2), (ts1 ++ ts2).
    split; [eapply logged_trans; eauto|eauto].
Qed.

Lemma logs_finally {A} (R : Report A) (m : M A) (f : M unit) :
  logs R m -> logs silent f -> logs R (finally m f).
Proof.
  intros Hm Hf w. unfold finally.
  destruct (Hm w) as (t & c & ts & Hl & Hr).
  destruct (m w) as [r w']; cbn [fst snd] in *.
  destruct (Hf w') as (t' & c' & ts' & Hl' & -> & -> & -> & Hr').
  destruct (f w') as [[[]|e] w'']; cbn [fst snd is_throw] in *;
    [|discriminate].
  exists t, c, ts. split; [|exact Hr].
  pose proof (logged_trans _ _ _ _ _ _ _ _ _ Hl Hl') as H.
  now rewrite !app_nil_r in H.
Qed.

(** *** Quiet writes in a row *)

Section Careful.

Variables bad quiet : Call * Outcome -> bool.

Lemma careful_ret {A} (a : A) : logs (careful bad quiet) (ret a).
Proof.
  intros w. exists [], [], []. split; [apply logged_refl|].
  repeat split. discriminate.
Qed.

Lemma careful_app {A B} t1 c1 ts1 (r1 : Res A) t2 c2 ts2 (r2 : Res B) :
  careful bad quiet t1 c1 ts1 r1 -> careful bad quiet t2 c2 ts2 r2 ->
  careful bad quiet (t1 ++ t2) (c1 ++ c2) (ts1 ++ ts2) r2.
Proof.
  intros (-> & _ & Hq1 & Hb1) (-> & Hr2 & Hq2 & Hb2).
  repeat split; [exact Hr2|now rewrite existsb_app, Hq1, Hq2|].
  rewrite !existsb_app, !orb_true_iff. intros [H|H]; auto.
Qed.

Lemma careful_for_each {A} (f : A -> M unit) (l : list A) :
  (forall x, logs (careful bad quiet) (f x)) ->
  logs (careful bad quiet) (for_each f l).
Proof.
  intros Hf. induction l as [|x rest IH]; cbn [for_each].
  - apply careful_ret.
  - apply (logs_bind (careful bad quiet) (fun _ => careful bad quiet));
      [apply Hf|intros _; exact IH| |].
    + intros t c ts e (_ & H & _). discriminate.
    + intros a t1 c1 ts1 t2 c2 ts2 r. apply careful_app.
Qed.

Lemma careful_settle_all {A B} (f : A -> M B) (l : list A) :
  (forall x, logs (careful bad quiet) (f x)) ->
  logs (fun t c ts r =>
          careful bad quiet t c ts r /\
          exists rs, r = Val rs /\ is_throw (all_values rs) = false)
       (settle_all f l).
Proof.
  intros Hf. induction l as [|x rest IH]; intros w; cbn [settle_all].
  - exists [], [], []. split; [apply logged_refl|]. split.
    + repeat split. discriminate.
    + now exists [].
  - destruct (Hf x w) as (t1 & c1 & ts1 & Hl1 & Hr1).
    destruct (f x w) as [r w']; cbn [fst snd] in *.
    destruct (IH w') as (t2 & c2 & ts2 & Hl2 & Hr2 & rs & Hrs & Hall).
    destruct (settle_all f rest w') as [r' w'']; cbn [fst snd] in *.
    subst r'.
    exists (t1 ++ t2), (c1 ++ c2), (ts1 ++ ts2).
    split; [eapply logged_trans; eauto|]. split.
    + apply (careful_app _ _ _ r _ _ _ (Val rs) Hr1) in Hr2.
      destruct Hr2 as (H1 & _ & H3 & H4). now repeat split.
    + exists (r :: rs). split; [reflexivity|].
      destruct Hr1 as (_ & Hr & _). cbn [all_values].
      destruct r as [b|e]; [|discriminate].
      now destruct (all_values rs).
Qed.

Lemma careful_promise_all {A B} (f : A -> M B) (l : list A) :
  (forall x, logs (careful bad quiet) (f x)) ->
  logs (careful bad quiet) (promise_all f l).
Proof.
  intros Hf w. unfold promise_all, bind.
  destruct (careful_settle_all f l Hf w)
    as (t & c & ts & Hl & Hr & rs & Hrs & Hall).
  destruct (settle_all f l w) as [r w']; cbn [fst snd] in *. subst r.
  exists t, c, ts.
  destruct (all_values rs) as [bs|e]; [|discriminate].
  cbn [ret fst snd]. split; [exact Hl|].
  destruct Hr as (H1 & _ & H3 & H4). now repeat split.
Qed.

End Careful.

(** *** Writes that reject: a batch rejects exactly when one of its
    requests failed *)

Lemma strict_settle_all {A B} (f : A -> M B) (l : list A) :
  (forall x, logs strict (f x)) ->
  logs (fun t c ts r =>
          ts = [] /\ existsb stock_write_failed t = false /\
          exists rs, r = Val rs /\
                     existsb item_write_failed t = is_throw (all_values rs))
       (settle_all f l).
Proof.
  intros Hf. induction l as [|x rest IH]; intros w; cbn [settle_all].
  - exists [], [], []. split; [apply logged_refl|].
    repeat split. now exists [].
  - destruct (Hf x w) as (t1 & c1 & ts1 & Hl1 & -> & Hs1 & Hi1).
    destruct (f x w) as [r w']; cbn [fst snd] in *.
    destruct (IH w') as (t2 & c2 & ts2 & Hl2 & -> & Hs2 & rs & Hrs & Hi2).
    destruct (settle_all f rest w') as [r' w'']; cbn [fst snd] in *.
    subst r'.
    exists (t1 ++ t2), (c1 ++ c2), ([] ++ []).
    split; [eapply logged_trans; eauto|].
    split; [reflexivity|].
    split; [now rewrite existsb_app, Hs1, Hs2|].
    exists (r :: rs). split; [reflexivity|].
    rewrite existsb_app, Hi1, Hi2. cbn [all_values].
    destruct r as [b|e]; cbn [is_throw orb]; [|reflexivity].
    now destruct (all_values rs).
Qed.

Lemma strict_promise_all {A B} (f : A -> M B) (l : list A) :
  (forall x, logs strict (f x)) -> logs strict (promise_all f l).
Proof.
  intros Hf w. unfold promise_all, bind.
  destruct (strict_settle_all f l Hf w)
    as (t & c & ts & Hl & Hts & Hs & rs & Hrs & Hi).
  destruct (settle_all f l w) as [r w']; cbn [fst snd] in *. subst r.
  exists t, c, ts.
  destruct (all_values rs) as [bs|e]; cbn [ret throw fst snd is_throw] in *;
    (split; [exact Hl|]); now repeat split.
Qed.

(** *** The pieces of the handlers, request by request *)

Ltac appended_log :=
  unfold logged;
  cbv beta iota zeta delta
      [backend script trace intents console toasts cart currentStep
       clientSecret loading route orders order_items products fst snd];
  rewrite <- ?app_assoc; cbn [app];
  repeat split; first [reflexivity | symmetry; apply app_nil_r].

Ltac reported :=
  world_cases;
  do 3 eexists; (split; [appended_log|]);
  unfold silent, calm, order_attempt, careful, strict, success_shown,
         error_shown_by_toast;
  cbn; repeat split; auto; try discriminate; try (eexists; reflexivity).

Section Pieces.

Variable isOAuthUser : option User -> bool.
Variable user : option User.

Lemma setLoading_silent (v : bool) : logs silent (setLoading v).
Proof. intros [b s tr ints con tst crt stp sec ld rt]. reported. Qed.

Lemma get_cart_silent : logs silent get_cart.
Proof. intros [b s tr ints con tst crt stp sec ld rt]. reported. Qed.

Lemma identify_calm : logs calm (identify isOAuthUser user).
Proof.
  intros [b s tr ints con tst crt stp sec ld rt]. unfold identify.
  destruct user as [u|]; [destruct (truthy_str (user_id u));
                          [destruct (isOAuthUser (Some u))|]|];
    reported.
Qed.

Lemma direct_create_order_attempt (d : OrderData) :
  logs order_attempt (direct_create_order d).
Proof.
  intros [b s tr ints con tst crt stp sec ld rt].
  unfold direct_create_order. reported.
Qed.

Lemma paid_create_order_attempt (d : OrderData) :
  logs order_attempt (paid_create_order user d).
Proof.
  intros [b s tr ints con tst crt stp sec ld rt].
  unfold paid_create_order. destruct user; reported.
Qed.

Lemma direct_create_item_careful (order : OrderRecord) (item : CartItem) :
  logs (careful direct_write_failed order_created)
       (direct_create_item order item).
Proof.
  intros [b s tr ints con tst crt stp sec ld rt].
  unfold direct_create_item. reported.
Qed.

Lemma direct_update_stock_careful (item : CartItem) :
  logs (careful direct_write_failed order_created) (direct_update_stock item).
Proof.
  intros [b s tr ints con tst crt stp sec ld rt].
  unfold direct_update_stock, direct_stock_patch. reported.
Qed.

Lemma paid_create_item_strict (order : OrderRecord) (item : CartItem) :
  logs strict (paid_create_item user order item).
Proof.
  intros [b s tr ints con tst crt stp sec ld rt].
  unfold paid_create_item. destruct user; reported.
Qed.

Lemma paid_update_stock_careful (item : CartItem) :
  logs (careful stock_write_failed item_write_failed)
       (paid_update_stock user item).
Proof.
  intros [b s tr ints con tst crt stp sec ld rt].
  unfold paid_update_stock, paid_stock_patch. destruct user; reported.
Qed.

Lemma paid_tail_success (c : Cart) (msg to : string) :
  logs success_shown (setCart c ;; toast_success msg ;; navigate to).
Proof. intros [b s tr ints con tst crt stp sec ld rt]. reported. Qed.

Lemma direct_tail_success (c : Cart) (to : string) :
  logs success_shown (direct_send_email ;; setCart c ;; navigate to).
Proof.
  intros [b s tr ints con tst crt stp sec ld rt].
  unfold direct_send_email. reported.
Qed.

Lemma paid_catch_toast (msg msg' : string) :
  logs (error_shown_by_toast false) (console_error msg ;; toast_error msg').
Proof. intros [b s tr ints con tst crt stp sec ld rt]. reported. Qed.

Lemma direct_catch_toast (msg msg' e : string) :
  logs (@error_shown_by_toast unit true)
       (console_error msg ;; toast_error msg' ;; throw e).
Proof. intros [b s tr ints con tst crt stp sec ld rt]. reported. Qed.

End Pieces.

(** *** The sequences *)

Ltac open_reports :=
  unfold silent, calm, order_attempt, careful, strict, success_shown,
         error_shown_by_toast, paid_after_report, paid_sequence_report,
         paid_report, direct_after_report, direct_sequence_report,
         direct_report in *;
  intros;
  repeat match goal with
         | H : _ /\ _ |- _ => destruct H
         | H : exists _, _ |- _ => destruct H
         | H : _ \/ _ |- _ => destruct H
         end;
  subst; cbn [is_throw app] in *; try discriminate;
  repeat match goal with
         | H : ?x = ?x -> _ |- _ => specialize (H eq_refl)
         end.

Ltac flags :=
  rewrite ?existsb_app, ?app_nil_r;
  repeat match goal with
         | H : existsb _ _ = _ |- _ => rewrite H
         end;
  cbn [orb].

Ltac settle :=
  repeat split; flags;
  first [ reflexivity
        | assumption
        | discriminate
        | eexists; reflexivity
        | solve [left; settle]
        | solve [right; settle]
        | let H := fresh in
          intros H; rewrite ?orb_true_iff in *;
          solve [intuition (auto; try discriminate; try congruence)] ].

Ltac decide_report := solve [settle].

Section Sequences.

Variable isOAuthUser : option User -> bool.
Variable user : option User.
Variable shippingInfo : ShippingInfo.

Lemma direct_after_order_logs (cart : Cart) (order : OrderRecord) :
  logs direct_after_report (direct_after_order cart order).
Proof.
  unfold direct_after_order.
  apply (logs_bind (careful direct_write_failed order_created)
                   (fun _ => direct_after_report));
    [apply careful_for_each; intros; apply direct_create_item_careful
    |intros _| |].
  - apply (logs_bind (careful direct_write_failed order_created)
                     (fun _ => success_shown));
      [apply careful_for_each; intros; apply direct_update_stock_careful
      |intros _; apply direct_tail_success| |].
    + open_reports.
    + open_reports; decide_report.
  - open_reports.
  - open_reports; decide_report.
Qed.

Lemma direct_sequence_logs (cart : Cart) :
  logs direct_sequence_report
       (direct_sequence isOAuthUser user shippingInfo cart).
Proof.
  unfold direct_sequence. cbv zeta.
  apply (logs_bind calm (fun _ => direct_sequence_report));
    [apply identify_calm|intros ident| |].
  - apply (logs_bind order_attempt (fun _ => direct_after_report));
      [apply direct_create_order_attempt
      |intros order; apply direct_after_order_logs| |].
    + open_reports; decide_report.
    + open_reports; decide_report.
  - open_reports.
  - open_reports; decide_report.
Qed.

Lemma handleOrderCreation_logs :
  logs direct_report (handleOrderCreation isOAuthUser user shippingInfo).
Proof.
  unfold handleOrderCreation.
  apply logs_finally; [|apply setLoading_silent].
  apply (logs_try_catch direct_sequence_report
                        (fun _ => error_shown_by_toast true)).
  - apply (logs_bind silent (fun _ => direct_sequence_report));
      [apply setLoading_silent|intros _| |].
    + apply (logs_bind silent (fun _ => direct_sequence_report));
        [apply get_cart_silent|intros cart; apply direct_sequence_logs| |].
      * open_reports.
      * open_reports; decide_report.
    + open_reports.
    + open_reports; decide_report.
  - intros e. apply direct_catch_toast.
  - open_reports; decide_report.
  - open_reports; decide_report.
Qed.

Lemma paid_after_order_logs (cart : Cart) (order : OrderRecord) :
  logs paid_after_report (paid_after_order user cart order).
Proof.
  unfold paid_after_order.
  apply (logs_bind strict (fun _ => paid_after_report));
    [apply strict_promise_all; intros; apply paid_create_item_strict
    |intros _| |].
  - apply (logs_bind (careful stock_write_failed item_write_failed)
                     (fun _ => success_shown));
      [apply careful_promise_all; intros; apply paid_update_stock_careful
      |intros _; apply paid_tail_success| |].
    + open_reports.
    + open_reports; decide_report.
  - open_reports; decide_report.
  - open_reports; decide_report.
Qed.

Lemma paid_sequence_logs (cart : Cart) :
  logs paid_sequence_report
       (paid_sequence isOAuthUser user shippingInfo cart).
Proof.
  unfold paid_sequence. cbv zeta.
  apply (logs_bind calm (fun _ => paid_sequence_report));
    [apply identify_calm|intros ident| |].
  - apply (logs_bind order_attempt (fun _ => paid_after_report));
      [apply paid_create_order_attempt
      |intros order; apply paid_after_order_logs| |].
    + open_reports; decide_report.
    + open_reports; decide_report.
  - open_reports.
  - open_reports; decide_report.
Qed.

Lemma handlePaymentSuccess_logs :
  logs paid_report (handlePaymentSuccess isOAuthUser user shippingInfo).
Proof.
  unfold handlePaymentSuccess.
  apply logs_finally; [|apply setLoading_silent].
  apply (logs_try_catch paid_sequence_report
                        (fun _ => error_shown_by_toast false)).
  - apply (logs_bind silent (fun _ => paid_sequence_report));
      [apply setLoading_silent|intros _| |].
    + apply (logs_bind silent (fun _ => paid_sequence_report));
        [apply get_cart_silent|intros cart; apply paid_sequence_logs| |].
      * open_reports.
      * open_reports; decide_report.
    + open_reports.
    + open_reports; decide_report.
  - intros e. apply paid_catch_toast.
  - open_reports; decide_report.
  - open_reports; decide_report.
Qed.

End Sequences.

(** *** The partial-success states *)

(** C4, counterexample.  A guest pays for one unit of oolong; the order and
    its item are stored and the stock request fails.  The order is kept, but
    no error message is surfaced to the shopper: the one toast shown is the
    success toast, and the failure is a [console.error] line. *)
Lemma stock_failure_is_not_surfaced :
  let w := exec (handlePaymentSuccess never_oauth None alice) stock_outage in
  existsb order_created (requests_since stock_outage w) = true /\
  existsb paid_write_failed (requests_since stock_outage w) = true /\
  List.length (orders (backend w)) = S (List.length (orders (backend stock_outage))) /\
  toasts_since stock_outage w
  = [ToastSuccess "Order placed and payment processed successfully!"] /\
  existsb is_error_toast (toasts_since stock_outage w) = false /\
  existsb is_error_line (console_since stock_outage w) = true.
Proof. vm_compute. repeat split; reflexivity. Qed.

(** C4, amended. On both finalize paths, once the order record is created, the
    orders collection is the previous one with that one order added,
    whatever happens to the order-item and stock requests that follow.  What
    the shopper is told depends on the path and on the write that fails.  On
    the payment-success path a failed order-item request ends the handler
    with one error toast; when every order item was created the one toast is
    the success toast, and a failed stock request leaves a [console.error]
    line only.  On the direct path the one toast is the success toast
    whatever fails, and a failed write leaves a [console.error] line. *)
Theorem order_kept_when_later_writes_fail
    (isOAuthUser : option User -> bool) (user : option User)
    (shippingInfo : ShippingInfo) (w : World) :
  let w1 := exec (handleOrderCreation isOAuthUser user shippingInfo) w in
  let w2 := exec (handlePaymentSuccess isOAuthUser user shippingInfo) w in
  (existsb order_created (requests_since w w1) = true ->
     (exists o, orders (backend w1) = orders (backend w) ++ [o]) /\
     (exists msg, toasts_since w w1 = [ToastSuccess msg]) /\
     (existsb direct_write_failed (requests_since w w1) = true ->
      existsb is_error_line (console_since w w1) = true)) /\
  (existsb order_created (requests_since w w2) = true ->
     (exists o, orders (backend w2) = orders (backend w) ++ [o]) /\
     (existsb item_write_failed (requests_since w w2) = true ->
      exists msg, toasts_since w w2 = [ToastError msg]) /\
     (existsb item_write_failed (requests_since w w2) = false ->
      (exists msg, toasts_since w w2 = [ToastSuccess msg]) /\
      (existsb stock_write_failed (requests_since w w2) = true ->
       existsb is_error_line (console_since w w2) = true))).
Proof.
  cbv zeta. split.
  - intros Hcreated. split.
    { apply (created_order_kept direct_write_failed direct_unit_price);
        [apply handleOrderCreation_handled|exact Hcreated]. }
    destruct (handleOrderCreation_logs isOAuthUser user shippingInfo w)
      as (t & c & ts & Hl & Hr).
    fold (exec (handleOrderCreation isOAuthUser user shippingInfo) w) in Hl.
    destruct (logged_since _ _ _ _ _ Hl) as (Ht & Hc & Hts).
    rewrite Ht in Hcreated. rewrite Ht, Hc, Hts.
    destruct Hr as [Hnone|[Htoast Hline]]; [congruence|now split].
  - intros Hcreated. split.
    { apply (created_order_kept paid_write_failed paid_unit_price);
        [apply handlePaymentSuccess_handled|exact Hcreated]. }
    destruct (handlePaymentSuccess_logs isOAuthUser user shippingInfo w)
      as (t & c & ts & Hl & Hr).
    fold (exec (handlePaymentSuccess isOAuthUser user shippingInfo) w) in Hl.
    destruct (logged_since _ _ _ _ _ Hl) as (Ht & Hc & Hts).
    rewrite Ht in Hcreated. rewrite Ht, Hc, Hts.
    destruct Hr as [Hnone|[(Hitem & _ & Htoast)|(Hitem & Htoast & Hline)]];
      [congruence| |].
    + split; [intros _; exact Htoast|congruence].
    + split; [congruence|]. intros _. now split.
Qed.

Lemma order_kept_when_later_writes_fail_witness :
  (exists o,
     orders (backend (exec (handlePaymentSuccess never_oauth None alice)
                           item_outage))
     = orders (backend item_outage) ++ [o]) /\
  (exists msg,
     toasts_since item_outage
       (exec (handlePaymentSuccess never_oauth None alice) item_outage)
     = [ToastError msg]) /\
  (exists msg,
     toasts_since order_then_outage
       (exec (handleOrderCreation never_oauth None alice) order_then_outage)
     = [ToastSuccess msg]).
Proof.
  destruct (order_kept_when_later_writes_fail never_oauth None alice
              item_outage) as [_ Hpaid].
  destruct (order_kept_when_later_writes_fail never_oauth None alice
              order_then_outage) as [Hdirect _].
  destruct Hpaid as (Hkept & Herror & _); [vm_compute; reflexivity|].
  destruct Hdirect as (_ & Hsuccess & _); [vm_compute; reflexivity|].
  split; [exact Hkept|]. split; [|exact Hsuccess].
  apply Herror. vm_compute. reflexivity.
Defined.

End ReportFacts.

(** * The OAuth and image helpers *)

Module UtilsExtras.

Import Ascii StringOps Checkout OAuthHelpers ImageConverter.

Lemma alnum_not_underscore (c : ascii) :
  is_alnum c = true -> Ascii.eqb c "_" = false.
Proof.
  destruct (Ascii.eqb_spec c "_") as [->|]; [discriminate|reflexivity].
Qed.

Lemma underscores_to_dots (email : string) :
  replace_class (fun c => Ascii.eqb c "_") "."
    (replace_class (fun c => negb (is_alnum c)) "_" email)
  = dotted email.
Proof.
  unfold dotted. induction email as [|c rest IH]; cbn [replace_class].
  - reflexivity.
  - rewrite IH. destruct (is_alnum c) eqn:E; cbn [negb].
    + now rewrite (alnum_not_underscore c E).
    + reflexivity.
Qed.

Lemma dotted_fixed (email : string) :
  dotted email = email <->
  all_chars (fun c => is_alnum c || Ascii.eqb c ".") email = true.
Proof.
  unfold dotted. induction email as [|c rest IH]; cbn [replace_class all_chars].
  - now split.
  - rewrite andb_true_iff, <- IH. split.
    + intros [= Hc Hrest]. split; [|exact Hrest].
      destruct (is_alnum c); [reflexivity|]. cbn [negb orb] in *.
      rewrite <- Hc. reflexivity.
    + intros [Hc ->]. f_equal.
      destruct (is_alnum c); [reflexivity|]. cbn [negb orb] in *.
      symmetry. now apply Ascii.eqb_eq.
Qed.

Lemma dotted_app (a b : string) :
  dotted (a ++ b) = (dotted a ++ dotted b)%string.
Proof.
  unfold dotted. induction a as [|c rest IH]; cbn; [reflexivity|].
  now rewrite IH.
Qed.

Lemma prefix_app (p x : string) : String.prefix p (p ++ x) = true.
Proof.
  induction p as [|c rest IH]; cbn.
  - now destruct x.
  - destruct (ascii_dec c c); [exact IH|contradiction].
Qed.

Lemma drop_app (p x : string) : drop (String.length p) (p ++ x) = x.
Proof. induction p as [|c rest IH]; [reflexivity|exact IH]. Qed.

Lemma replace_first_prefix (pat rep x : string) :
  replace_first pat rep (pat ++ x) = (rep ++ x)%string.
Proof.
  assert (H : forall s, replace_first pat rep s
                        = if String.prefix pat s
                          then (rep ++ drop (String.length pat) s)%string
                          else match s with
                               | EmptyString => EmptyString
                               | String c rest =>
                                   String c (replace_first pat rep rest)
                               end)
    by (intros []; reflexivity).
  now rewrite H, prefix_app, drop_app.
Qed.

Lemma generated_id_recognised (email : string) :
  startsWith (generateOAuthUserId email) "oauth-" = true.
Proof. apply prefix_app. Qed.

Lemma generated_id_read (email : string) :
  extractEmailFromOAuthId (generateOAuthUserId email) = dotted email.
Proof.
  unfold extractEmailFromOAuthId.
  rewrite generated_id_recognised. cbn [negb]. cbv zeta.
  unfold generateOAuthUserId. rewrite replace_first_prefix.
  apply underscores_to_dots.
Qed.

(** X26. An id made by [generateOAuthUserId] is recognised by
    [isOAuthUserId], and [extractEmailFromOAuthId] reads it back as the
    address with every character that is neither a letter nor a digit turned
    into a dot: the address itself exactly when it consists of letters,
    digits and dots, hence never for an address with an at sign. *)
Theorem oauth_id_round_trip (email : string) :
  isOAuthUserId (generateOAuthUserId email) = true /\
  extractEmailFromOAuthId (generateOAuthUserId email) = dotted email /\
  (extractEmailFromOAuthId (generateOAuthUserId email) = email <->
   all_chars (fun c => is_alnum c || Ascii.eqb c ".") email = true) /\
  (forall name domain,
      email = (name ++ "@" ++ domain)%string ->
      extractEmailFromOAuthId (generateOAuthUserId email) <> email).
Proof.
  split; [unfold isOAuthUserId; now rewrite generated_id_recognised|].
  split; [apply generated_id_read|].
  rewrite generated_id_read. split; [apply dotted_fixed|].
  intros name domain ->. rewrite dotted_app.
  induction name as [|c rest IH]; cbn.
  - discriminate.
  - intros [= _ H]. now apply IH.
Qed.

Lemma oauth_id_round_trip_witness :
  extractEmailFromOAuthId (generateOAuthUserId "bob@example.org")
  <> "bob@example.org".
Proof.
  apply (proj2 (proj2 (proj2 (oauth_id_round_trip "bob@example.org")))
           "bob" "example.org").
  reflexivity.
Defined.

Lemma digit_run_has_digit (s : string) (run : nat) :
  digit_run run s = true -> (10 <= run)%nat \/ has_digit s = true.
Proof.
  revert run. induction s as [|c rest IH]; intros run; cbn [digit_run has_digit].
  - rewrite orb_false_r. intros H. left. now apply Nat.leb_le.
  - destruct (10 <=? run)%nat eqn:E; cbn [orb].
    + intros _. left. now apply Nat.leb_le.
    + destruct (is_digit c); cbn [orb]; [now right|].
      intros H. destruct (IH 0%nat H) as [Hle|Hd]; [lia|now right].
Qed.

Lemma ends_with_digit_has_digit (s : string) :
  ends_with_digit s = true -> has_digit s = true.
Proof.
  induction s as [|c rest IH]; cbn [ends_with_digit has_digit]; [discriminate|].
  destruct rest as [|d rest'].
  - intros ->. reflexivity.
  - intros H. rewrite (IH H). apply orb_true_r.
Qed.

Lemma prefixed_is_truthy (s : string) :
  isOAuthUserId s = true -> truthy_str s = true.
Proof. destruct s; [discriminate|reflexivity]. Qed.

(** X27. The detection by the user object extends the detection by the id:
    a user whose id [isOAuthUserId] recognises is an OAuth user for
    [isOAuthUser] whatever the other fields are; and for a user without a
    username, [isOAuthUser] says what [isOAuthUserId] says of the id. *)
Theorem isOAuthUser_extends_isOAuthUserId (u : User) :
  (isOAuthUserId (user_id u) = true -> isOAuthUser (Some u) = true) /\
  (username u = EmptyString ->
   isOAuthUser (Some u) = isOAuthUserId (user_id u)).
Proof.
  unfold isOAuthUser. fold (isOAuthUserId (user_id u)). split.
  - intros H. now rewrite H, (prefixed_is_truthy _ H).
  - intros ->. cbn [truthy_str andb].
    destruct (isOAuthUserId (user_id u)) eqn:E.
    + now rewrite (prefixed_is_truthy _ E).
    + now rewrite andb_false_r.
Qed.

Lemma isOAuthUser_extends_isOAuthUserId_witness :
  isOAuthUser (Some (mkUser "google-42" EmptyString EmptyString EmptyString))
  = true.
Proof.
  apply (proj1 (isOAuthUser_extends_isOAuthUserId
                  (mkUser "google-42" EmptyString EmptyString EmptyString))).
  reflexivity.
Defined.

(** X28. No one is taken for an OAuth user by accident of the name alone:
    when the id has none of the three prefixes, [isOAuthUser] is false for
    every user whose username has no digit, and for every user without an
    email address. *)
Theorem isOAuthUser_needs_digits_and_email (u : User) :
  isOAuthUserId (user_id u) = false ->
  has_digit (username u) = false \/ user_email u = EmptyString ->
  isOAuthUser (Some u) = false.
Proof.
  intros Hid Hcase. unfold isOAuthUser. fold (isOAuthUserId (user_id u)).
  rewrite Hid, andb_false_r.
  destruct Hcase as [Hd| ->].
  - assert (Hts : hasTimestamp (username u) = false).
    { unfold hasTimestamp. destruct (digit_run 0 (username u)) eqn:E; [|reflexivity].
      destruct (digit_run_has_digit _ _ E) as [Hle|H]; [lia|congruence]. }
    assert (Hend : ends_with_digit (username u) = false).
    { destruct (ends_with_digit (username u)) eqn:E; [|reflexivity].
      apply ends_with_digit_has_digit in E. congruence. }
    cbv zeta. rewrite Hts, Hend. now rewrite !andb_false_r.
  - cbn [truthy_str andb]. cbv zeta. now rewrite !andb_false_r.
Qed.

Lemma isOAuthUser_needs_digits_and_email_witness :
  isOAuthUser (Some carol) = false.
Proof.
  apply (isOAuthUser_needs_digits_and_email carol).
  - reflexivity.
  - left. reflexivity.
Defined.

Lemma usable_kept (d : string) (f : option string) :
  usable d = true -> getImageUrl d f = d.
Proof.
  unfold usable, getImageUrl. destruct (isBase64Image d); [reflexivity|].
  cbn [orb]. now intros ->.
Qed.

Lemma unusable_replaced (d : string) (f : option string) :
  usable d = false ->
  getImageUrl d f = match f with
                    | Some url => if truthy_str url then url else default_image
                    | None => default_image
                    end.
Proof.
  unfold usable, getImageUrl. destruct (isBase64Image d); [discriminate|].
  cbn [orb]. now intros ->.
Qed.

(** X29. [getImageUrl] settles after one call: applying it again with the
    same fallback changes nothing.  Without a fallback its result is always
    a base64 image or an http(s) address; and with a fallback the result
    can only fail to be one when the image data is not one and the result is
    the fallback itself. *)
Theorem getImageUrl_settles (imageData : string) (fallbackUrl : option string) :
  getImageUrl (getImageUrl imageData fallbackUrl) fallbackUrl
  = getImageUrl imageData fallbackUrl /\
  usable (getImageUrl imageData None) = true /\
  (usable (getImageUrl imageData fallbackUrl) = false ->
   usable imageData = false /\
   fallbackUrl = Some (getImageUrl imageData fallbackUrl)).
Proof.
  destruct (usable imageData) eqn:E.
  - rewrite !(usable_kept imageData) by exact E. rewrite E.
    repeat split; try discriminate; auto.
  - rewrite !(unusable_replaced imageData) by exact E.
    split; [|split; [reflexivity|]].
    + set (r := match fallbackUrl with
                | Some url => if truthy_str url then url else default_image
                | None => default_image
                end).
      destruct (usable r) eqn:Er; [now apply usable_kept|].
      now apply unusable_replaced.
    + destruct fallbackUrl as [url|]; [|discriminate].
      destruct (truthy_str url); [|discriminate]. intros _. now split.
Qed.

Lemma getImageUrl_settles_witness :
  usable "tea.png" = false /\
  Some "fallback.png" = Some (getImageUrl "tea.png" (Some "fallback.png")).
Proof.
  apply (proj2 (proj2 (getImageUrl_settles "tea.png" (Some "fallback.png")))).
  reflexivity.
Defined.

End UtilsExtras.
